(** * Verification of the text-cleaning core of pdf-extractor-api

    Shallow embedding of [text_cleaner.py] (the main cleaner, [clean_text])
    and of the cleaning path of [extractor.py] ([clean_extracted_text]),
    followed by the properties of the specification that concern them.

    Conventions of the embedding.
    - A Python [str] is a list of code points.  Code points are the 256
      values of [ascii], read as Latin-1 (U+0000 to U+00FF); the character
      classes below are Python's [str.isspace], [str.isdigit], [str.isalpha],
      [str.isupper], [str.lower] and the [re] classes [\s] and [\d] on that
      range.
    - [len] is a [Z]; indices returned by [find]/[rfind] are [Z] with [-1]
      for "not found", as in Python.
    - Operations that can raise in Python ([/] on a zero divisor, [max] of
      an empty sequence) return in the error monad [py]; everything built on
      them threads the error.
    - [a / b > c] on integers is Python's true division: the quotient is
      rounded to the nearest double and compared with the double nearest to
      the literal.  [div_gt] and [div_lt] decide exactly that comparison. *)

From Stdlib Require Import ZArith List Ascii String Bool Lia.
From stdpp Require Import gmap strings list fin_maps.
Import ListNotations.

Local Open Scope Z_scope.

(** ** Code points and character classes *)

Abbreviation str := (list ascii).

Definition lit (s : string) : str := list_ascii_of_string s.

Definition nl : ascii := "010"%char.
Definition cr : ascii := "013"%char.
Definition sp : ascii := " "%char.

Definition code (c : ascii) : Z := Z.of_N (N_of_ascii c).

Definition in_range (lo hi : Z) (c : ascii) : bool :=
  (lo <=? code c) && (code c <=? hi).

(** [str.isspace], which is also what [str.strip()], [str.split()] and the
    pattern class [\s] use. *)
Definition isspace (c : ascii) : bool :=
  in_range 9 13 c || in_range 28 32 c || (code c =? 133) || (code c =? 160).

(** The pattern class [\d]: decimal digits. *)
Definition isdecimal (c : ascii) : bool := in_range 48 57 c.

(** [str.isdigit]: decimal digits and the superscript digits of Latin-1. *)
Definition isdigit (c : ascii) : bool :=
  isdecimal c || in_range 178 179 c || (code c =? 185).

Definition isupper (c : ascii) : bool :=
  in_range 65 90 c || in_range 192 214 c || in_range 216 222 c.

Definition isalpha (c : ascii) : bool :=
  in_range 65 90 c || in_range 97 122 c || (code c =? 170) || (code c =? 181)
  || (code c =? 186) || in_range 192 214 c || in_range 216 246 c
  || in_range 248 255 c.

Definition lower_chr (c : ascii) : ascii :=
  if isupper c then ascii_of_N (N_of_ascii c + 32) else c.

Definition eqc (a b : ascii) : bool := Ascii.eqb a b.

(** ** String primitives *)

Definition len (s : str) : Z := Z.of_nat (length s).

Definition lower (s : str) : str := map lower_chr s.

Fixpoint lstrip (s : str) : str :=
  match s with
  | c :: s' => if isspace c then lstrip s' else s
  | [] => []
  end.

Definition rstrip (s : str) : str := rev (lstrip (rev s)).

Definition strip (s : str) : str := rstrip (lstrip s).

Fixpoint startswith (p s : str) : bool :=
  match p, s with
  | [], _ => true
  | a :: p', b :: s' => eqc a b && startswith p' s'
  | _ :: _, [] => false
  end.

Definition endswith (p s : str) : bool := startswith (rev p) (rev s).

(** [sub in s] *)
Fixpoint contains (sub s : str) : bool :=
  startswith sub s ||
  match s with
  | _ :: s' => contains sub s'
  | [] => false
  end.

(** [s.find(c)] for a single character. *)
Fixpoint find_chr (c : ascii) (s : str) : Z :=
  match s with
  | [] => -1
  | a :: s' =>
      if eqc a c then 0
      else let i := find_chr c s' in if i <? 0 then -1 else i + 1
  end.

(** [s.rfind(p)]: the highest index at which [p] occurs, or [-1]. *)
Fixpoint rfind (p s : str) : Z :=
  match s with
  | [] => if startswith p [] then 0 else -1
  | _ :: s' =>
      let i := rfind p s' in
      if 0 <=? i then i + 1
      else if startswith p s then 0 else -1
  end.

(** [s[i:j]] for indices that are not negative. *)
Definition slice (i j : Z) (s : str) : str :=
  firstn (Z.to_nat (j - i)) (skipn (Z.to_nat i) s).

(** [s.count(c)] for a single character. *)
Definition count_chr (c : ascii) (s : str) : Z :=
  Z.of_nat (length (List.filter (fun a => eqc a c) s)).

(** [s.split(c)] for a single-character separator: never an empty list. *)
Fixpoint split_on (c : ascii) (s : str) : list str :=
  match s with
  | [] => [[]]
  | a :: s' =>
      if eqc a c then [] :: split_on c s'
      else match split_on c s' with
           | l :: ls => (a :: l) :: ls
           | [] => [[a]]
           end
  end.

(** [sep.join(ls)] for a single-character separator. *)
Fixpoint join (c : ascii) (ls : list str) : str :=
  match ls with
  | [] => []
  | [l] => l
  | l :: ls' => l ++ c :: join c ls'
  end.

(** [s.split()]: the maximal runs of characters that are not whitespace.
    [cur] is the token being read, in reverse. *)
Fixpoint split_ws_aux (cur : str) (s : str) : list str :=
  match s with
  | [] => match cur with [] => [] | _ => [rev cur] end
  | c :: s' =>
      if isspace c then
        match cur with
        | [] => split_ws_aux [] s'
        | _ => rev cur :: split_ws_aux [] s'
        end
      else split_ws_aux (c :: cur) s'
  end.

Definition split_ws (s : str) : list str := split_ws_aux [] s.

(** ** Errors and true division *)

Inductive exn := ZeroDivisionError | ValueError.

Inductive py (A : Type) : Type :=
| Ret (a : A)
| Raise (e : exn).
Arguments Ret {A} a.
Arguments Raise {A} e.

Definition bind {A B} (m : py A) (f : A -> py B) : py B :=
  match m with
  | Ret a => f a
  | Raise e => Raise e
  end.

Notation "'let*' x := m 'in' k" := (bind m (fun x => k))
  (at level 10, x name, m at level 100, k at level 200, only parsing).

(** The double nearest to a literal, as [mant / 2 ^ expo] with a 53-bit
    mantissa. *)
Record double := Double { mant : Z; expo : Z }.

Definition d0_05 : double := Double 7205759403792794 57.
Definition d0_1 : double := Double 7205759403792794 56.
Definition d0_4 : double := Double 7205759403792794 54.
Definition d0_6 : double := Double 5404319552844595 53.
Definition d0_7 : double := Double 6305039478318694 53.
Definition d0_8 : double := Double 7205759403792794 53.

(** The result of [a / b] on integers, before rounding. *)
Record quot := Quot { qnum : Z; qden : Z }.

Definition true_div (a b : Z) : py quot :=
  if b =? 0 then Raise ZeroDivisionError else Ret (Quot a b).

(** [q > d]: the rounded quotient exceeds [d] exactly when the quotient
    lies beyond the midpoint of [d] and the next double, the midpoint
    itself rounding to the neighbour with the even mantissa. *)
Definition div_gt (q : quot) (d : double) : bool :=
  let l := (2 * mant d + 1) * qden q in
  let r := qnum q * 2 ^ (expo d + 1) in
  if Z.even (mant d) then l <? r else l <=? r.

(** [q < d], likewise with the midpoint of [d] and the previous double. *)
Definition div_lt (q : quot) (d : double) : bool :=
  let l := qnum q * 2 ^ (expo d + 1) in
  let r := (2 * mant d - 1) * qden q in
  if Z.even (mant d) then l <? r else l <=? r.

(** [max] of a sequence of integers. *)
Definition py_max (l : list Z) : py Z :=
  match l with
  | [] => Raise ValueError
  | x :: l' => Ret (fold_left Z.max l' x)
  end.

(** ** Regular expressions

    The fragment of Python's [re] the program uses: literals, classes,
    concatenation, alternation, greedy [x?] and [x{n,}] over one-character
    atoms, and the anchors [^] and [$] under the flags [MULTILINE] and
    [IGNORECASE].  The matcher is the backtracking one: alternatives are
    tried left to right and a repetition takes as many characters as it can
    before giving some back, so the match found is the one [re] finds. *)

Record flags := Flags { multiline : bool; ignorecase : bool }.

Definition no_flags : flags := Flags false false.
Definition MULTILINE : flags := Flags true false.
Definition IGNORECASE : flags := Flags false true.

Inductive regex :=
| Eps
| Chr (c : ascii)
| Cls (p : ascii -> bool)
| Seq (r1 r2 : regex)
| Alt (r1 r2 : regex)
| Rep (p : ascii -> bool) (n : nat)
| Bol
| Eol.

(** [r?] *)
Definition Opt (r : regex) : regex := Alt r Eps.

Fixpoint cat (rs : list regex) : regex :=
  match rs with
  | [] => Eps
  | [r] => r
  | r :: rs' => Seq r (cat rs')
  end.

(** A literal word. *)
Definition Str (s : string) : regex := cat (map Chr (lit s)).

Section Matcher.
Variable fl : flags.
Context {R : Type}.

Definition chr_eq (c a : ascii) : bool :=
  if ignorecase fl then eqc (lower_chr c) (lower_chr a) else eqc c a.

(** [^]: at the start of the text, or after a newline under
    [MULTILINE].  [prev] is the character before the position. *)
Definition at_bol (prev : option ascii) : bool :=
  match prev with
  | None => true
  | Some c => multiline fl && eqc c nl
  end.

(** [$]: at the end of the text or before its final newline, and
    before every newline under [MULTILINE]. *)
Definition at_eol (s : str) : bool :=
  match s with
  | [] => true
  | c :: s' =>
      eqc c nl && (multiline fl || match s' with [] => true | _ => false end)
  end.

(** [p{n,}], greedy: the continuation is first tried after the longest
    run. *)
Fixpoint rep (p : ascii -> bool) (n : nat) (prev : option ascii) (s : str)
    (k : option ascii -> str -> option R) : option R :=
  let stop := match n with O => k prev s | S _ => None end in
  match s with
  | c :: s' =>
      if p c then
        match rep p (Nat.pred n) (Some c) s' k with
        | Some x => Some x
        | None => stop
        end
      else stop
  | [] => stop
  end.

Fixpoint exec (r : regex) (prev : option ascii) (s : str)
    (k : option ascii -> str -> option R) : option R :=
  match r with
  | Eps => k prev s
  | Chr c =>
      match s with
      | a :: s' => if chr_eq c a then k (Some a) s' else None
      | [] => None
      end
  | Cls p =>
      match s with
      | a :: s' => if p a then k (Some a) s' else None
      | [] => None
      end
  | Seq r1 r2 => exec r1 prev s (fun prev' s' => exec r2 prev' s' k)
  | Alt r1 r2 =>
      match exec r1 prev s k with
      | Some x => Some x
      | None => exec r2 prev s k
      end
  | Rep p n => rep p n prev s k
  | Bol => if at_bol prev then k prev s else None
  | Eol => if at_eol s then k prev s else None
  end.
End Matcher.

(** The text left after the match of [r] that starts at the current
    position, if there is one. *)
Definition match_at (fl : flags) (r : regex) (prev : option ascii) (s : str)
    : option str :=
  exec fl r prev s (fun _ rest => Some rest).

(** [re.match(r, s)] as a truth value. *)
Definition re_match (fl : flags) (r : regex) (s : str) : bool :=
  match match_at fl r None s with Some _ => true | None => false end.

(** A left-to-right scan for the matches that do not overlap, as
    [re.findall] and [re.sub] do it.  [skip] counts the characters of the
    current match still to step over.  None of the patterns of this program
    matches the empty string; the scan steps over one character after an
    empty match. *)
Inductive seg :=
| Text (c : ascii)
| Match (m : str).

Fixpoint scan (fl : flags) (r : regex) (prev : option ascii) (s : str)
    (skip : nat) : list seg :=
  match skip with
  | S n =>
      match s with
      | c :: s' => scan fl r (Some c) s' n
      | [] => []
      end
  | O =>
      match match_at fl r prev s with
      | Some rest =>
          let m := firstn (length s - length rest) s in
          Match m ::
            match s with
            | [] => []
            | c :: s' =>
                match m with
                | [] => Text c :: scan fl r (Some c) s' 0
                | _ :: m' => scan fl r (Some c) s' (length m')
                end
            end
      | None =>
          match s with
          | [] => []
          | c :: s' => Text c :: scan fl r (Some c) s' 0
          end
      end
  end.

Definition is_match (g : seg) : bool :=
  match g with Match _ => true | Text _ => false end.

(** [len(re.findall(r, s))] *)
Definition findall_count (fl : flags) (r : regex) (s : str) : Z :=
  Z.of_nat (length (List.filter is_match (scan fl r None s 0))).

(** [re.sub(r, repl, s)] for a replacement without group references. *)
Definition re_sub (fl : flags) (r : regex) (repl : str) (s : str) : str :=
  flat_map (fun g => match g with Match _ => repl | Text c => [c] end)
           (scan fl r None s 0).

(** ** Small Python idioms *)

(** Truth value of a sequence: not empty. *)
Definition truthy {A} (l : list A) : bool :=
  match l with [] => false | _ => true end.

Definition llen {A} (l : list A) : Z := Z.of_nat (length l).

(** A list comprehension whose body can raise: the first error wins. *)
Fixpoint mapM {A B} (f : A -> py B) (l : list A) : py (list B) :=
  match l with
  | [] => Ret []
  | a :: l' => let* b := f a in let* bs := mapM f l' in Ret (b :: bs)
  end.

(** [counts[k] = counts.get(k, 0) + 1] *)
Definition incr (k : str) (counts : gmap str Z) : gmap str Z :=
  <[k := default 0 (counts !! k) + 1]> counts.

(** [collections.Counter(ws)] *)
Definition Counter (ws : list str) : gmap str Z :=
  fold_left (fun counts w => incr w counts) ws ∅.

(** [d.values()] *)
Definition values (d : gmap str Z) : list Z := (map_to_list d).*2.

(** * text_cleaner.py *)

Module TextCleaner.

Definition content_removed : str := lit "[content removed]".
Definition data_removed : str := lit "[data removed]".
Definition pixel_data_removed : str := lit "[pixel data removed]".
Definition address_data_removed : str := lit "[address data removed]".
Definition calibration_data_removed : str := lit "[calibration data removed]".

(** [find_repeated_lines]: the first pass. *)
Definition count_line (counts : gmap str Z) (line : str) : gmap str Z :=
  let trimmed := strip line in
  if truthy trimmed && (len trimmed <? 200) then incr trimmed counts
  else counts.

Definition find_repeated_lines (lines : list str) : gset str :=
  let counts := fold_left count_line lines ∅ in
  dom (filter (fun kv => 3 <= kv.2) counts).

(** [(?m)^##?\s*-{2,}\s*Page\s*Break\s*-{2,}\s*$] *)
Definition page_break_heading_re : regex :=
  cat [Bol; Chr "#"; Opt (Chr "#"); Rep isspace 0; Rep (eqc "-") 2;
       Rep isspace 0; Str "Page"; Rep isspace 0; Str "Break"; Rep isspace 0;
       Rep (eqc "-") 2; Rep isspace 0; Eol].

(** [(?m)^-{3,}\s*Page\s*Break\s*-{3,}\s*$] *)
Definition page_break_simple_re : regex :=
  cat [Bol; Rep (eqc "-") 3; Rep isspace 0; Str "Page"; Rep isspace 0;
       Str "Break"; Rep isspace 0; Rep (eqc "-") 3; Rep isspace 0; Eol].

Definition remove_page_breaks (text : str) : str :=
  let result := re_sub MULTILINE page_break_heading_re [] text in
  let result := re_sub MULTILINE page_break_simple_re [] result in
  result.

Definition is_likely_heading (line : str) : py bool :=
  let trimmed := strip line in
  if (80 <? len trimmed) || (len trimmed <? 3) then Ret false
  else if startswith (lit "#") trimmed then Ret true
  else
    let letters := List.filter isalpha trimmed in
    if negb (truthy letters) then Ret false
    else
      let uppercase_count := llen (List.filter isupper letters) in
      let* q := true_div uppercase_count (llen letters) in
      Ret (div_gt q d0_4).

(** [^(page\s+)?\d+\s*(of|/)\s*\d+\s*$] *)
Definition page_number_re : regex :=
  cat [Bol; Opt (Seq (Str "page") (Rep isspace 1)); Rep isdecimal 1;
       Rep isspace 0; Alt (Str "of") (Chr "/"); Rep isspace 0;
       Rep isdecimal 1; Rep isspace 0; Eol].

Definition is_page_number_line (line : str) : bool :=
  let trimmed := strip line in
  if 50 <? len trimmed then false
  else
    let lower := lower trimmed in
    if re_match no_flags page_number_re lower then true else false.

Definition footer_indicators : list str :=
  [lit "customer support"; lit "www.heimannsensor"; lit "maria-reiche-str";
   lit "info@heimann"; lit "fax 49"; lit "phone 49"; lit "d-01109 dresden"].

Definition is_contact_footer (line : str) : bool :=
  let trimmed := strip line in
  if 200 <? len trimmed then false
  else
    let lower := lower trimmed in
    let matches :=
      llen (List.filter (fun ind => contains ind lower) footer_indicators) in
    3 <=? matches.

(** [0.0] *)
Definition zero_ratio : quot := Quot 0 1.

Definition get_digit_hex_ratio (s : str) : py quot :=
  if negb (truthy s) then Ret zero_ratio
  else
    let digit_hex_count :=
      llen (List.filter
              (fun c => isdigit c || contains [lower_chr c] (lit "abcdefx")) s) in
    true_div digit_hex_count (len s).

(** [Pixel\s+\d+] *)
Definition pixel_re : regex :=
  cat [Str "Pixel"; Rep isspace 1; Rep isdecimal 1].

Definition contains_pixel_sequence (line : str) : bool :=
  5 <=? findall_count no_flags pixel_re line.

Definition ishex (c : ascii) : bool :=
  in_range 48 57 c || in_range 65 70 c || in_range 97 102 c.

(** [0x[0-9A-Fa-f]{2,}] *)
Definition hex_re : regex := cat [Str "0x"; Rep ishex 2].

Definition contains_hex_sequence (line : str) : bool :=
  4 <=? findall_count no_flags hex_re line.

Definition is_calibration_data_line (line : str) : bool :=
  let has_thgrad := contains (lit "ThGrad") line || contains (lit "ThOffset") line in
  let has_vddcomp :=
    contains (lit "VddCompGrad") line || contains (lit "VddCompOff") line in
  let has_pixels := contains_pixel_sequence line in
  (has_thgrad || has_vddcomp) && has_pixels.

(** The word statistics of the last rule of [clean_line]. *)
Definition repetitive (line : str) : py bool :=
  if 500 <? len line then
    let words := split_ws line in
    if 50 <? llen words then
      let word_counts := Counter (map lower words) in
      let* max_count := py_max (values word_counts) in
      let unique_count := Z.of_nat (size word_counts) in
      let* q1 := true_div max_count (llen words) in
      if div_gt q1 d0_4 then Ret true
      else
        let* q2 := true_div unique_count (llen words) in
        if div_lt q2 d0_1 then Ret true else Ret false
    else Ret false
  else Ret false.

(** The guards of the rules of [clean_line] in which a ratio occurs. *)
Definition is_data_dump (trimmed : str) : py bool :=
  if 300 <? len trimmed then
    let* ratio := get_digit_hex_ratio trimmed in Ret (div_gt ratio d0_6)
  else Ret false.

Definition is_spaceless (line : str) : py bool :=
  if 500 <? len line then
    let space_count := count_chr sp line in
    let* space_ratio := true_div space_count (len line) in
    Ret (div_lt space_ratio d0_05)
  else Ret false.

Definition is_single_long_word (line : str) : bool :=
  (200 <? len line) && negb (contains [sp] line).

Definition is_dropped_repeat (trimmed : str) (repeated_lines : gset str) : py bool :=
  if bool_decide (trimmed ∈ repeated_lines) then
    let* heading := is_likely_heading trimmed in Ret (negb heading)
  else Ret false.

Definition clean_line (line : str) (repeated_lines : gset str) : py str :=
  let trimmed := strip line in
  if negb (truthy trimmed) then Ret []
  else if 2000 <? len line then Ret content_removed
  else
    let* dropped := is_dropped_repeat trimmed repeated_lines in
    if dropped then Ret []
    else if is_page_number_line trimmed then Ret []
    else if is_contact_footer trimmed then Ret []
    else
      let* dump := is_data_dump trimmed in
      if dump then Ret data_removed
      else if contains_pixel_sequence trimmed then Ret pixel_data_removed
      else if contains_hex_sequence trimmed then Ret address_data_removed
      else if is_calibration_data_line trimmed then Ret calibration_data_removed
      else
        let* spaceless := is_spaceless line in
        if spaceless then Ret content_removed
        else if is_single_long_word line then Ret content_removed
        else
          let* rep := repetitive line in
          if rep then Ret content_removed else Ret line.

(** The state of the loop of [collapse_removed_lines]. *)
Record collapse_state := Collapse {
  result : list str;
  prev_was_removed : bool;
  prev_was_empty : bool
}.

Definition collapse_step (st : collapse_state) (line : str) : collapse_state :=
  let is_removed := startswith (lit "[") line && endswith (lit " removed]") line in
  let is_empty := negb (truthy (strip line)) in
  if is_removed then
    if negb (prev_was_removed st)
    then Collapse (result st ++ [line]) true false
    else Collapse (result st) (prev_was_removed st) false
  else if is_empty then
    if negb (prev_was_empty st) && negb (prev_was_removed st)
    then Collapse (result st ++ [[]]) false true
    else Collapse (result st) false true
  else Collapse (result st ++ [line]) false false.

Definition collapse_removed_lines (text : str) : str :=
  let st := fold_left collapse_step (split_on nl text) (Collapse [] false false) in
  join nl (result st).

(** The unwrapping of a fenced block at the start of [clean_text]. *)
Definition unwrap_fence (cleaned : str) : str :=
  if startswith (lit "```markdown" ++ [nl]) cleaned
     || startswith (lit "```markdown" ++ [cr; nl]) cleaned then
    let end_pos := rfind (lit "```") cleaned in
    if 15 <? end_pos then
      let first_newline := find_chr nl cleaned in
      if negb (first_newline =? -1)
      then strip (slice (first_newline + 1) end_pos cleaned)
      else cleaned
    else cleaned
  else if startswith (lit "```" ++ [nl]) cleaned
          || startswith (lit "```" ++ [cr; nl]) cleaned then
    let end_pos := rfind (lit "```") cleaned in
    if 4 <? end_pos then
      let first_newline := find_chr nl cleaned in
      if negb (first_newline =? -1)
      then strip (slice (first_newline + 1) end_pos cleaned)
      else cleaned
    else cleaned
  else cleaned.

(** [\n{4,}] *)
Definition newlines_re : regex := Rep (eqc nl) 4.

Definition clean_text (text : str) : py str :=
  let cleaned := strip text in
  let cleaned := unwrap_fence cleaned in
  let lines := split_on nl cleaned in
  let repeated_lines := find_repeated_lines lines in
  let* processed_lines := mapM (fun line => clean_line line repeated_lines) lines in
  let result := join nl processed_lines in
  let result := remove_page_breaks result in
  let result := collapse_removed_lines result in
  let result := re_sub no_flags newlines_re [nl; nl; nl] result in
  Ret (strip result).

End TextCleaner.

(** * extractor.py: the cleaning of freshly extracted text *)

Module Extractor.

Definition numeric_data_removed : str := lit "[numeric data removed]".

(** A loop whose body can raise. *)
Fixpoint foldM {S A} (f : S -> A -> py S) (l : list A) (st : S) : py S :=
  match l with
  | [] => Ret st
  | a :: l' => let* st' := f st a in foldM f l' st'
  end.

(** [^\d+$] *)
Definition digits_re : regex := cat [Bol; Rep isdecimal 1; Eol].

Definition is_numeric_garbage (line : str) : py bool :=
  let stripped := strip line in
  if negb (truthy stripped) then Ret false
  else if re_match no_flags digits_re stripped then Ret true
  else
    let words := split_ws stripped in
    let* by_words :=
      (if 5 <=? llen words then
         let numeric_count :=
           llen (List.filter (re_match no_flags digits_re) words) in
         let* q := true_div numeric_count (llen words) in
         Ret (div_gt q d0_8)
       else Ret false) in
    if by_words then Ret true
    else
      let* by_chars :=
        (if 50 <? len stripped then
           let digit_count := llen (List.filter isdigit stripped) in
           let* q := true_div digit_count (len stripped) in
           Ret (div_gt q d0_7)
         else Ret false) in
      if by_chars then Ret true else Ret false.

(** [^Page\s+\d+\s+(of|/)\s+\d+\s*$], used with [re.IGNORECASE] *)
Definition page_re : regex :=
  cat [Bol; Str "Page"; Rep isspace 1; Rep isdecimal 1; Rep isspace 1;
       Alt (Str "of") (Chr "/"); Rep isspace 1; Rep isdecimal 1;
       Rep isspace 0; Eol].

(** First pass: [seen_lines]. *)
Definition count_line (seen_lines : gmap str Z) (line : str) : gmap str Z :=
  let stripped := strip line in
  if truthy stripped && (len stripped <? 200) then incr stripped seen_lines
  else seen_lines.

(** The state of the second pass. *)
Record pass_state := Pass {
  cleaned_lines : list str;
  prev_empty : bool;
  numeric_run : Z
}.

Definition is_repeated (seen_lines : gmap str Z) (stripped : str) : bool :=
  truthy stripped && (3 <=? default 0 (seen_lines !! stripped)).

Definition is_page_line (stripped : str) : bool :=
  re_match IGNORECASE page_re stripped.

Definition filter_step (seen_lines : gmap str Z) (st : pass_state) (line : str)
    : py pass_state :=
  let stripped := strip line in
  if is_repeated seen_lines stripped then Ret st
  else if is_page_line stripped then Ret st
  else
    let* garbage := is_numeric_garbage stripped in
    if garbage then
      let run := numeric_run st + 1 in
      if run =? 3
      then Ret (Pass (cleaned_lines st ++ [numeric_data_removed]) (prev_empty st) run)
      else Ret (Pass (cleaned_lines st) (prev_empty st) run)
    else if negb (truthy stripped) then
      if negb (prev_empty st)
      then Ret (Pass (cleaned_lines st ++ [[]]) true 0)
      else Ret (Pass (cleaned_lines st) (prev_empty st) 0)
    else Ret (Pass (cleaned_lines st ++ [line]) false 0).

(** Third pass: consecutive markers. *)
Definition marker_step (st : list str * bool) (line : str) : list str * bool :=
  let '(result, prev_was_marker) := st in
  if bool_decide (line = numeric_data_removed) then
    if negb prev_was_marker then (result ++ [line], true)
    else (result, prev_was_marker)
  else (result ++ [line], false).

Definition clean_extracted_text (text : str) : py str :=
  let lines := split_on nl text in
  let seen_lines := fold_left count_line lines ∅ in
  let* st := foldM (filter_step seen_lines) lines (Pass [] false 0) in
  let '(result, _) := fold_left marker_step (cleaned_lines st) ([], false) in
  Ret (join nl result).

End Extractor.

(** * extractor.py: the text of a document *)

Module PdfExtraction.

Record extraction := Extraction {
  markdown : str;
  page_count : Z;
  error : option exn
}.

(** [sep.join(ls)] *)
Fixpoint join_str (sep : str) (ls : list str) : str :=
  match ls with
  | [] => []
  | [l] => l
  | l :: ls' => l ++ sep ++ join_str sep ls'
  end.

Definition page_separator : str := [nl; nl] ++ lit "---" ++ [nl; nl].

(** [extract_pdf_to_markdown] from the point where PyMuPDF has opened the
    document: [doc] holds what [get_text] returns for each page, in order.
    An exception of the cleaning is caught and reported in [error], as the
    exception itself rather than its message. *)
Definition extract_pdf_to_markdown (doc : list str) : extraction :=
  let page_count := llen doc in
  let all_text := List.filter (fun text => truthy (strip text)) doc in
  let raw_text := join_str page_separator all_text in
  match Extractor.clean_extracted_text raw_text with
  | Ret cleaned_text => Extraction cleaned_text page_count None
  | Raise e => Extraction [] 0 (Some e)
  end.

End PdfExtraction.

(** * main.py: the endpoint that cleans a text *)

Module Main.

Record CleanResponse := {
  cleaned_text : str;
  original_length : Z;
  cleaned_length : Z
}.

(** [POST /clean] *)
Definition clean_existing_text (text : str) : py CleanResponse :=
  let* cleaned := TextCleaner.clean_text text in
  Ret {| cleaned_text := cleaned;
         original_length := len text;
         cleaned_length := len cleaned |}.

End Main.

(** * Vocabulary of the specification *)

(** ** The repetition detector *)

(** The number of lines whose trimmed content is [t] and is tracked, that
    is, has between 1 and 199 characters. *)
Definition tracked_occurrences (t : str) (lines : list str) : Z :=
  llen (filter (λ line, strip line = t ∧ 0 < len (strip line) < 200) lines).

(** ** The run counter of the fresh-extraction pass *)

(** A line the second pass of [clean_extracted_text] skips before the
    numeric test: repeated 3 times or more, or a page-number line. *)
Definition skipped (seen_lines : gmap str Z) (line : str) : bool :=
  Extractor.is_repeated seen_lines (strip line)
  || Extractor.is_page_line (strip line).

(** The number of lines that reach the numeric test. *)
Definition reaching (seen_lines : gmap str Z) (lines : list str) : Z :=
  llen (List.filter (fun line => negb (skipped seen_lines line)) lines).

(** The placeholder the pass appends while the run counter goes from
    [run] to [run + k]: one if the counter passes 3, none otherwise. *)
Definition run_marker (run k : Z) : list str :=
  if (run <? 3) && (3 <=? run + k) then [Extractor.numeric_data_removed] else [].

(** Numeric lines with a header repeated between them. *)
Definition header_between_numbers : list str :=
  [lit "1"; lit "hdr"; lit "2"; lit "hdr"; lit "3"; lit "hdr"].

(** ** The calibration rule *)

(** A calibration line: a calibration keyword and five pixel references. *)
Definition calibration_line : str :=
  lit "ThGrad Pixel 0 Pixel 1 Pixel 2 Pixel 3 Pixel 4".

(** ** Blank lines and collapsing *)

(** [s] contains three consecutive newline characters, that is, two
    blank lines in a row. *)
Definition has_blank_run (s : str) : Prop :=
  ∃ a b, s = a ++ [nl; nl; nl] ++ b.

(** A line as [split('\n')] yields it: without a newline. *)
Definition nl_free (l : str) : Prop := Forall (λ c, c ≠ nl) l.

(** A scan for three newlines in a row, [n] of them just read. *)
Fixpoint nl_ok (n : nat) (s : str) : bool :=
  match s with
  | [] => true
  | c :: s' =>
      if eqc c nl then (n <? 2)%nat && nl_ok (S n) s' else nl_ok 0 s'
  end.

(** Lines without newlines, no two empty ones adjacent. *)
Inductive well_spaced : list str → Prop :=
| ws_nil : well_spaced []
| ws_one l : nl_free l → well_spaced [l]
| ws_cons l l' ls :
    nl_free l → (l = [] → l' ≠ []) → well_spaced (l' :: ls) →
    well_spaced (l :: l' :: ls).

(** What the loop of [collapse_removed_lines] maintains: after an empty
    line is emitted the state records it. *)
Definition collapse_inv (st : TextCleaner.collapse_state) : Prop :=
  well_spaced (TextCleaner.result st)
  ∧ (last (TextCleaner.result st) = Some [] →
     TextCleaner.prev_was_empty st = true
     ∧ TextCleaner.prev_was_removed st = false).

(** A line the collapse pass takes for a placeholder. *)
Definition is_removed_marker (line : str) : bool :=
  startswith (lit "[") line && endswith (lit " removed]") line.

(** A line of content for the collapse pass: no newline in it, not blank,
    not a placeholder. *)
Definition content_line (l : str) : Prop :=
  nl_free l ∧ truthy (strip l) = true ∧ is_removed_marker l = false.



(** ** The heading exemption *)




(** ** A second pass *)

(** A fenced block inside a fenced block. *)
Definition fenced_twice : str :=
  lit "```" ++ [nl] ++ lit "```" ++ [nl] ++ lit "hello" ++ [nl]
  ++ lit "```" ++ [nl] ++ lit "```".

Definition fenced_once : str :=
  lit "```" ++ [nl] ++ lit "hello" ++ [nl] ++ lit "```".

(** ** Page-break markers *)

(** The shapes of page-break markers. *)
Definition dashes (n : nat) : str := repeat "-"%char n.

Definition spaces_only (w : str) : Prop := Forall (λ c, isspace c = true) w.

(** What follows the first dashes: "Page Break", whitespace allowed around
    each word, then [m] dashes and trailing whitespace. *)
Definition marker_body (w2 w3 w4 : str) (m : nat) (w5 : str) : str :=
  w2 ++ lit "Page" ++ w3 ++ lit "Break" ++ w4 ++ dashes m ++ w5.

(** One or two "#", then [n] dashes, then the body. *)
Definition heading_marker (hashes w1 : str) (n : nat) (body : str) : str :=
  hashes ++ w1 ++ dashes n ++ body.

(** No "#": [n] dashes, then the body. *)
Definition simple_marker (n : nat) (body : str) : str := dashes n ++ body.

(** The part both patterns share after the first dashes, [d] being the
    least number of closing dashes. *)
Definition marker_tail (d : nat) : regex :=
  cat [Rep isspace 0; Str "Page"; Rep isspace 0; Str "Break"; Rep isspace 0;
       Rep (eqc "-") d; Rep isspace 0; Eol].

(** The continuation of a whole match: what is left of the text. *)
Definition rest_of : option ascii → str → option str := fun _ rest => Some rest.

(** A repetition over [p] cannot go on into [s]. *)
Definition stops (p : ascii → bool) (s : str) : Prop :=
  match s with
  | [] => True
  | c :: _ => p c = false
  end.

(** What may follow a marker line: the end of the text, or a newline and
    a next line that does not begin with whitespace. *)
Definition line_end (post : str) : Prop :=
  post = [] ∨ ∃ c rest, post = nl :: c :: rest ∧ isspace c = false.

(** The character before the position reached after reading [s]. *)
Definition last_of (prev : option ascii) (s : str) : option ascii :=
  match last s with
  | Some c => Some c
  | None => prev
  end.

(** A marker with two dashes on each side and no "#". *)
Definition two_dash_marker : str := lit "-- Page Break --".

(** Markers between lines of text, and what [remove_page_breaks] leaves. *)
Definition text_with_markers : str :=
  lit "intro" ++ [nl] ++ lit "## --- Page Break ---" ++ [nl] ++ lit "body"
  ++ [nl] ++ lit "--- Page Break ---" ++ [nl] ++ lit "-- Page Break --"
  ++ [nl] ++ lit "end".

Definition text_without_markers : str :=
  lit "intro" ++ [nl] ++ [nl] ++ lit "body"
  ++ [nl] ++ [nl] ++ lit "-- Page Break --"
  ++ [nl] ++ lit "end".

(** No line of [s] begins with "#" or "-", [prev] being the character
    before [s]. *)
Fixpoint quiet (prev : option ascii) (s : str) : bool :=
  match s with
  | [] => true
  | c :: s' =>
      negb (at_bol MULTILINE prev && (eqc "#" c || eqc "-" c))
      && quiet (Some c) s'
  end.

(** No match of [r] starts inside [x], whatever follows it. *)
Definition inert (fl : flags) (r : regex) (prev : option ascii) (x : str) : Prop :=
  ∀ a c t s, x = a ++ c :: t → match_at fl r (last_of prev a) (c :: t ++ s) = None.

(** As [line_end], the next line not beginning with "#" either. *)
Definition plain_line_end (post : str) : Prop :=
  post = []
  ∨ ∃ c rest, post = nl :: c :: rest ∧ isspace c = false ∧ eqc "#" c = false.

(** ** Numeric garbage *)

(** Purely digits: not empty and made of decimal digits only. *)
Definition purely_numeric (w : str) : bool := truthy w && forallb isdecimal w.

(** The three shapes of numeric garbage, on a trimmed line: purely digits;
    at least 5 tokens of which more than 80% are purely digits; more than
    50 characters of which more than 70% are digits. *)
Definition numeric_garbage_shape (s : str) : Prop :=
  purely_numeric s = true
  ∨ (5 ≤ llen (split_ws s)
     ∧ 4 * llen (split_ws s) < 5 * llen (List.filter purely_numeric (split_ws s)))
  ∨ (50 < len s ∧ 7 * len s < 10 * llen (List.filter isdigit s)).

(** The continuation of [$] at the end of a pattern. *)
Definition at_end : option ascii → str → option str :=
  fun prev s => exec no_flags Eol prev s rest_of.

(** Three equal numeric lines. *)
Definition three_ones : str := lit "1" ++ [nl] ++ lit "1" ++ [nl] ++ lit "1".

(** Three different numeric lines. *)
Definition one_two_three : list str := [lit "1"; lit "2"; lit "3"].

(** ** The output of the fresh-extraction path *)

(** No two adjacent lines of [ls] are both [x]. *)
Fixpoint no_twice (x : str) (ls : list str) : Prop :=
  match ls with
  | a :: ls' =>
      match ls' with
      | b :: _ => ¬ (a = x ∧ b = x)
      | [] => True
      end ∧ no_twice x ls'
  | [] => True
  end.

(** A line the second pass of [clean_extracted_text] keeps: it reaches the
    numeric test, is not numeric garbage and is not blank. *)
Definition kept (seen_lines : gmap str Z) (l : str) : Prop :=
  skipped seen_lines l = false
  ∧ Extractor.is_numeric_garbage (strip l) = Ret false
  ∧ truthy (strip l) = true.

(** What the second pass can append: an empty line, the placeholder, or a
    line it keeps. *)
Definition emitted (seen_lines : gmap str Z) (l : str) : Prop :=
  l = [] ∨ l = Extractor.numeric_data_removed ∨ kept seen_lines l.

(** The lines that are neither empty nor the placeholder. *)
Definition content_lines (ls : list str) : list str :=
  filter (λ l, l ≠ [] ∧ l ≠ Extractor.numeric_data_removed) ls.

(** What the second pass maintains: no two adjacent empty lines, and the
    state records an empty line emitted last. *)
Definition pass_inv (st : Extractor.pass_state) : Prop :=
  no_twice [] (Extractor.cleaned_lines st)
  ∧ (last (Extractor.cleaned_lines st) = Some [] → Extractor.prev_empty st = true).

(** What the third pass maintains over the lines [cl] read so far. *)
Definition marker_inv (cl : list str) (st : list str * bool) : Prop :=
  last st.1 = last cl
  ∧ (st.2 = true ↔ last cl = Some Extractor.numeric_data_removed)
  ∧ no_twice Extractor.numeric_data_removed st.1
  ∧ content_lines st.1 = content_lines cl
  ∧ (∀ P : str → Prop, Forall P cl → Forall P st.1)
  ∧ (no_twice [] cl → no_twice [] st.1).

(** ** The collapse pass *)

(** A line that is neither blank nor a placeholder for the collapse pass. *)
Definition is_content (l : str) : bool :=
  negb (is_removed_marker l) && truthy (strip l).

(** ** Lengths *)

(** The least number of characters a match of [r] takes. *)
Fixpoint min_len (r : regex) : nat :=
  match r with
  | Eps | Bol | Eol => 0
  | Chr _ | Cls _ => 1
  | Seq r1 r2 => min_len r1 + min_len r2
  | Alt r1 r2 => Nat.min (min_len r1) (min_len r2)
  | Rep _ n => n
  end.

(** What [re.sub] puts in the place of a segment of the scan. *)
Definition subst_seg (repl : str) (g : seg) : str :=
  match g with Match _ => repl | Text c => [c] end.

(** The characters of the lines of a text, one newline counted after each
    line. *)
Fixpoint total_len (ls : list str) : nat :=
  match ls with
  | [] => 0
  | l :: ls' => S (length l) + total_len ls'
  end.

(** ** The passes after the classifier *)

(** The four tags the classifier emits. *)
Definition tags : list str :=
  [TextCleaner.content_removed; TextCleaner.data_removed;
   TextCleaner.pixel_data_removed; TextCleaner.address_data_removed].

(** A blank line for the collapse pass. *)
Definition is_blank (l : str) : bool := negb (truthy (strip l)).

(** The lines the collapse pass keeps of [ls], from its initial state. *)
Definition collapse_lines (ls : list str) : list str :=
  TextCleaner.result
    (fold_left TextCleaner.collapse_step ls (TextCleaner.Collapse [] false false)).

(** No two dashes in a row: no page-break pattern can match in such a
    text. *)
Definition dash_free (s : str) : Prop := contains (lit "--") s = false.

(** [pre] ends where a line starts, [post] starts where a line ends. *)
Definition line_start (pre : str) : Prop := pre = [] ∨ last pre = Some nl.

Definition line_stop (post : str) : Prop := post = [] ∨ ∃ rest, post = nl :: rest.

(** ** Blank lines inside a text *)


(** ** A second pass over an output *)

(** A text that does not begin with a code fence. *)
Definition unfenced (y : str) : Prop := startswith (lit "```") y = false.

(** No match of [r] starts at a position of [s], [prev] being the
    character before [s]. *)
Fixpoint no_match_from (r : regex) (prev : option ascii) (s : str) : bool :=
  match match_at MULTILINE r prev s with
  | Some _ => false
  | None =>
      match s with
      | [] => true
      | c :: s' => no_match_from r (Some c) s'
      end
  end.

(** A text without a page-break marker: neither pattern matches anywhere
    in it. *)
Definition no_page_break (y : str) : bool :=
  no_match_from TextCleaner.page_break_heading_re None y
  && no_match_from TextCleaner.page_break_simple_re None y.

(** The line [l] directly after the line [prev] is emitted again by the
    collapse pass: a placeholder does not follow a placeholder, and a
    blank line follows a content line. *)
Definition follows_ok (prev l : str) : bool :=
  if is_removed_marker l then negb (is_removed_marker prev)
  else if is_blank l then is_content prev
  else true.

(** Nothing to collapse among the lines: no placeholder directly after a
    placeholder, and no blank line directly after a placeholder or a blank
    line. *)
Fixpoint nothing_to_collapse (ls : list str) : bool :=
  match ls with
  | l :: ls' =>
      match ls' with l' :: _ => follows_ok l l' | [] => true end
      && nothing_to_collapse ls'
  | [] => true
  end.

(** A long word between a title and a body, and its cleaned form. *)
Definition long_word_text : str :=
  lit "Real Title" ++ [nl] ++ repeat "x"%char 201 ++ [nl] ++ lit "Body text".

Definition long_word_cleaned : str :=
  lit "Real Title" ++ [nl] ++ TextCleaner.content_removed ++ [nl]
  ++ lit "Body text".

(** Three long words between content lines, and two separated by a blank
    line. *)
Definition long_words_between : str :=
  lit "a" ++ [nl] ++ repeat "x"%char 201 ++ [nl] ++ lit "b" ++ [nl]
  ++ repeat "y"%char 201 ++ [nl] ++ lit "c" ++ [nl] ++ repeat "z"%char 201
  ++ [nl] ++ lit "d".

Definition long_words_apart : str :=
  repeat "x"%char 201 ++ [nl; nl] ++ repeat "y"%char 201.

(** ** Repeated headings in a text *)







(** ** Page-break markers in any text *)

(** A pattern that ends with [$]. *)
Fixpoint ends_eol (r : regex) : bool :=
  match r with
  | Eol => true
  | Seq _ r2 => ends_eol r2
  | _ => false
  end.

(** The marker with two dashes after a line that is a lone "#". *)
Definition hash_then_two_dash : str :=
  lit "#" ++ [nl] ++ two_dash_marker ++ [nl] ++ lit "x".

(** Markers after a heading and a list item, blank lines around them. *)
Definition usual_layout : str :=
  lit "# Title" ++ [nl] ++ lit "- item" ++ [nl; nl]
  ++ lit "## --- Page Break ---" ++ [nl; nl] ++ lit "body" ++ [nl]
  ++ lit "--- Page Break ---" ++ [nl; nl] ++ lit "end".

Definition usual_layout_stripped : str :=
  lit "# Title" ++ [nl] ++ lit "- item" ++ [nl; nl]
  ++ [nl] ++ lit "body" ++ [nl]
  ++ [nl] ++ lit "end".

(** ** The placeholder of the fresh-extraction path as a line of the input *)

(** The placeholder three times, then three numeric lines. *)
Definition placeholder_then_numbers : str :=
  join nl [Extractor.numeric_data_removed; Extractor.numeric_data_removed;
           Extractor.numeric_data_removed; lit "1"; lit "2"; lit "3"].

(** * Properties *)

(** Closed goals, conjunctions of them included, by evaluation. *)
Ltac by_evaluation :=
  repeat match goal with |- _ ∧ _ => split end; vm_compute; reflexivity.

(** ** Totality *)

Lemma true_div_ret (a b : Z) : b ≠ 0 → true_div a b = Ret (Quot a b).
Proof.
  intros Hb. unfold true_div.
  destruct (Z.eqb_spec b 0); [contradiction | reflexivity].
Qed.

Lemma truthy_llen {A} (l : list A) : truthy l = true → llen l ≠ 0.
Proof. destruct l; [discriminate | unfold llen; simpl; lia]. Qed.

Lemma incr_nonempty (w : str) (m : gmap str Z) : incr w m ≠ ∅.
Proof. unfold incr. apply insert_non_empty. Qed.

Lemma Counter_snoc (ws : list str) (w : str) :
  Counter (ws ++ [w]) = incr w (Counter ws).
Proof. unfold Counter. rewrite fold_left_app. reflexivity. Qed.

Lemma Counter_nonempty (ws : list str) : ws ≠ [] → Counter ws ≠ ∅.
Proof.
  destruct ws as [|w ws _] using rev_ind; [congruence |].
  intros _. rewrite Counter_snoc. apply incr_nonempty.
Qed.

Lemma values_nonempty (m : gmap str Z) : m ≠ ∅ → values m ≠ [].
Proof.
  intros Hm Hv. apply Hm. apply map_to_list_empty_iff.
  unfold values in Hv. destruct (map_to_list m); [reflexivity | discriminate].
Qed.

Lemma py_max_ret (l : list Z) : l ≠ [] → ∃ x, py_max l = Ret x.
Proof. destruct l; [congruence | simpl; eauto]. Qed.

Module TextCleanerTotal.
Import TextCleaner.

Lemma is_likely_heading_ret (line : str) : ∃ b, is_likely_heading line = Ret b.
Proof.
  unfold is_likely_heading.
  destruct (_ || _); [eauto |].
  destruct (startswith _ _); [eauto |].
  destruct (truthy (List.filter isalpha (strip line))) eqn:Hl; simpl; [| eauto].
  rewrite true_div_ret by (apply truthy_llen, Hl). simpl. eauto.
Qed.

Lemma get_digit_hex_ratio_ret (s : str) : ∃ q, get_digit_hex_ratio s = Ret q.
Proof.
  unfold get_digit_hex_ratio.
  destruct (truthy s) eqn:Hs; simpl; [| eauto].
  rewrite true_div_ret by (apply (truthy_llen s), Hs). eauto.
Qed.

Lemma repetitive_ret (line : str) : ∃ b, repetitive line = Ret b.
Proof.
  unfold repetitive.
  destruct (500 <? len line); [| eauto].
  destruct (Z.ltb_spec 50 (llen (split_ws line))) as [Hw|]; [| eauto].
  assert (Hne : split_ws line ≠ []).
  { intros E. rewrite E in Hw. unfold llen in Hw. simpl in Hw. lia. }
  destruct (py_max_ret (values (Counter (map lower (split_ws line))))) as [mx ->].
  { apply values_nonempty, Counter_nonempty.
    destruct (split_ws line); [congruence | discriminate]. }
  simpl. rewrite !true_div_ret by lia. simpl.
  destruct (div_gt _ _); [eauto |]. destruct (div_lt _ _); eauto.
Qed.

Lemma is_dropped_repeat_ret (trimmed : str) (repeated_lines : gset str) :
  ∃ b, is_dropped_repeat trimmed repeated_lines = Ret b.
Proof.
  unfold is_dropped_repeat. case_bool_decide; [| eauto].
  destruct (is_likely_heading_ret trimmed) as [b ->]. simpl. eauto.
Qed.

Lemma is_data_dump_ret (trimmed : str) : ∃ b, is_data_dump trimmed = Ret b.
Proof.
  unfold is_data_dump. destruct (300 <? _); [| eauto].
  destruct (get_digit_hex_ratio_ret trimmed) as [q ->]. simpl. eauto.
Qed.

Lemma is_spaceless_ret (line : str) : ∃ b, is_spaceless line = Ret b.
Proof.
  unfold is_spaceless. destruct (Z.ltb_spec 500 (len line)); [| eauto].
  rewrite true_div_ret by lia. simpl. eauto.
Qed.

Lemma clean_line_ret (line : str) (repeated_lines : gset str) :
  ∃ out, clean_line line repeated_lines = Ret out.
Proof.
  unfold clean_line.
  destruct (negb _); [eauto |].
  destruct (2000 <? len line); [eauto |].
  destruct (is_dropped_repeat_ret (strip line) repeated_lines) as [d ->]. simpl.
  destruct d; [eauto |].
  destruct (is_page_number_line _); [eauto |].
  destruct (is_contact_footer _); [eauto |].
  destruct (is_data_dump_ret (strip line)) as [d ->]. simpl.
  destruct d; [eauto |].
  destruct (contains_pixel_sequence _); [eauto |].
  destruct (contains_hex_sequence _); [eauto |].
  destruct (is_calibration_data_line _); [eauto |].
  destruct (is_spaceless_ret line) as [d ->]. simpl.
  destruct d; [eauto |].
  destruct (is_single_long_word _); [eauto |].
  destruct (repetitive_ret line) as [b ->]. simpl.
  destruct b; eauto.
Qed.

Lemma mapM_ret {A B} (f : A → py B) (l : list A) :
  (∀ a, ∃ b, f a = Ret b) → ∃ bs, mapM f l = Ret bs.
Proof.
  intros Hf. induction l as [|a l [bs IH]]; simpl; [eauto |].
  destruct (Hf a) as [b ->]. simpl. rewrite IH. simpl. eauto.
Qed.

Lemma clean_text_ret (text : str) : ∃ out, clean_text text = Ret out.
Proof.
  unfold clean_text.
  destruct (mapM_ret
    (fun line => clean_line line
       (find_repeated_lines (split_on nl (unwrap_fence (strip text)))))
    (split_on nl (unwrap_fence (strip text)))) as [bs ->].
  { intros a. apply clean_line_ret. }
  simpl. eauto.
Qed.

End TextCleanerTotal.

Module ExtractorTotal.
Import Extractor.

Lemma is_numeric_garbage_ret (line : str) : ∃ b, is_numeric_garbage line = Ret b.
Proof.
  unfold is_numeric_garbage.
  destruct (truthy (strip line)) eqn:Hs; simpl; [| eauto].
  destruct (re_match _ _ _); [eauto |].
  assert (Hw : ∃ d,
    (if 5 <=? llen (split_ws (strip line))
     then let* q := true_div
                      (llen (List.filter (re_match no_flags digits_re)
                                         (split_ws (strip line))))
                      (llen (split_ws (strip line))) in
          Ret (div_gt q d0_8)
     else Ret false) = Ret d).
  { destruct (Z.leb_spec 5 (llen (split_ws (strip line)))); [| eauto].
    rewrite true_div_ret by lia. simpl. eauto. }
  destruct Hw as [d ->]. simpl.
  destruct d; [eauto |].
  destruct (Z.ltb_spec 50 (len (strip line))).
  - rewrite true_div_ret by lia. simpl. destruct (div_gt _ _); eauto.
  - simpl. eauto.
Qed.

Lemma filter_step_ret seen_lines st line :
  ∃ st', filter_step seen_lines st line = Ret st'.
Proof.
  unfold filter_step.
  destruct (is_repeated _ _); [eauto |].
  destruct (is_page_line _); [eauto |].
  destruct (is_numeric_garbage_ret (strip line)) as [b ->]. simpl.
  destruct b.
  - destruct (_ =? 3); eauto.
  - destruct (negb (truthy _)); [destruct (negb _) |]; eauto.
Qed.

Lemma foldM_ret {S A} (f : S → A → py S) (l : list A) (st : S) :
  (∀ s a, ∃ s', f s a = Ret s') → ∃ st', foldM f l st = Ret st'.
Proof.
  intros Hf. revert st. induction l as [|a l IH]; intros st; simpl; [eauto |].
  destruct (Hf st a) as [s' ->]. simpl. apply IH.
Qed.

Lemma clean_extracted_text_ret (text : str) :
  ∃ out, clean_extracted_text text = Ret out.
Proof.
  unfold clean_extracted_text.
  destruct (foldM_ret
    (filter_step (fold_left count_line (split_on nl text) ∅))
    (split_on nl text) (Pass [] false 0)) as [st ->].
  { intros s a. apply filter_step_ret. }
  simpl. destruct (fold_left marker_step _ _). eauto.
Qed.

End ExtractorTotal.

(** C1. [clean_text] and [clean_extracted_text] return a string on every
    input, the empty one included: no exception escapes.  The same holds of
    every function in which a division or a [max] occurs: the heading test
    (uppercase ratio), the digit/hex ratio and the rule that uses it, the
    word statistics (which take [max] of the word counts and two shares),
    the space ratio, the line classifier as a whole and the numeric-garbage
    test (token and digit ratios). *)
Theorem clean_total :
  (∀ text, ∃ out, TextCleaner.clean_text text = Ret out)
  ∧ (∀ text, ∃ out, Extractor.clean_extracted_text text = Ret out)
  ∧ (∃ out, TextCleaner.clean_text [] = Ret out)
  ∧ (∃ out, Extractor.clean_extracted_text [] = Ret out)
  ∧ (∀ line, ∃ b, TextCleaner.is_likely_heading line = Ret b)
  ∧ (∀ s, ∃ q, TextCleaner.get_digit_hex_ratio s = Ret q)
  ∧ (∀ line, ∃ b, TextCleaner.repetitive line = Ret b)
  ∧ (∀ trimmed, ∃ b, TextCleaner.is_data_dump trimmed = Ret b)
  ∧ (∀ line, ∃ b, TextCleaner.is_spaceless line = Ret b)
  ∧ (∀ line repeated_lines, ∃ out, TextCleaner.clean_line line repeated_lines = Ret out)
  ∧ (∀ line, ∃ b, Extractor.is_numeric_garbage line = Ret b).
Proof.
  repeat split.
  - apply TextCleanerTotal.clean_text_ret.
  - apply ExtractorTotal.clean_extracted_text_ret.
  - apply TextCleanerTotal.clean_text_ret.
  - apply ExtractorTotal.clean_extracted_text_ret.
  - apply TextCleanerTotal.is_likely_heading_ret.
  - apply TextCleanerTotal.get_digit_hex_ratio_ret.
  - apply TextCleanerTotal.repetitive_ret.
  - apply TextCleanerTotal.is_data_dump_ret.
  - apply TextCleanerTotal.is_spaceless_ret.
  - apply TextCleanerTotal.clean_line_ret.
  - apply ExtractorTotal.is_numeric_garbage_ret.
Qed.

(** ** The repetition detector *)

Lemma truthy_len (s : str) : truthy s = true ↔ 0 < len s.
Proof. unfold len. destruct s; simpl; split; (discriminate || lia || reflexivity). Qed.

Lemma count_line_lookup (counts : gmap str Z) (line t : str) :
  default 0 (TextCleaner.count_line counts line !! t) =
  default 0 (counts !! t) + tracked_occurrences t [line].
Proof.
  unfold TextCleaner.count_line, tracked_occurrences, llen.
  rewrite filter_cons, filter_nil.
  destruct (truthy (strip line)) eqn:Ht; simpl.
  - apply truthy_len in Ht.
    destruct (Z.ltb_spec (len (strip line)) 200).
    + unfold incr. destruct (decide (strip line = t)) as [<-|Hne].
      * rewrite lookup_insert_eq. simpl.
        rewrite decide_True by (split; [reflexivity | lia]). simpl. lia.
      * rewrite lookup_insert_ne by assumption.
        rewrite decide_False by tauto. simpl. lia.
    + rewrite decide_False by lia. simpl. lia.
  - rewrite decide_False; [simpl; lia |].
    intros [_ [Hpos _]]. apply truthy_len in Hpos. congruence.
Qed.

Lemma tracked_occurrences_cons (t line : str) (lines : list str) :
  tracked_occurrences t (line :: lines) =
  tracked_occurrences t [line] + tracked_occurrences t lines.
Proof.
  unfold tracked_occurrences, llen. rewrite !filter_cons, filter_nil.
  destruct (decide _); simpl length; lia.
Qed.

Lemma count_lines_lookup (lines : list str) (counts : gmap str Z) (t : str) :
  default 0 (fold_left TextCleaner.count_line lines counts !! t) =
  default 0 (counts !! t) + tracked_occurrences t lines.
Proof.
  revert counts. induction lines as [|line lines IH]; intros counts.
  - simpl. unfold tracked_occurrences, llen. simpl. lia.
  - simpl fold_left. rewrite IH, count_line_lookup, (tracked_occurrences_cons t line lines).
    lia.
Qed.

(** C2. [find_repeated_lines] returns exactly the trimmed contents that
    occur at least 3 times among the lines whose trimmed length lies
    strictly between 0 and 200: a content is in the set if and only if it
    has at least 3 tracked occurrences.  A content with only 2, or one that
    occurs only on lines of trimmed length 200 or more (which are not
    tracked), is therefore not in the set. *)
Theorem find_repeated_lines_spec (lines : list str) (t : str) :
  t ∈ TextCleaner.find_repeated_lines lines ↔ 3 ≤ tracked_occurrences t lines.
Proof.
  unfold TextCleaner.find_repeated_lines.
  pose proof (count_lines_lookup lines ∅ t) as Hc.
  rewrite lookup_empty in Hc. simpl in Hc.
  rewrite elem_of_dom. unfold is_Some.
  split.
  - intros [v Hv]. apply map_lookup_filter_Some in Hv as [Hv Hge].
    rewrite Hv in Hc. simpl in *. lia.
  - intros Hge.
    destruct (fold_left TextCleaner.count_line lines ∅ !! t) as [v|] eqn:Hv;
      simpl in Hc; [| lia].
    exists v. apply map_lookup_filter_Some. split; [assumption | simpl; lia].
Qed.

(** ** The run counter of the fresh-extraction pass *)

Module ExtractorRun.
Import Extractor.

Lemma filter_step_skipped seen_lines st line :
  skipped seen_lines line = true → filter_step seen_lines st line = Ret st.
Proof.
  unfold skipped, filter_step. intros H.
  destruct (is_repeated _ _); [reflexivity |].
  simpl in H. rewrite H. reflexivity.
Qed.

Lemma filter_step_reaching seen_lines st line :
  skipped seen_lines line = false →
  filter_step seen_lines st line =
  let* garbage := is_numeric_garbage (strip line) in
  if garbage then
    Ret (Pass (cleaned_lines st ++
                 (if numeric_run st + 1 =? 3 then [numeric_data_removed] else []))
              (prev_empty st) (numeric_run st + 1))
  else if negb (truthy (strip line)) then
    Ret (Pass (cleaned_lines st ++ (if prev_empty st then [] else [[]])) true 0)
  else Ret (Pass (cleaned_lines st ++ [line]) false 0).
Proof.
  unfold skipped, filter_step. intros H.
  apply orb_false_elim in H as [-> ->].
  destruct (is_numeric_garbage _) as [[|]|]; simpl; try reflexivity.
  - destruct (_ =? 3); [reflexivity | rewrite app_nil_r; reflexivity].
  - destruct (negb (truthy _)); [| reflexivity].
    destruct st as [cl [|] run]; simpl; [rewrite app_nil_r |]; reflexivity.
Qed.

Lemma run_marker_step (run k : Z) :
  0 ≤ k →
  (if run + 1 =? 3 then [numeric_data_removed] else []) ++ run_marker (run + 1) k
  = run_marker run (1 + k).
Proof.
  intros Hk. unfold run_marker.
  destruct (Z.eqb_spec (run + 1) 3);
    destruct (Z.ltb_spec (run + 1) 3); destruct (Z.ltb_spec run 3);
    destruct (Z.leb_spec 3 (run + 1 + k)); destruct (Z.leb_spec 3 (run + (1 + k)));
    simpl; try reflexivity; lia.
Qed.

Lemma run_marker_zero (run : Z) : run_marker run 0 = [].
Proof.
  unfold run_marker.
  destruct (Z.ltb_spec run 3); destruct (Z.leb_spec 3 (run + 0));
    simpl; try reflexivity; lia.
Qed.

Lemma reaching_nonneg seen_lines lines : 0 ≤ reaching seen_lines lines.
Proof. unfold reaching, llen. lia. Qed.

Lemma reaching_cons seen_lines line lines :
  reaching seen_lines (line :: lines) =
  (if skipped seen_lines line then 0 else 1) + reaching seen_lines lines.
Proof.
  unfold reaching, llen. simpl.
  destruct (skipped seen_lines line); simpl; lia.
Qed.

(** Over lines each of which is skipped or is numeric garbage, the pass
    only counts: the counter grows by the number of lines that reach the
    numeric test, and one placeholder is appended if it passes 3. *)
Lemma run_of_garbage seen_lines lines : ∀ st,
  Forall (λ line, skipped seen_lines line = true
                  ∨ is_numeric_garbage (strip line) = Ret true) lines →
  foldM (filter_step seen_lines) lines st =
  Ret (Pass (cleaned_lines st ++
               run_marker (numeric_run st) (reaching seen_lines lines))
            (prev_empty st)
            (numeric_run st + reaching seen_lines lines)).
Proof.
  induction lines as [|line lines IH]; intros st Hall.
  - simpl. unfold reaching, llen. simpl.
    rewrite run_marker_zero, app_nil_r, Z.add_0_r. destruct st; reflexivity.
  - apply Forall_cons in Hall as [Hl Hall]. simpl foldM.
    rewrite reaching_cons.
    destruct (skipped seen_lines line) eqn:Hs.
    + rewrite filter_step_skipped by assumption. simpl.
      rewrite IH by assumption. reflexivity.
    + destruct Hl as [Hl | Hg]; [congruence |].
      rewrite filter_step_reaching by assumption. rewrite Hg. simpl.
      rewrite IH by assumption. simpl.
      rewrite <- app_assoc.
      rewrite run_marker_step by apply reaching_nonneg.
      f_equal. f_equal. lia.
Qed.

End ExtractorRun.

(** C10. In the second pass of [clean_extracted_text], a line skipped
    because it repeats 3 times or more or matches the page-number pattern
    leaves the whole state, the run counter included, as it was.  A line
    that is not skipped reaches the numeric test: numeric garbage adds one
    to the counter, anything else resets it to 0.  Hence over numeric-garbage
    lines interrupted only by skipped lines the counter grows as over one
    run: by the number of lines that reach the test. *)
Theorem skipped_lines_keep_run (seen_lines : gmap str Z) :
  (∀ st line,
     skipped seen_lines line = true →
     Extractor.filter_step seen_lines st line = Ret st)
  ∧ (∀ st line,
       skipped seen_lines line = false →
       ∃ garbage st',
         Extractor.is_numeric_garbage (strip line) = Ret garbage
         ∧ Extractor.filter_step seen_lines st line = Ret st'
         ∧ Extractor.numeric_run st' =
           if garbage then Extractor.numeric_run st + 1 else 0)
  ∧ (∀ st lines,
       Forall (λ line, skipped seen_lines line = true
                       ∨ Extractor.is_numeric_garbage (strip line) = Ret true)
              lines →
       ∃ st',
         Extractor.foldM (Extractor.filter_step seen_lines) lines st = Ret st'
         ∧ Extractor.numeric_run st' =
           Extractor.numeric_run st + reaching seen_lines lines).
Proof.
  split; [| split].
  - intros st line. apply ExtractorRun.filter_step_skipped.
  - intros st line Hs.
    destruct (ExtractorTotal.is_numeric_garbage_ret (strip line)) as [g Hg].
    exists g. rewrite (ExtractorRun.filter_step_reaching _ _ _ Hs), Hg. simpl.
    destruct g; [| destruct (negb (truthy _))]; eexists; repeat split.
  - intros st lines Hall. eexists. split.
    + apply ExtractorRun.run_of_garbage, Hall.
    + reflexivity.
Qed.

Lemma skipped_lines_keep_run_witness :
  let seen_lines := fold_left Extractor.count_line header_between_numbers ∅ in
  let st := Extractor.Pass [] false 0 in
  Extractor.filter_step seen_lines st (lit "hdr") = Ret st
  ∧ (∃ garbage st',
       Extractor.is_numeric_garbage (strip (lit "2")) = Ret garbage
       ∧ Extractor.filter_step seen_lines st (lit "2") = Ret st'
       ∧ Extractor.numeric_run st' =
         if garbage then Extractor.numeric_run st + 1 else 0)
  ∧ (∃ st',
       Extractor.foldM (Extractor.filter_step seen_lines)
                       header_between_numbers st = Ret st'
       ∧ Extractor.numeric_run st' =
         Extractor.numeric_run st + reaching seen_lines header_between_numbers).
Proof.
  intros seen_lines st.
  destruct (skipped_lines_keep_run seen_lines) as [H1 [H2 H3]].
  split; [| split].
  - apply H1. vm_compute. reflexivity.
  - apply H2. vm_compute. reflexivity.
  - apply H3.
    repeat (apply Forall_cons; split;
            [first [left; vm_compute; reflexivity
                   | right; vm_compute; reflexivity] |]).
    apply Forall_nil. exact I.
Defined.

(** ** The calibration rule *)

Lemma calibration_needs_pixels (line : str) :
  TextCleaner.is_calibration_data_line line = true →
  TextCleaner.contains_pixel_sequence line = true.
Proof.
  unfold TextCleaner.is_calibration_data_line. intros H.
  apply andb_true_iff in H as [_ H]. exact H.
Qed.

(** C3. The classifier never emits the calibration tag for a calibration
    line.  The calibration test requires the pixel-sequence test, and the
    pixel rule comes first in the chain, so a calibration line that passes
    the earlier rules gets "[pixel data removed]": the line
    "ThGrad Pixel 0 Pixel 1 Pixel 2 Pixel 3 Pixel 4" does.  For every
    calibration line the output is the pixel tag or the output of an
    earlier rule, and the only line for which [clean_line] returns
    "[calibration data removed]" is that very text, passed through. *)
Theorem calibration_rule_shadowed :
  TextCleaner.is_calibration_data_line (strip calibration_line) = true
  ∧ TextCleaner.clean_line calibration_line ∅ = Ret TextCleaner.pixel_data_removed
  ∧ (∀ line repeated_lines out,
       TextCleaner.is_calibration_data_line (strip line) = true →
       TextCleaner.clean_line line repeated_lines = Ret out →
       out = TextCleaner.pixel_data_removed ∨ out = []
       ∨ out = TextCleaner.content_removed ∨ out = TextCleaner.data_removed)
  ∧ (∀ line repeated_lines,
       TextCleaner.clean_line line repeated_lines
         = Ret TextCleaner.calibration_data_removed →
       line = TextCleaner.calibration_data_removed).
Proof.
  split; [vm_compute; reflexivity |].
  split; [vm_compute; reflexivity |].
  split.
  - intros line rep out Hcal. apply calibration_needs_pixels in Hcal.
    unfold TextCleaner.clean_line. rewrite Hcal.
    destruct (negb _); [intros [= <-]; auto |].
    destruct (2000 <? len line); [intros [= <-]; auto |].
    destruct (TextCleaner.is_dropped_repeat _ _) as [[|]|]; simpl;
      [intros [= <-]; auto | | discriminate].
    destruct (TextCleaner.is_page_number_line _); [intros [= <-]; auto |].
    destruct (TextCleaner.is_contact_footer _); [intros [= <-]; auto |].
    destruct (TextCleaner.is_data_dump _) as [[|]|]; simpl;
      [intros [= <-]; auto | | discriminate].
    intros [= <-]; auto.
  - intros line rep. unfold TextCleaner.clean_line.
    destruct (negb _); [discriminate |].
    destruct (2000 <? len line); [discriminate |].
    destruct (TextCleaner.is_dropped_repeat _ _) as [[|]|]; simpl;
      [discriminate | | discriminate].
    destruct (TextCleaner.is_page_number_line _); [discriminate |].
    destruct (TextCleaner.is_contact_footer _); [discriminate |].
    destruct (TextCleaner.is_data_dump _) as [[|]|]; simpl;
      [discriminate | | discriminate].
    destruct (TextCleaner.contains_pixel_sequence _) eqn:Hpix; [discriminate |].
    destruct (TextCleaner.contains_hex_sequence _); [discriminate |].
    destruct (TextCleaner.is_calibration_data_line _) eqn:Hcal.
    { apply calibration_needs_pixels in Hcal. congruence. }
    destruct (TextCleaner.is_spaceless _) as [[|]|]; simpl;
      [discriminate | | discriminate].
    destruct (TextCleaner.is_single_long_word _); [discriminate |].
    destruct (TextCleaner.repetitive _) as [[|]|]; simpl;
      [discriminate | | discriminate].
    intros [= ->]. reflexivity.
Qed.

Lemma calibration_rule_shadowed_witness :
  TextCleaner.pixel_data_removed = TextCleaner.pixel_data_removed
  ∨ TextCleaner.pixel_data_removed = []
  ∨ TextCleaner.pixel_data_removed = TextCleaner.content_removed
  ∨ TextCleaner.pixel_data_removed = TextCleaner.data_removed.
Proof.
  apply (proj1 (proj2 (proj2 calibration_rule_shadowed))
           calibration_line ∅ TextCleaner.pixel_data_removed).
  - vm_compute. reflexivity.
  - vm_compute. reflexivity.
Defined.

(** ** Blank lines in the output of [clean_text] *)

Lemma eqc_true (a b : ascii) : eqc a b = true ↔ a = b.
Proof. unfold eqc. apply Ascii.eqb_eq. Qed.

Lemma eqc_false (a b : ascii) : eqc a b = false ↔ a ≠ b.
Proof. unfold eqc. apply Ascii.eqb_neq. Qed.

Lemma eqc_refl (a : ascii) : eqc a a = true.
Proof. apply eqc_true. reflexivity. Qed.

Lemma nl_ok_triple (a b : str) : ∀ n, nl_ok n (a ++ [nl; nl; nl] ++ b) = false.
Proof.
  induction a as [|c a IH]; intros n.
  - destruct n as [|[|n]]; reflexivity.
  - simpl. destruct (eqc c nl); rewrite IH; [apply andb_false_r | reflexivity].
Qed.

Lemma nl_ok_nl (n : nat) (s : str) :
  nl_ok n (nl :: s) = (n <? 2)%nat && nl_ok (S n) s.
Proof. reflexivity. Qed.

Lemma nl_ok_sound (s : str) : nl_ok 0 s = true → ¬ has_blank_run s.
Proof.
  intros Hok (a & b & ->). rewrite nl_ok_triple in Hok. discriminate.
Qed.

Lemma nl_ok_mono (s : str) : ∀ n, nl_ok (S n) s = true → nl_ok n s = true.
Proof.
  induction s as [|c s IH]; intros n; simpl; [reflexivity |].
  destruct (eqc c nl); [| auto].
  intros H. apply andb_true_iff in H as [Hn H].
  apply andb_true_iff. split; [| apply IH, H].
  apply Nat.ltb_lt in Hn. apply Nat.ltb_lt. lia.
Qed.

Lemma nl_ok_free (l : str) : nl_free l → ∀ n, nl_ok n l = true.
Proof.
  induction 1 as [|c l Hc _ IH]; intros n; simpl; [reflexivity |].
  apply eqc_false in Hc. rewrite Hc. apply IH.
Qed.

Lemma nl_ok_app_free (l s : str) :
  nl_free l → l ≠ [] → ∀ n, nl_ok n (l ++ s) = nl_ok 0 s.
Proof.
  induction 1 as [|c l Hc Hl IH]; intros Hne n; [congruence |].
  simpl. apply eqc_false in Hc. rewrite Hc.
  destruct l as [|c' l]; [reflexivity |].
  apply IH. discriminate.
Qed.

Lemma join_cons (c : ascii) (l l' : str) (ls : list str) :
  join c (l :: l' :: ls) = l ++ c :: join c (l' :: ls).
Proof. reflexivity. Qed.

(** The joined text of well-spaced lines, read after one newline, and
    after two if the first line is not empty. *)
Lemma nl_ok_join (ls : list str) :
  well_spaced ls →
  nl_ok 1 (join nl ls) = true
  ∧ (head ls ≠ Some [] → nl_ok 2 (join nl ls) = true).
Proof.
  induction 1 as [| l Hl | l l' ls Hl Hadj Hws [IH1 IH2]].
  - simpl. auto.
  - simpl. split; intros; apply nl_ok_free, Hl.
  - rewrite join_cons. destruct l as [|c l].
    + change ([] ++ nl :: join nl (l' :: ls)) with (nl :: join nl (l' :: ls)).
      rewrite !nl_ok_nl. split.
      * apply IH2. simpl. intros [= ->]. apply Hadj; reflexivity.
      * simpl. congruence.
    + rewrite !(nl_ok_app_free (c :: l)) by (assumption || discriminate).
      rewrite nl_ok_nl. auto.
Qed.

Lemma nl_ok_join0 (ls : list str) : well_spaced ls → nl_ok 0 (join nl ls) = true.
Proof. intros H. apply nl_ok_mono, (nl_ok_join ls H). Qed.

Lemma well_spaced_free (ls : list str) : well_spaced ls → Forall nl_free ls.
Proof.
  induction 1 as [| l Hl | l l' ls Hl _ _ IH].
  - apply Forall_nil_2.
  - apply Forall_cons_2; [exact Hl | apply Forall_nil_2].
  - apply Forall_cons_2; [exact Hl | exact IH].
Qed.

Lemma well_spaced_snoc (ls : list str) (l : str) :
  well_spaced ls → nl_free l → (l = [] → last ls ≠ Some []) →
  well_spaced (ls ++ [l]).
Proof.
  induction 1 as [| l0 Hl0 | l0 l1 ls Hl0 Hadj Hws IH]; intros Hl Hlast; simpl.
  - constructor. assumption.
  - constructor; [assumption | | constructor; assumption].
    intros -> ->. apply Hlast; reflexivity.
  - constructor; [assumption | assumption |].
    apply IH; [assumption |]. intros E. specialize (Hlast E).
    simpl in Hlast. exact Hlast.
Qed.

Lemma split_on_nonempty (c : ascii) (s : str) : split_on c s ≠ [].
Proof.
  destruct s as [|a s]; simpl; [discriminate |].
  destruct (eqc a c); [discriminate |].
  destruct (split_on c s); discriminate.
Qed.

Lemma split_on_free (s : str) : Forall nl_free (split_on nl s).
Proof.
  induction s as [|a s IH]; simpl.
  - apply Forall_cons_2; [apply Forall_nil_2 | apply Forall_nil_2].
  - destruct (eqc a nl) eqn:Ha.
    + apply Forall_cons_2; [apply Forall_nil_2 | exact IH].
    + apply eqc_false in Ha.
      destruct (split_on nl s) as [|l ls].
      * apply Forall_cons_2; [| apply Forall_nil_2].
        apply Forall_cons_2; [exact Ha | apply Forall_nil_2].
      * apply Forall_cons in IH as [Hl Hls].
        apply Forall_cons_2; [| exact Hls].
        apply Forall_cons_2; [exact Ha | exact Hl].
Qed.

Lemma join_split (c : ascii) (s : str) : join c (split_on c s) = s.
Proof.
  induction s as [|a s IH]; simpl; [reflexivity |].
  destruct (eqc a c) eqn:Ha.
  - apply eqc_true in Ha. subst a.
    pose proof (split_on_nonempty c s) as Hne.
    destruct (split_on c s) as [|l ls]; [congruence |].
    rewrite join_cons, IH. reflexivity.
  - pose proof (split_on_nonempty c s) as Hne.
    destruct (split_on c s) as [|l ls]; [congruence |].
    destruct ls as [|l' ls]; simpl in *; rewrite IH; reflexivity.
Qed.

Lemma strip_nil : strip [] = [].
Proof. reflexivity. Qed.

Lemma collapse_step_inv (st : TextCleaner.collapse_state) (line : str) :
  collapse_inv st → nl_free line →
  collapse_inv (TextCleaner.collapse_step st line).
Proof.
  intros [Hws Hlast] Hline. unfold TextCleaner.collapse_step.
  destruct (startswith (lit "[") line && _) eqn:Hrem.
  - assert (Hne : line ≠ []).
    { intros ->. discriminate Hrem. }
    destruct (TextCleaner.prev_was_removed st) eqn:Hpr; simpl.
    + split; simpl; [exact Hws |].
      intros E. destruct (Hlast E) as [_ ?]. congruence.
    + split; simpl.
      * apply well_spaced_snoc; [exact Hws | exact Hline | congruence].
      * rewrite last_snoc. intros [= ?]. congruence.
  - destruct (negb (truthy (strip line))) eqn:Hemp.
    + destruct (negb (TextCleaner.prev_was_empty st)
                && negb (TextCleaner.prev_was_removed st)) eqn:Hflags.
      * split; simpl; [| auto].
        apply well_spaced_snoc; [exact Hws | apply Forall_nil_2 |].
        intros _ E. destruct (Hlast E) as [Hpe _].
        rewrite Hpe in Hflags. discriminate.
      * split; simpl; auto.
    + assert (Hne : line ≠ []).
      { intros ->. discriminate Hemp. }
      split; simpl.
      * apply well_spaced_snoc; [exact Hws | exact Hline | congruence].
      * rewrite last_snoc. intros [= ?]. congruence.
Qed.

Lemma collapse_fold_inv (lines : list str) : ∀ st,
  collapse_inv st → Forall nl_free lines →
  collapse_inv (fold_left TextCleaner.collapse_step lines st).
Proof.
  induction lines as [|line lines IH]; intros st Hst Hall; simpl; [exact Hst |].
  apply Forall_cons in Hall as [Hl Hall].
  apply IH; [apply collapse_step_inv; assumption | exact Hall].
Qed.

Lemma collapse_well_spaced (text : str) :
  well_spaced
    (TextCleaner.result
       (fold_left TextCleaner.collapse_step (split_on nl text)
                  (TextCleaner.Collapse [] false false))).
Proof.
  apply collapse_fold_inv; [| apply split_on_free].
  split; simpl; [constructor | discriminate].
Qed.

Lemma collapse_nl_ok (text : str) :
  nl_ok 0 (TextCleaner.collapse_removed_lines text) = true.
Proof. apply nl_ok_join0, collapse_well_spaced. Qed.

(** *** Substitution where nothing matches *)

Lemma rep_succ {R} (p : ascii → bool) (n : nat) prev (s : str)
    (k : option ascii → str → option R) (x : R) :
  rep p (S n) prev s k = Some x →
  ∃ c s', s = c :: s' ∧ p c = true ∧ rep p n (Some c) s' k = Some x.
Proof.
  destruct s as [|c s]; simpl; [discriminate |].
  destruct (p c) eqn:Hc; [| discriminate].
  destruct (rep p n (Some c) s k) eqn:Hr; [| discriminate].
  intros [= <-]. eauto.
Qed.

Lemma newlines_match prev (s rest : str) :
  match_at no_flags TextCleaner.newlines_re prev s = Some rest →
  ∃ s', s = [nl; nl; nl] ++ s'.
Proof.
  unfold match_at, TextCleaner.newlines_re. simpl exec. intros H.
  apply rep_succ in H as (c1 & s1 & -> & Hc1 & H).
  apply rep_succ in H as (c2 & s2 & -> & Hc2 & H).
  apply rep_succ in H as (c3 & s3 & -> & Hc3 & H).
  apply eqc_true in Hc1, Hc2, Hc3. subst. eauto.
Qed.

Lemma scan_no_match (fl : flags) (r : regex) (s : str) : ∀ prev,
  (∀ p a t, s = a ++ t → match_at fl r p t = None) →
  scan fl r prev s 0 = map Text s.
Proof.
  induction s as [|c s IH]; intros prev Hno; simpl.
  - rewrite (Hno prev [] []) by reflexivity. reflexivity.
  - rewrite (Hno prev [] (c :: s)) by reflexivity.
    f_equal. apply IH. intros p a t ->. apply (Hno p (c :: a) t). reflexivity.
Qed.

Lemma re_sub_no_match (fl : flags) (r : regex) (repl s : str) :
  (∀ p a t, s = a ++ t → match_at fl r p t = None) →
  re_sub fl r repl s = s.
Proof.
  intros Hno. unfold re_sub. rewrite scan_no_match by exact Hno.
  induction s as [|c s IH]; simpl; [reflexivity |].
  f_equal. apply IH. intros p a t ->. apply (Hno p (c :: a) t). reflexivity.
Qed.

Lemma newlines_sub_id (repl s : str) :
  ¬ has_blank_run s → re_sub no_flags TextCleaner.newlines_re repl s = s.
Proof.
  intros Hfree. apply re_sub_no_match. intros p a t ->.
  destruct (match_at _ _ p t) as [rest|] eqn:Hm; [| reflexivity].
  apply newlines_match in Hm as [s' ->].
  exfalso. apply Hfree. exists a, s'. reflexivity.
Qed.

(** *** Trimming keeps a contiguous part *)

Lemma lstrip_suffix (s : str) : ∃ a, s = a ++ lstrip s.
Proof.
  induction s as [|c s [a IH]]; simpl.
  - exists []. reflexivity.
  - destruct (isspace c).
    + exists (c :: a). simpl. f_equal. exact IH.
    + exists []. reflexivity.
Qed.

Lemma rstrip_prefix (s : str) : ∃ b, s = rstrip s ++ b.
Proof.
  unfold rstrip. destruct (lstrip_suffix (rev s)) as [a Ha].
  exists (rev a). rewrite <- rev_app_distr, <- Ha, rev_involutive. reflexivity.
Qed.

Lemma strip_infix (s : str) : ∃ a b, s = a ++ strip s ++ b.
Proof.
  unfold strip. destruct (lstrip_suffix s) as [a Ha].
  destruct (rstrip_prefix (lstrip s)) as [b Hb].
  exists a, b. rewrite <- Hb. exact Ha.
Qed.

Lemma strip_blank_run (s : str) : ¬ has_blank_run s → ¬ has_blank_run (strip s).
Proof.
  intros Hfree (a & b & Hs). apply Hfree.
  destruct (strip_infix s) as (a' & b' & E).
  exists (a' ++ a), (b ++ b'). rewrite E, Hs.
  rewrite <- !app_assoc. reflexivity.
Qed.

(** C9. The output of [clean_text] never contains three consecutive
    newline characters.  The collapse pass already leaves at most one
    empty line between two lines that are not empty, so the normalisation
    of runs of 4 or more newlines that follows changes nothing, and the
    final trim keeps a contiguous part of the text. *)
Theorem clean_text_no_blank_run :
  (∀ text, ¬ has_blank_run (TextCleaner.collapse_removed_lines text))
  ∧ (∀ text,
       re_sub no_flags TextCleaner.newlines_re [nl; nl; nl]
              (TextCleaner.collapse_removed_lines text)
       = TextCleaner.collapse_removed_lines text)
  ∧ (∀ text, ∃ out,
       TextCleaner.clean_text text = Ret out ∧ ¬ has_blank_run out).
Proof.
  assert (H1 : ∀ text, ¬ has_blank_run (TextCleaner.collapse_removed_lines text)).
  { intros text. apply nl_ok_sound, collapse_nl_ok. }
  split; [exact H1 |]. split.
  - intros text. apply newlines_sub_id, H1.
  - intros text. unfold TextCleaner.clean_text.
    destruct (TextCleanerTotal.mapM_ret
      (fun line => TextCleaner.clean_line line
         (TextCleaner.find_repeated_lines
            (split_on nl (TextCleaner.unwrap_fence (strip text)))))
      (split_on nl (TextCleaner.unwrap_fence (strip text)))) as [bs ->].
    { intros a. apply TextCleanerTotal.clean_line_ret. }
    simpl. eexists. split; [reflexivity |].
    rewrite newlines_sub_id by apply H1.
    apply strip_blank_run, H1.
Qed.

(** ** Trimming twice *)

Lemma lstrip_fixed (c : ascii) (s : str) :
  isspace c = false → lstrip (c :: s) = c :: s.
Proof. intros H. simpl. rewrite H. reflexivity. Qed.

Lemma lstrip_head (s : str) :
  lstrip s = [] ∨ ∃ c s', lstrip s = c :: s' ∧ isspace c = false.
Proof.
  induction s as [|c s IH]; simpl; [auto |].
  destruct (isspace c) eqn:Hc; [exact IH | right; eauto].
Qed.

Lemma lstrip_idem (s : str) : lstrip (lstrip s) = lstrip s.
Proof.
  destruct (lstrip_head s) as [-> | (c & s' & -> & Hc)]; [reflexivity |].
  apply lstrip_fixed, Hc.
Qed.

Lemma lstrip_nil_space (s : str) : lstrip s = [] → Forall (λ c, isspace c = true) s.
Proof.
  induction s as [|c s IH]; simpl; [intros _; apply Forall_nil_2 |].
  destruct (isspace c) eqn:Hc; [| discriminate].
  intros H. apply Forall_cons_2; auto.
Qed.

Lemma rstrip_idem (s : str) : rstrip (rstrip s) = rstrip s.
Proof. unfold rstrip. rewrite rev_involutive, lstrip_idem. reflexivity. Qed.

Lemma rstrip_keeps_head (c : ascii) (s : str) :
  isspace c = false → ∃ r, rstrip (c :: s) = c :: r.
Proof.
  intros Hc. destruct (rstrip_prefix (c :: s)) as [b Hb].
  destruct (rstrip (c :: s)) as [|c' r] eqn:Hr.
  - exfalso. unfold rstrip in Hr.
    apply (f_equal (@rev ascii)) in Hr. rewrite rev_involutive in Hr.
    simpl in Hr. apply lstrip_nil_space in Hr.
    apply Forall_app in Hr as [_ Hr]. apply Forall_cons in Hr as [Hr _].
    congruence.
  - simpl in Hb. injection Hb as -> _. eauto.
Qed.

Lemma strip_idem (s : str) : strip (strip s) = strip s.
Proof.
  unfold strip.
  destruct (lstrip_head s) as [-> | (c & s' & -> & Hc)]; [reflexivity |].
  destruct (rstrip_keeps_head c s' Hc) as [r Hr].
  rewrite Hr, (lstrip_fixed c r Hc), <- Hr. apply rstrip_idem.
Qed.

Lemma rstrip_last (s : str) (c : ascii) :
  last (rstrip s) = Some c → isspace c = false.
Proof.
  unfold rstrip.
  destruct (lstrip_head (rev s)) as [-> | (c' & s' & -> & Hc')]; [discriminate |].
  simpl rev. rewrite last_snoc. intros [= <-]. exact Hc'.
Qed.

Lemma strip_last_not_nl (s : str) : last (strip s) ≠ Some nl.
Proof. intros H. apply rstrip_last in H. discriminate H. Qed.

(** ** Collapsing *)

Lemma split_on_free_id (l : str) : nl_free l → split_on nl l = [l].
Proof.
  induction 1 as [|c l Hc _ IH]; simpl; [reflexivity |].
  apply eqc_false in Hc. rewrite Hc, IH. reflexivity.
Qed.

Lemma split_on_app_free (l s : str) :
  nl_free l → split_on nl (l ++ nl :: s) = l :: split_on nl s.
Proof.
  induction 1 as [|c l Hc _ IH]; simpl.
  - reflexivity.
  - apply eqc_false in Hc. rewrite Hc, IH. reflexivity.
Qed.

Lemma collapse_step_content st (l : str) :
  content_line l →
  TextCleaner.collapse_step st l
  = TextCleaner.Collapse (TextCleaner.result st ++ [l]) false false.
Proof.
  intros (_ & Ht & Hm). unfold TextCleaner.collapse_step.
  unfold is_removed_marker in Hm. rewrite Hm, Ht. reflexivity.
Qed.

Lemma collapse_step_empty st :
  TextCleaner.collapse_step st []
  = if negb (TextCleaner.prev_was_empty st)
       && negb (TextCleaner.prev_was_removed st)
    then TextCleaner.Collapse (TextCleaner.result st ++ [[]]) false true
    else TextCleaner.Collapse (TextCleaner.result st) false true.
Proof. reflexivity. Qed.

Lemma collapse_step_marker st (t : str) :
  is_removed_marker t = true →
  TextCleaner.collapse_step st t
  = if negb (TextCleaner.prev_was_removed st)
    then TextCleaner.Collapse (TextCleaner.result st ++ [t]) true false
    else TextCleaner.Collapse (TextCleaner.result st)
                              (TextCleaner.prev_was_removed st) false.
Proof.
  intros Hm. unfold TextCleaner.collapse_step.
  unfold is_removed_marker in Hm. rewrite Hm. reflexivity.
Qed.

Lemma collapse_four_blank (a b : str) :
  content_line a → content_line b →
  TextCleaner.collapse_removed_lines (a ++ [nl; nl; nl; nl; nl] ++ b)
  = a ++ [nl; nl] ++ b.
Proof.
  intros Ha Hb. unfold TextCleaner.collapse_removed_lines.
  assert (Hs : split_on nl (a ++ [nl; nl; nl; nl; nl] ++ b)
               = [a; []; []; []; []; b]).
  { simpl app. rewrite split_on_app_free by apply Ha.
    change (nl :: nl :: nl :: nl :: b)
      with ([] ++ nl :: [] ++ nl :: [] ++ nl :: [] ++ nl :: b).
    rewrite !split_on_app_free by apply Forall_nil_2.
    rewrite split_on_free_id by apply Hb. reflexivity. }
  rewrite Hs. simpl fold_left.
  rewrite (collapse_step_content _ a Ha).
  rewrite !collapse_step_empty. simpl.
  rewrite (collapse_step_content _ b Hb). simpl.
  reflexivity.
Qed.

Lemma collapse_three_markers (t : str) :
  nl_free t → is_removed_marker t = true →
  TextCleaner.collapse_removed_lines (t ++ [nl] ++ t ++ [nl] ++ t) = t.
Proof.
  intros Hfree Hm. unfold TextCleaner.collapse_removed_lines.
  assert (Hs : split_on nl (t ++ [nl] ++ t ++ [nl] ++ t) = [t; t; t]).
  { simpl app. rewrite !split_on_app_free by exact Hfree.
    rewrite split_on_free_id by exact Hfree. reflexivity. }
  rewrite Hs. simpl fold_left.
  rewrite !(collapse_step_marker _ t Hm). simpl.
  reflexivity.
Qed.

Lemma rstrip_fixed (s : str) (c : ascii) :
  last s = Some c → isspace c = false → rstrip s = s.
Proof.
  intros Hl Hc. apply last_Some in Hl as [s' ->].
  unfold rstrip. rewrite rev_app_distr.
  change (rev [c] ++ rev s') with (c :: rev s').
  rewrite (lstrip_fixed c (rev s') Hc).
  change (rev (c :: rev s')) with (rev (rev s') ++ [c]).
  rewrite rev_involutive. reflexivity.
Qed.

Lemma stripped_head (a : str) :
  strip a = a → a ≠ [] → ∃ c r, a = c :: r ∧ isspace c = false.
Proof.
  intros Hs Hne. unfold strip in Hs.
  destruct (lstrip_head a) as [E | (c & s' & E & Hc)].
  - rewrite E in Hs. exfalso. apply Hne. rewrite <- Hs. reflexivity.
  - rewrite E in Hs. destruct (rstrip_keeps_head c s' Hc) as [r Hr].
    rewrite Hr in Hs. eauto.
Qed.

Lemma stripped_last (b : str) :
  strip b = b → b ≠ [] → ∃ c, last b = Some c ∧ isspace c = false.
Proof.
  intros Hs Hne. destruct (last b) as [c|] eqn:Hl.
  - exists c. split; [reflexivity |].
    apply (rstrip_last (lstrip b)). fold (strip b). rewrite Hs. exact Hl.
  - apply last_None in Hl. contradiction.
Qed.

(** Text between two trimmed lines is out of reach of [strip]. *)
Lemma strip_between (a x b : str) :
  strip a = a → a ≠ [] → strip b = b → b ≠ [] →
  strip (a ++ x ++ b) = a ++ x ++ b.
Proof.
  intros Ha Hane Hb Hbne.
  destruct (stripped_head a Ha Hane) as (c & r & -> & Hc).
  destruct (stripped_last b Hb Hbne) as (c' & Hl & Hc').
  unfold strip. simpl app. rewrite (lstrip_fixed c _ Hc).
  apply (rstrip_fixed _ c'); [| exact Hc'].
  change (c :: r ++ x ++ b) with ((c :: r) ++ x ++ b).
  rewrite !last_app, Hl. reflexivity.
Qed.

Lemma content_line_nonempty (l : str) : content_line l → l ≠ [].
Proof. intros (_ & Ht & _) ->. discriminate Ht. Qed.

Lemma clean_line_nil (repeated_lines : gset str) :
  TextCleaner.clean_line [] repeated_lines = Ret [].
Proof. reflexivity. Qed.

Lemma content_removed_free : nl_free TextCleaner.content_removed.
Proof.
  unfold nl_free. apply Forall_forall. intros c Hc.
  apply list_elem_of_In in Hc. vm_compute in Hc.
  intros ->. repeat (destruct Hc as [Hc | Hc]; [discriminate Hc |]). exact Hc.
Qed.


(** ** Ratios against literals

    For divisors below [2 ^ 50] the comparison of the rounded quotient
    with the double of a literal agrees with the comparison of the exact
    quotient with the decimal fraction. *)


Lemma div_gt_0_7 (a b : Z) :
  0 < b < 2 ^ 50 → div_gt (Quot a b) d0_7 = (7 * b <? 10 * a).
Proof.
  intros Hb. unfold div_gt, d0_7. cbn [mant expo qnum qden].
  change (Z.even 6305039478318694) with true. cbv iota.
  change (2 ^ (53 + 1)) with 18014398509481984.
  change (2 ^ 50) with 1125899906842624 in Hb.
  destruct (Z.ltb_spec ((2 * 6305039478318694 + 1) * b) (a * 18014398509481984));
    destruct (Z.ltb_spec (7 * b) (10 * a)); try reflexivity; lia.
Qed.

Lemma div_gt_0_8 (a b : Z) :
  0 < b < 2 ^ 50 → div_gt (Quot a b) d0_8 = (4 * b <? 5 * a).
Proof.
  intros Hb. unfold div_gt, d0_8. cbn [mant expo qnum qden].
  change (Z.even 7205759403792794) with true. cbv iota.
  change (2 ^ (53 + 1)) with 18014398509481984.
  change (2 ^ 50) with 1125899906842624 in Hb.
  destruct (Z.ltb_spec ((2 * 7205759403792794 + 1) * b) (a * 18014398509481984));
    destruct (Z.ltb_spec (4 * b) (5 * a)); try reflexivity; lia.
Qed.

(** ** The heading exemption *)





(** ** A second pass of [clean_text] *)

Lemma mapM_id {A} (f : A → py A) (l : list A) :
  Forall (λ a, f a = Ret a) l → mapM f l = Ret l.
Proof.
  induction 1 as [|a l Ha _ IH]; simpl; [reflexivity |].
  rewrite Ha. simpl. rewrite IH. reflexivity.
Qed.

Lemma clean_text_stripped (x y : str) :
  TextCleaner.clean_text x = Ret y → strip y = y.
Proof.
  unfold TextCleaner.clean_text.
  destruct (mapM _ _) as [bs|]; simpl; [| discriminate].
  intros [= <-]. apply strip_idem.
Qed.

(** ** Page-break markers *)

Lemma rep_run {R} (p : ascii → bool) (run rest : str)
    (k : option ascii → str → option R) (x : R) : ∀ n prev,
  Forall (λ c, p c = true) run → (n ≤ length run)%nat → stops p rest →
  (∀ prev', k prev' rest = Some x) →
  rep p n prev (run ++ rest) k = Some x.
Proof.
  induction run as [|c run IH]; intros n prev Hrun Hn Hstop Hk.
  - simpl in Hn. assert (n = 0%nat) as -> by lia.
    simpl app. destruct rest as [|c rest]; simpl; [apply Hk |].
    simpl in Hstop. rewrite Hstop. apply Hk.
  - apply Forall_cons in Hrun as [Hc Hrun]. simpl.
    rewrite Hc. rewrite IH; [reflexivity | exact Hrun | | exact Hstop | exact Hk].
    simpl in Hn. lia.
Qed.

Lemma exec_seq_rep_run {R} (fl : flags) (p : ascii → bool) (n : nat) (r : regex)
    prev (run rest : str) (k : option ascii → str → option R) (x : R) :
  Forall (λ c, p c = true) run → (n ≤ length run)%nat → stops p rest →
  (∀ prev', exec fl r prev' rest k = Some x) →
  exec fl (Seq (Rep p n) r) prev (run ++ rest) k = Some x.
Proof.
  intros Hrun Hn Hstop Hk. cbn [exec].
  apply rep_run; assumption.
Qed.

Lemma dashes_all (n : nat) : Forall (λ c, eqc "-" c = true) (dashes n).
Proof.
  unfold dashes. induction n as [|n IH]; simpl.
  - apply Forall_nil_2.
  - apply Forall_cons_2; [reflexivity | exact IH].
Qed.

Lemma dashes_length (n : nat) : length (dashes n) = n.
Proof. unfold dashes. apply repeat_length. Qed.

Lemma space_not_dash (c : ascii) : isspace c = true → eqc "-" c = false.
Proof.
  destruct c as [[] [] [] [] [] [] [] []]; vm_compute; congruence.
Qed.

Lemma stops_after_spaces (p : ascii → bool) (w s : str) :
  spaces_only w → (∀ c, isspace c = true → p c = false) → stops p s →
  stops p (w ++ s).
Proof.
  intros Hw Hp Hs. destruct Hw as [|c w Hc _]; [exact Hs |].
  simpl. apply Hp, Hc.
Qed.

Lemma stops_dashes (n : nat) (s : str) :
  (1 ≤ n)%nat → stops isspace (dashes n ++ s).
Proof. destruct n; [lia | reflexivity]. Qed.

Lemma exec_word_page {R} (r : regex) prev (s : str)
    (k : option ascii → str → option R) :
  exec MULTILINE (Seq (Str "Page") r) prev (lit "Page" ++ s) k
  = exec MULTILINE r (Some "e"%char) s k.
Proof. reflexivity. Qed.

Lemma exec_word_break {R} (r : regex) prev (s : str)
    (k : option ascii → str → option R) :
  exec MULTILINE (Seq (Str "Break") r) prev (lit "Break" ++ s) k
  = exec MULTILINE r (Some "k"%char) s k.
Proof. reflexivity. Qed.

(** Trailing whitespace up to the end of the line. *)
Lemma trailing_spaces_eol (w5 post : str) : ∀ prev,
  spaces_only w5 → line_end post →
  exec MULTILINE (Seq (Rep isspace 0) Eol) prev (w5 ++ post) rest_of = Some post.
Proof.
  intros prev Hw [-> | (c & rest & -> & Hc)].
  - apply exec_seq_rep_run; [exact Hw | lia | exact I | reflexivity].
  - cbn [exec]. revert prev.
    induction Hw as [|c' w5 Hc' _ IH]; intros prev.
    + simpl app. simpl rep. rewrite Hc. cbn [at_eol].
      destruct (eqc c nl) eqn:E.
      * apply eqc_true in E. subst c. discriminate Hc.
      * reflexivity.
    + simpl. rewrite Hc'. rewrite IH. reflexivity.
Qed.

Lemma marker_tail_match (d m : nat) (w2 w3 w4 w5 post : str) prev :
  (d ≤ m)%nat → (1 ≤ m)%nat →
  spaces_only w2 → spaces_only w3 → spaces_only w4 → spaces_only w5 →
  line_end post →
  exec MULTILINE (marker_tail d) prev (marker_body w2 w3 w4 m w5 ++ post) rest_of
  = Some post.
Proof.
  intros Hd Hm H2 H3 H4 H5 Hpost.
  unfold marker_tail, marker_body. cbn [cat]. rewrite <- !app_assoc.
  apply exec_seq_rep_run; [exact H2 | lia | reflexivity |]. intros p2.
  rewrite exec_word_page.
  apply exec_seq_rep_run; [exact H3 | lia | reflexivity |]. intros p3.
  rewrite exec_word_break.
  apply exec_seq_rep_run; [exact H4 | lia | apply stops_dashes, Hm |]. intros p4.
  apply exec_seq_rep_run;
    [apply dashes_all | rewrite dashes_length; exact Hd | |].
  - destruct Hpost as [-> | (c & rest & -> & Hc)].
    + rewrite app_nil_r.
      destruct H5 as [|c w5 Hc _]; [exact I | apply space_not_dash, Hc].
    + apply stops_after_spaces; [exact H5 | apply space_not_dash | reflexivity].
  - intros p5. apply trailing_spaces_eol; assumption.
Qed.

Lemma dashed_match (d n m : nat) (w2 w3 w4 w5 post : str) prev :
  (d ≤ n)%nat → (d ≤ m)%nat → (1 ≤ m)%nat →
  spaces_only w2 → spaces_only w3 → spaces_only w4 → spaces_only w5 →
  line_end post →
  exec MULTILINE (Seq (Rep (eqc "-") d) (marker_tail d)) prev
       (dashes n ++ marker_body w2 w3 w4 m w5 ++ post) rest_of
  = Some post.
Proof.
  intros Hn Hd Hm H2 H3 H4 H5 Hpost.
  apply exec_seq_rep_run; [apply dashes_all | rewrite dashes_length; exact Hn | |].
  - unfold marker_body. rewrite <- !app_assoc.
    apply stops_after_spaces; [exact H2 | apply space_not_dash | reflexivity].
  - intros p. apply marker_tail_match; assumption.
Qed.

Lemma space_not_hash (c : ascii) : isspace c = true → chr_eq MULTILINE "#" c = false.
Proof.
  destruct c as [[] [] [] [] [] [] [] []]; vm_compute; congruence.
Qed.

Lemma heading_marker_match (hashes w1 : str) (n m : nat)
    (w2 w3 w4 w5 post : str) prev :
  at_bol MULTILINE prev = true →
  hashes = lit "#" ∨ hashes = lit "##" →
  (2 ≤ n)%nat → (2 ≤ m)%nat →
  spaces_only w1 → spaces_only w2 → spaces_only w3 → spaces_only w4 →
  spaces_only w5 → line_end post →
  match_at MULTILINE TextCleaner.page_break_heading_re prev
    (heading_marker hashes w1 n (marker_body w2 w3 w4 m w5) ++ post)
  = Some post.
Proof.
  intros Hbol Hhash Hn Hm H1 H2 H3 H4 H5 Hpost.
  unfold match_at. fold rest_of.
  change TextCleaner.page_break_heading_re
    with (Seq Bol (Seq (Chr "#") (Seq (Opt (Chr "#"))
            (Seq (Rep isspace 0) (Seq (Rep (eqc "-") 2) (marker_tail 2)))))).
  assert (Hrest : ∀ p,
    exec MULTILINE (Seq (Rep isspace 0) (Seq (Rep (eqc "-") 2) (marker_tail 2)))
         p (w1 ++ dashes n ++ marker_body w2 w3 w4 m w5 ++ post) rest_of
    = Some post).
  { intros p.
    apply exec_seq_rep_run; [exact H1 | lia | apply stops_dashes; lia |].
    intros p'. apply dashed_match; (assumption || lia). }
  unfold heading_marker. rewrite <- !app_assoc. unfold Opt.
  destruct Hhash as [-> | ->].
  - change (lit "#" ++ w1 ++ dashes n ++ marker_body w2 w3 w4 m w5 ++ post)
      with ("#"%char :: w1 ++ dashes n ++ marker_body w2 w3 w4 m w5 ++ post).
    assert (Hhead : match w1 ++ dashes n ++ marker_body w2 w3 w4 m w5 ++ post with
                    | a :: _ => chr_eq MULTILINE "#" a = false
                    | [] => True
                    end).
    { destruct H1 as [|c w1 Hc _]; [| apply space_not_hash, Hc].
      destruct n; [lia | reflexivity]. }
    specialize (Hrest (Some "#"%char)). cbn [exec] in Hrest.
    cbn [exec]. rewrite Hbol.
    change (chr_eq MULTILINE "#" "#") with true. cbv iota.
    destruct (w1 ++ dashes n ++ marker_body w2 w3 w4 m w5 ++ post) as [|a s'].
    + exact Hrest.
    + rewrite Hhead. exact Hrest.
  - change (lit "##" ++ w1 ++ dashes n ++ marker_body w2 w3 w4 m w5 ++ post)
      with ("#"%char :: "#"%char
            :: w1 ++ dashes n ++ marker_body w2 w3 w4 m w5 ++ post).
    specialize (Hrest (Some "#"%char)). cbn [exec] in Hrest.
    cbn [exec]. rewrite Hbol.
    change (chr_eq MULTILINE "#" "#") with true. cbv iota.
    rewrite Hrest. reflexivity.
Qed.

Lemma simple_marker_match (n m : nat) (w2 w3 w4 w5 post : str) prev :
  at_bol MULTILINE prev = true →
  (3 ≤ n)%nat → (3 ≤ m)%nat →
  spaces_only w2 → spaces_only w3 → spaces_only w4 → spaces_only w5 →
  line_end post →
  match_at MULTILINE TextCleaner.page_break_simple_re prev
    (simple_marker n (marker_body w2 w3 w4 m w5) ++ post)
  = Some post.
Proof.
  intros Hbol Hn Hm H2 H3 H4 H5 Hpost.
  unfold match_at. fold rest_of.
  change TextCleaner.page_break_simple_re
    with (Seq Bol (Seq (Rep (eqc "-") 3) (marker_tail 3))).
  unfold simple_marker. rewrite <- !app_assoc.
  change (exec MULTILINE (Seq Bol (Seq (Rep (eqc "-") 3) (marker_tail 3))) prev
            (dashes n ++ marker_body w2 w3 w4 m w5 ++ post) rest_of)
    with (if at_bol MULTILINE prev
          then exec MULTILINE (Seq (Rep (eqc "-") 3) (marker_tail 3)) prev
                 (dashes n ++ marker_body w2 w3 w4 m w5 ++ post) rest_of
          else None).
  rewrite Hbol. apply dashed_match; (assumption || lia).
Qed.

(** *** Substitution at a match *)

Lemma last_of_cons prev (c : ascii) (s : str) :
  last_of prev (c :: s) = last_of (Some c) s.
Proof.
  unfold last_of. destruct s as [|c' s]; [reflexivity |].
  rewrite last_cons_cons. destruct (last (c' :: s)) eqn:E; [reflexivity |].
  apply last_None in E. discriminate.
Qed.

Lemma scan_skip (fl : flags) (r : regex) (s rest : str) : ∀ prev,
  scan fl r prev (s ++ rest) (length s) = scan fl r (last_of prev s) rest 0.
Proof.
  induction s as [|c s IH]; intros prev.
  - reflexivity.
  - rewrite last_of_cons. simpl. apply IH.
Qed.

Lemma scan_match (fl : flags) (r : regex) prev (c : ascii) (m rest : str) :
  match_at fl r prev ((c :: m) ++ rest) = Some rest →
  scan fl r prev ((c :: m) ++ rest) 0
  = Match (c :: m) :: scan fl r (last_of prev (c :: m)) rest 0.
Proof.
  intros Hm. simpl app in *. cbn [scan]. rewrite Hm.
  assert (E : firstn (length (c :: m ++ rest) - length rest) (c :: m ++ rest)
              = c :: m).
  { replace (length (c :: m ++ rest) - length rest)%nat with (length (c :: m)).
    - apply (take_app_length (c :: m) rest).
    - simpl. rewrite length_app. lia. }
  rewrite E. f_equal. rewrite last_of_cons. apply scan_skip.
Qed.

Lemma heading_re_needs_hash prev (t : str) :
  match t with [] => True | c :: _ => chr_eq MULTILINE "#" c = false end →
  match_at MULTILINE TextCleaner.page_break_heading_re prev t = None.
Proof.
  intros Ht. unfold match_at.
  change TextCleaner.page_break_heading_re
    with (Seq Bol (Seq (Chr "#") (Seq (Opt (Chr "#"))
            (Seq (Rep isspace 0) (Seq (Rep (eqc "-") 2) (marker_tail 2)))))).
  cbn [exec]. destruct (at_bol MULTILINE prev); [| reflexivity].
  destruct t as [|c t]; [reflexivity |]. rewrite Ht. reflexivity.
Qed.

Lemma simple_re_needs_dash prev (t : str) :
  match t with [] => True | c :: _ => eqc "-" c = false end →
  match_at MULTILINE TextCleaner.page_break_simple_re prev t = None.
Proof.
  intros Ht. unfold match_at.
  change TextCleaner.page_break_simple_re
    with (Seq Bol (Seq (Rep (eqc "-") 3) (marker_tail 3))).
  cbn [exec]. destruct (at_bol MULTILINE prev); [| reflexivity].
  destruct t as [|c t]; [reflexivity |]. cbn [rep]. rewrite Ht. reflexivity.
Qed.

Lemma re_sub_whole (fl : flags) (r : regex) (c : ascii) (m : str) :
  match_at fl r None (c :: m) = Some [] →
  (∀ p, match_at fl r p [] = None) →
  re_sub fl r [] (c :: m) = [].
Proof.
  intros Hm Hend. unfold re_sub.
  rewrite <- (app_nil_r (c :: m)) in Hm |- *.
  rewrite (scan_match fl r None c m [] Hm).
  cbn [scan]. rewrite Hend. reflexivity.
Qed.

Lemma no_hash_sub_id (repl s : str) :
  Forall (λ c, chr_eq MULTILINE "#" c = false) s →
  re_sub MULTILINE TextCleaner.page_break_heading_re repl s = s.
Proof.
  intros Hs. apply re_sub_no_match. intros p a t ->.
  apply heading_re_needs_hash.
  apply Forall_app in Hs as [_ Ht].
  destruct Ht as [|c t Hc _]; [exact I | exact Hc].
Qed.

Lemma spaces_no_hash (w : str) :
  spaces_only w → Forall (λ c, chr_eq MULTILINE "#" c = false) w.
Proof.
  intros Hw. eapply Forall_impl; [exact Hw |].
  intros c Hc. apply space_not_hash, Hc.
Qed.

Lemma dashes_no_hash (n : nat) :
  Forall (λ c, chr_eq MULTILINE "#" c = false) (dashes n).
Proof.
  unfold dashes. induction n as [|n IH]; simpl.
  - apply Forall_nil_2.
  - apply Forall_cons_2; [reflexivity | exact IH].
Qed.

Lemma word_no_hash (w : string) :
  forallb (fun c => negb (chr_eq MULTILINE "#" c)) (lit w) = true →
  Forall (λ c, chr_eq MULTILINE "#" c = false) (lit w).
Proof.
  intros H. apply Forall_forall. intros c Hc.
  apply list_elem_of_In in Hc.
  rewrite forallb_forall in H. specialize (H c Hc).
  apply negb_true_iff in H. exact H.
Qed.

Lemma heading_marker_removed (hashes w1 : str) (n m : nat) (w2 w3 w4 w5 : str) :
  hashes = lit "#" ∨ hashes = lit "##" →
  (2 ≤ n)%nat → (2 ≤ m)%nat →
  spaces_only w1 → spaces_only w2 → spaces_only w3 → spaces_only w4 →
  spaces_only w5 →
  TextCleaner.remove_page_breaks
    (heading_marker hashes w1 n (marker_body w2 w3 w4 m w5)) = [].
Proof.
  intros Hhash Hn Hm H1 H2 H3 H4 H5.
  pose proof (heading_marker_match hashes w1 n m w2 w3 w4 w5 [] None
                eq_refl Hhash Hn Hm H1 H2 H3 H4 H5 (or_introl eq_refl)) as Hmatch.
  rewrite app_nil_r in Hmatch.
  unfold TextCleaner.remove_page_breaks.
  assert (E : re_sub MULTILINE TextCleaner.page_break_heading_re []
                (heading_marker hashes w1 n (marker_body w2 w3 w4 m w5)) = []).
  { destruct (heading_marker hashes w1 n (marker_body w2 w3 w4 m w5))
      as [|c s] eqn:Es.
    - destruct Hhash as [-> | ->]; discriminate Es.
    - apply re_sub_whole; [exact Hmatch |].
      intros p. apply heading_re_needs_hash. exact I. }
  rewrite E. reflexivity.
Qed.

Lemma simple_marker_removed (n m : nat) (w2 w3 w4 w5 : str) :
  (3 ≤ n)%nat → (3 ≤ m)%nat →
  spaces_only w2 → spaces_only w3 → spaces_only w4 → spaces_only w5 →
  TextCleaner.remove_page_breaks
    (simple_marker n (marker_body w2 w3 w4 m w5)) = [].
Proof.
  intros Hn Hm H2 H3 H4 H5.
  pose proof (simple_marker_match n m w2 w3 w4 w5 [] None
                eq_refl Hn Hm H2 H3 H4 H5 (or_introl eq_refl)) as Hmatch.
  rewrite app_nil_r in Hmatch.
  unfold TextCleaner.remove_page_breaks.
  rewrite no_hash_sub_id.
  - destruct (simple_marker n (marker_body w2 w3 w4 m w5)) as [|c s] eqn:Es.
    + reflexivity.
    + apply re_sub_whole; [exact Hmatch |].
      intros p. apply simple_re_needs_dash. exact I.
  - unfold simple_marker, marker_body.
    repeat (apply Forall_app_2);
      first [ apply dashes_no_hash
            | apply spaces_no_hash; assumption
            | apply word_no_hash; reflexivity ].
Qed.

(** *** Markers between other lines *)

Lemma scan_step (fl : flags) (r : regex) prev (c : ascii) (s : str) :
  match_at fl r prev (c :: s) = None →
  scan fl r prev (c :: s) 0 = Text c :: scan fl r (Some c) s 0.
Proof. intros H. cbn [scan]. rewrite H. reflexivity. Qed.

Lemma scan_inert (fl : flags) (r : regex) (x s : str) : ∀ prev,
  inert fl r prev x →
  scan fl r prev (x ++ s) 0 = map Text x ++ scan fl r (last_of prev x) s 0.
Proof.
  induction x as [|c x IH]; intros prev Hx.
  - reflexivity.
  - simpl app. rewrite scan_step by apply (Hx [] c x s eq_refl).
    rewrite (last_of_cons prev c x). simpl map. simpl app. f_equal.
    apply IH. intros a c' t s' ->.
    rewrite <- (last_of_cons prev c a). apply (Hx (c :: a) c' t s'). reflexivity.
Qed.

Lemma scan_restart (fl : flags) (r : regex) (s : str) :
  (∀ p, match_at fl r p s = None) →
  ∀ p, scan fl r p s 0 = scan fl r None s 0.
Proof.
  intros Hs p. destruct s as [|c s]; cbn [scan]; rewrite !Hs; reflexivity.
Qed.

Lemma flat_text (repl x : str) :
  flat_map (fun g => match g with Match _ => repl | Text c => [c] end)
           (map Text x) = x.
Proof. induction x as [|c x IH]; simpl; [reflexivity | rewrite IH; reflexivity]. Qed.

Lemma re_sub_inert (fl : flags) (r : regex) (repl x s : str) :
  inert fl r None x →
  (∀ p, match_at fl r p s = None) →
  re_sub fl r repl (x ++ s) = x ++ re_sub fl r repl s.
Proof.
  intros Hx Hs. unfold re_sub.
  rewrite scan_inert by exact Hx.
  rewrite flat_map_app, flat_text, (scan_restart fl r s Hs). reflexivity.
Qed.

Lemma re_sub_inert_match (fl : flags) (r : regex) (x : str) (c : ascii)
    (m s : str) :
  inert fl r None x →
  match_at fl r (last_of None x) ((c :: m) ++ s) = Some s →
  (∀ p, match_at fl r p s = None) →
  re_sub fl r [] (x ++ (c :: m) ++ s) = x ++ re_sub fl r [] s.
Proof.
  intros Hx Hm Hs. unfold re_sub.
  rewrite scan_inert by exact Hx.
  rewrite (scan_match fl r _ c m s Hm).
  rewrite flat_map_app, flat_text. cbn [flat_map app].
  rewrite (scan_restart fl r s Hs). reflexivity.
Qed.

Lemma heading_re_needs_bol prev (t : str) :
  at_bol MULTILINE prev = false →
  match_at MULTILINE TextCleaner.page_break_heading_re prev t = None.
Proof.
  intros Hb. unfold match_at.
  change TextCleaner.page_break_heading_re
    with (Seq Bol (Seq (Chr "#") (Seq (Opt (Chr "#"))
            (Seq (Rep isspace 0) (Seq (Rep (eqc "-") 2) (marker_tail 2)))))).
  cbn [exec]. rewrite Hb. reflexivity.
Qed.

Lemma simple_re_needs_bol prev (t : str) :
  at_bol MULTILINE prev = false →
  match_at MULTILINE TextCleaner.page_break_simple_re prev t = None.
Proof.
  intros Hb. unfold match_at.
  change TextCleaner.page_break_simple_re
    with (Seq Bol (Seq (Rep (eqc "-") 3) (marker_tail 3))).
  cbn [exec]. rewrite Hb. reflexivity.
Qed.

(** In a quiet text every position is off a line start or on a character
    that is neither "#" nor "-". *)
Lemma quiet_position (x : str) : ∀ prev a c t,
  quiet prev x = true → x = a ++ c :: t →
  at_bol MULTILINE (last_of prev a) = false
  ∨ (eqc "#" c = false ∧ eqc "-" c = false).
Proof.
  induction x as [|c0 x IH]; intros prev a c t Hq E.
  - destruct a; discriminate E.
  - cbn [quiet] in Hq. apply andb_true_iff in Hq as [Hhere Hq].
    destruct a as [|c1 a].
    + injection E as <- <-. unfold last_of. cbn [last].
      apply negb_true_iff, andb_false_iff in Hhere as [Hb | Hc]; [left; exact Hb |].
      right. apply orb_false_iff in Hc. exact Hc.
    + injection E as <- ->. rewrite last_of_cons.
      apply (IH (Some c0) a c t Hq eq_refl).
Qed.

Lemma quiet_inert_heading prev (x : str) :
  quiet prev x = true → inert MULTILINE TextCleaner.page_break_heading_re prev x.
Proof.
  intros Hq a c t s E.
  destruct (quiet_position x prev a c t Hq E) as [Hb | [Hc _]].
  - apply heading_re_needs_bol, Hb.
  - apply heading_re_needs_hash. exact Hc.
Qed.

Lemma quiet_inert_simple prev (x : str) :
  quiet prev x = true → inert MULTILINE TextCleaner.page_break_simple_re prev x.
Proof.
  intros Hq a c t s E.
  destruct (quiet_position x prev a c t Hq E) as [Hb | [_ Hc]].
  - apply simple_re_needs_bol, Hb.
  - apply simple_re_needs_dash. exact Hc.
Qed.

Lemma no_hash_inert prev (x : str) :
  Forall (λ c, chr_eq MULTILINE "#" c = false) x →
  inert MULTILINE TextCleaner.page_break_heading_re prev x.
Proof.
  intros Hx a c t s ->. apply heading_re_needs_hash.
  apply Forall_app in Hx as [_ Hx]. apply Forall_cons in Hx as [Hc _]. exact Hc.
Qed.

(** After a line end no match of either pattern starts at once. *)
Lemma line_end_no_heading (post : str) p :
  post = [] ∨ (∃ rest, post = nl :: rest) →
  match_at MULTILINE TextCleaner.page_break_heading_re p post = None.
Proof.
  intros [-> | [rest ->]]; apply heading_re_needs_hash; [exact I | reflexivity].
Qed.

Lemma line_end_no_simple (post : str) p :
  post = [] ∨ (∃ rest, post = nl :: rest) →
  match_at MULTILINE TextCleaner.page_break_simple_re p post = None.
Proof.
  intros [-> | [rest ->]]; apply simple_re_needs_dash; [exact I | reflexivity].
Qed.

Lemma line_end_starts (post : str) :
  line_end post → post = [] ∨ (∃ rest, post = nl :: rest).
Proof. intros [-> | (c & rest & -> & _)]; [left | right]; eauto. Qed.

(** What the first pattern leaves of the text after a marker begins like
    that text. *)
Lemma heading_sub_line_end (post : str) :
  line_end post →
  re_sub MULTILINE TextCleaner.page_break_heading_re [] post = []
  ∨ ∃ rest, re_sub MULTILINE TextCleaner.page_break_heading_re [] post
            = nl :: rest.
Proof.
  intros [-> | (c & rest & -> & _)]; [left; reflexivity | right].
  unfold re_sub. rewrite scan_step by (apply heading_re_needs_hash; reflexivity).
  cbn [flat_map app]. eauto.
Qed.

Lemma heading_sub_plain_line_end (post : str) :
  plain_line_end post →
  line_end (re_sub MULTILINE TextCleaner.page_break_heading_re [] post).
Proof.
  intros [-> | (c & rest & -> & Hsp & Hc)]; [left; reflexivity | right].
  unfold re_sub. rewrite scan_step by (apply heading_re_needs_hash; reflexivity).
  rewrite scan_step by (apply heading_re_needs_hash; exact Hc).
  cbn [flat_map app]. eauto.
Qed.

Lemma plain_line_end_line_end (post : str) : plain_line_end post → line_end post.
Proof.
  intros [-> | (c & rest & -> & Hsp & _)]; [left; reflexivity | right; eauto].
Qed.

Lemma heading_marker_head (hashes w1 : str) (n : nat) (body : str) :
  hashes = lit "#" ∨ hashes = lit "##" →
  ∃ m, heading_marker hashes w1 n body = "#"%char :: m.
Proof. intros [-> | ->]; eexists; reflexivity. Qed.

Lemma simple_marker_head (n : nat) (body : str) :
  (1 ≤ n)%nat → ∃ m, simple_marker n body = "-"%char :: m.
Proof. destruct n; [lia |]. intros _. eexists. reflexivity. Qed.

Lemma simple_marker_no_hash (n m : nat) (w2 w3 w4 w5 : str) :
  spaces_only w2 → spaces_only w3 → spaces_only w4 → spaces_only w5 →
  Forall (λ c, chr_eq MULTILINE "#" c = false)
         (simple_marker n (marker_body w2 w3 w4 m w5)).
Proof.
  intros H2 H3 H4 H5. unfold simple_marker, marker_body.
  repeat (apply Forall_app_2);
    first [ apply dashes_no_hash
          | apply spaces_no_hash; assumption
          | apply word_no_hash; reflexivity ].
Qed.

(** A heading marker on a line of its own, after lines that begin with
    neither "#" nor "-". *)
Lemma heading_marker_removed_in_context (pre post hashes w1 : str) (n m : nat)
    (w2 w3 w4 w5 : str) :
  quiet None pre = true → at_bol MULTILINE (last_of None pre) = true →
  hashes = lit "#" ∨ hashes = lit "##" →
  (2 ≤ n)%nat → (2 ≤ m)%nat →
  spaces_only w1 → spaces_only w2 → spaces_only w3 → spaces_only w4 →
  spaces_only w5 → line_end post →
  TextCleaner.remove_page_breaks
    (pre ++ heading_marker hashes w1 n (marker_body w2 w3 w4 m w5) ++ post)
  = pre ++ TextCleaner.remove_page_breaks post.
Proof.
  intros Hq Hbol Hhash Hn Hm H1 H2 H3 H4 H5 Hpost.
  unfold TextCleaner.remove_page_breaks.
  pose proof (heading_marker_match hashes w1 n m w2 w3 w4 w5 post
                (last_of None pre) Hbol Hhash Hn Hm H1 H2 H3 H4 H5 Hpost)
    as Hmatch.
  destruct (heading_marker_head hashes w1 n (marker_body w2 w3 w4 m w5) Hhash)
    as [mk Emk].
  rewrite Emk in Hmatch |- *.
  rewrite (re_sub_inert_match MULTILINE TextCleaner.page_break_heading_re
             pre "#"%char mk post).
  - apply re_sub_inert; [apply quiet_inert_simple, Hq |].
    intros p. apply line_end_no_simple.
    destruct (heading_sub_line_end post Hpost) as [-> | [rest ->]];
      [left | right]; eauto.
  - apply quiet_inert_heading, Hq.
  - exact Hmatch.
  - intros p. apply line_end_no_heading, line_end_starts, Hpost.
Qed.

(** A marker without "#" on a line of its own, likewise, the next line
    not being a heading. *)
Lemma simple_marker_removed_in_context (pre post : str) (n m : nat)
    (w2 w3 w4 w5 : str) :
  quiet None pre = true → at_bol MULTILINE (last_of None pre) = true →
  (3 ≤ n)%nat → (3 ≤ m)%nat →
  spaces_only w2 → spaces_only w3 → spaces_only w4 → spaces_only w5 →
  plain_line_end post →
  TextCleaner.remove_page_breaks
    (pre ++ simple_marker n (marker_body w2 w3 w4 m w5) ++ post)
  = pre ++ TextCleaner.remove_page_breaks post.
Proof.
  intros Hq Hbol Hn Hm H2 H3 H4 H5 Hpost.
  unfold TextCleaner.remove_page_breaks.
  pose proof (plain_line_end_line_end post Hpost) as Hle.
  pose proof (heading_sub_plain_line_end post Hpost) as Hle'.
  destruct (simple_marker_head n (marker_body w2 w3 w4 m w5)) as [mk Emk];
    [lia |].
  assert (E1 : re_sub MULTILINE TextCleaner.page_break_heading_re []
                 (pre ++ simple_marker n (marker_body w2 w3 w4 m w5) ++ post)
               = pre ++ simple_marker n (marker_body w2 w3 w4 m w5)
                 ++ re_sub MULTILINE TextCleaner.page_break_heading_re [] post).
  { rewrite re_sub_inert.
    - f_equal. apply re_sub_inert.
      + apply no_hash_inert, simple_marker_no_hash; assumption.
      + intros p. apply line_end_no_heading, line_end_starts, Hle.
    - apply quiet_inert_heading, Hq.
    - intros p. rewrite Emk. apply heading_re_needs_hash. reflexivity. }
  rewrite E1.
  pose proof (simple_marker_match n m w2 w3 w4 w5
                (re_sub MULTILINE TextCleaner.page_break_heading_re [] post)
                (last_of None pre) Hbol Hn Hm H2 H3 H4 H5 Hle') as Hmatch.
  rewrite Emk in Hmatch |- *.
  apply re_sub_inert_match.
  - apply quiet_inert_simple, Hq.
  - exact Hmatch.
  - intros p. apply line_end_no_simple, line_end_starts, Hle'.
Qed.

(** C6, as the specification states it, fails on the marker it singles
    out: "-- Page Break --", with 2 dashes on each side and no "#", has the
    shape of a marker without "#" and is left in place, since the first
    pattern requires a "#" and the second 3 dashes. *)
Lemma two_dash_marker_counterexample :
  two_dash_marker = simple_marker 2 (marker_body [sp] [sp] [sp] 2 [])
  ∧ TextCleaner.remove_page_breaks two_dash_marker = two_dash_marker
  ∧ TextCleaner.remove_page_breaks two_dash_marker ≠ [].
Proof.
  split; [reflexivity |].
  split; [vm_compute; reflexivity | vm_compute; discriminate].
Qed.

(** ** Numeric garbage *)

(** [^\d+$] on a text that does not end in a newline: purely digits. *)
Lemma digits_rep (w : str) : ∀ n prev,
  last w ≠ Some nl →
  rep isdecimal n prev w at_end
  = if forallb isdecimal w && (n <=? length w)%nat then Some [] else None.
Proof.
  induction w as [|c w IH]; intros n prev Hlast.
  - destruct n; reflexivity.
  - assert (Hw : last w ≠ Some nl).
    { destruct w as [|c' w]; [discriminate |].
      rewrite last_cons_cons in Hlast. exact Hlast. }
    assert (Hstop : at_end prev (c :: w) = None).
    { unfold at_end, rest_of. cbn [exec at_eol].
      destruct (eqc c nl) eqn:Ec; [| reflexivity].
      apply eqc_true in Ec. subst c.
      destruct w as [|c' w]; [exfalso; apply Hlast; reflexivity |].
      reflexivity. }
    cbn [rep forallb length]. rewrite (IH _ _ Hw), Hstop.
    destruct (isdecimal c) eqn:Hc; cbn [andb].
    + destruct (forallb isdecimal w) eqn:Hall; cbn [andb].
      * destruct n as [|n]; cbn [Nat.pred].
        -- reflexivity.
        -- change (S n <=? S (length w))%nat with (n <=? length w)%nat.
           destruct (n <=? length w)%nat; reflexivity.
      * destruct n; reflexivity.
    + destruct n; reflexivity.
Qed.

Lemma digits_match (w : str) :
  last w ≠ Some nl → re_match no_flags Extractor.digits_re w = purely_numeric w.
Proof.
  intros Hlast. unfold re_match, match_at.
  change (exec no_flags Extractor.digits_re None w (λ _ rest, Some rest))
    with (rep isdecimal 1 None w at_end).
  rewrite (digits_rep w 1 None Hlast). unfold purely_numeric.
  destruct w as [|c w]; [reflexivity |].
  cbn [truthy length]. change (1 <=? S (length w))%nat with true.
  rewrite andb_true_r. destruct (forallb isdecimal (c :: w)); reflexivity.
Qed.

Lemma split_ws_aux_tokens (s : str) : ∀ cur,
  Forall (λ c, isspace c = false) cur →
  Forall (Forall (λ c, isspace c = false)) (split_ws_aux cur s).
Proof.
  induction s as [|c s IH]; intros cur Hcur; simpl.
  - destruct cur; [apply Forall_nil_2 |].
    apply Forall_cons_2; [| apply Forall_nil_2].
    apply Forall_rev. exact Hcur.
  - destruct (isspace c) eqn:Hc.
    + destruct cur.
      * apply IH, Forall_nil_2.
      * apply Forall_cons_2; [apply Forall_rev; exact Hcur |].
        apply IH, Forall_nil_2.
    + apply IH. apply Forall_cons_2; assumption.
Qed.

Lemma token_last_not_nl (w : str) :
  Forall (λ c, isspace c = false) w → last w ≠ Some nl.
Proof.
  intros Hw Hl. apply last_Some in Hl as [w' ->].
  apply Forall_app in Hw as [_ Hw]. apply Forall_cons in Hw as [Hw _].
  discriminate Hw.
Qed.

Lemma filter_digits_tokens (s : str) :
  List.filter (re_match no_flags Extractor.digits_re) (split_ws s)
  = List.filter purely_numeric (split_ws s).
Proof.
  apply List.filter_ext_in. intros w Hw.
  apply digits_match, token_last_not_nl.
  pose proof (split_ws_aux_tokens s [] (Forall_nil_2 _)) as Hall.
  rewrite Forall_forall in Hall. apply Hall, list_elem_of_In, Hw.
Qed.

Lemma split_ws_aux_length (s : str) : ∀ cur,
  (length (split_ws_aux cur s) ≤ length s + (if truthy cur then 1 else 0))%nat.
Proof.
  induction s as [|c s IH]; intros cur; simpl.
  - destruct cur; simpl; lia.
  - destruct (isspace c).
    + destruct cur; simpl; specialize (IH []); simpl in IH; lia.
    + specialize (IH (c :: cur)). simpl in IH. destruct cur; simpl; lia.
Qed.

Lemma split_ws_llen (s : str) : llen (split_ws s) ≤ len s.
Proof.
  unfold llen, len, split_ws.
  pose proof (split_ws_aux_length s []) as H. simpl in H. lia.
Qed.

Lemma strip_len (s : str) : len (strip s) ≤ len s.
Proof.
  destruct (strip_infix s) as (a & b & E).
  unfold len. rewrite E at 2. rewrite !length_app. lia.
Qed.

Lemma is_numeric_garbage_shape (line : str) :
  len line < 2 ^ 50 →
  Extractor.is_numeric_garbage line = Ret true
  ↔ numeric_garbage_shape (strip line).
Proof.
  intros Hlen. unfold Extractor.is_numeric_garbage, numeric_garbage_shape.
  cbv zeta.
  pose proof (strip_len line) as Hs.
  pose proof (split_ws_llen (strip line)) as Hw.
  rewrite (digits_match (strip line) (strip_last_not_nl line)).
  rewrite filter_digits_tokens.
  destruct (truthy (strip line)) eqn:Ht; cbn [negb].
  2:{ destruct (strip line) as [|c s]; [| discriminate Ht].
      split; [discriminate |].
      intros [H | [[H _] | [H _]]]; [discriminate H | |];
        vm_compute in H; congruence. }
  destruct (purely_numeric (strip line)) eqn:Hp.
  { split; [intros _; left; reflexivity | reflexivity]. }
  assert (Hwords :
    (if 5 <=? llen (split_ws (strip line))
     then let* q := true_div
                      (llen (List.filter purely_numeric (split_ws (strip line))))
                      (llen (split_ws (strip line))) in
          Ret (div_gt q d0_8)
     else Ret false)
    = Ret ((5 <=? llen (split_ws (strip line)))
           && (4 * llen (split_ws (strip line))
               <? 5 * llen (List.filter purely_numeric (split_ws (strip line)))))).
  { destruct (Z.leb_spec 5 (llen (split_ws (strip line)))); [| reflexivity].
    rewrite true_div_ret by lia. cbn [bind andb].
    rewrite div_gt_0_8 by lia. reflexivity. }
  rewrite Hwords. cbn [bind].
  assert (Hchars :
    (if 50 <? len (strip line)
     then let* q := true_div (llen (List.filter isdigit (strip line)))
                             (len (strip line)) in
          Ret (div_gt q d0_7)
     else Ret false)
    = Ret ((50 <? len (strip line))
           && (7 * len (strip line)
               <? 10 * llen (List.filter isdigit (strip line))))).
  { destruct (Z.ltb_spec 50 (len (strip line))); [| reflexivity].
    rewrite true_div_ret by lia. cbn [bind andb].
    rewrite div_gt_0_7 by lia. reflexivity. }
  rewrite Hchars. cbn [bind].
  destruct (Z.leb_spec 5 (llen (split_ws (strip line))));
    destruct (Z.ltb_spec (4 * llen (split_ws (strip line)))
                (5 * llen (List.filter purely_numeric (split_ws (strip line)))));
    destruct (Z.ltb_spec 50 (len (strip line)));
    destruct (Z.ltb_spec (7 * len (strip line))
                (10 * llen (List.filter isdigit (strip line))));
    cbn [andb]; split; try reflexivity; try discriminate; try tauto;
    try (intros [? | [[? ?] | [? ?]]]; (discriminate || lia)).
Qed.

Lemma run_marker_from_zero (k : Z) :
  run_marker 0 k = if 3 <=? k then [Extractor.numeric_data_removed] else [].
Proof. reflexivity. Qed.

Lemma reaching_all (seen_lines : gmap str Z) (lines : list str) :
  Forall (λ line, skipped seen_lines line = false) lines →
  reaching seen_lines lines = llen lines.
Proof.
  induction 1 as [|line lines Hl _ IH].
  - reflexivity.
  - rewrite ExtractorRun.reaching_cons, Hl, IH. unfold llen. simpl length. lia.
Qed.

(** A run of numeric-garbage lines that reach the numeric test, entered
    with the counter at 0. *)
Lemma numeric_run_placeholder (seen_lines : gmap str Z) (run : list str) st :
  Extractor.numeric_run st = 0 →
  Forall (λ line, skipped seen_lines line = false
                  ∧ Extractor.is_numeric_garbage (strip line) = Ret true) run →
  Extractor.foldM (Extractor.filter_step seen_lines) run st
  = Ret (Extractor.Pass
           (Extractor.cleaned_lines st
            ++ (if 3 <=? llen run then [Extractor.numeric_data_removed] else []))
           (Extractor.prev_empty st) (llen run)).
Proof.
  intros Hzero Hrun.
  rewrite ExtractorRun.run_of_garbage.
  - rewrite Hzero, run_marker_from_zero, reaching_all; [reflexivity |].
    eapply Forall_impl; [exact Hrun |]. intros line [H _]. exact H.
  - eapply Forall_impl; [exact Hrun |]. intros line [_ H]. right. exact H.
Qed.

(** C7, as the specification states it, fails on a run of numeric lines
    that repeat: the three lines of "1", "1", "1" are numeric garbage and
    form a run of 3, but each is skipped as a line repeated 3 times before
    the numeric test, so no placeholder is emitted. *)
Lemma three_ones_counterexample :
  Forall (λ line, Extractor.is_numeric_garbage line = Ret true)
         (split_on nl three_ones)
  ∧ llen (split_on nl three_ones) = 3
  ∧ Extractor.clean_extracted_text three_ones = Ret [].
Proof.
  split; [| by_evaluation].
  repeat (apply Forall_cons_2; [vm_compute; reflexivity |]).
  apply Forall_nil_2.
Qed.

(** C7, amended.  A line (shorter than 2^50 characters) is numeric garbage
    exactly when, trimmed, it is purely digits, or has at least 5
    whitespace-separated tokens of which more than 80% are purely digits,
    or has more than 50 characters of which more than 70% are digits.  In
    the line pass, over a run of k numeric-garbage lines that reach the
    numeric test (none skipped as repeated 3 times or more or as a
    page-number line), entered with the counter at 0, exactly one
    "[numeric data removed]" placeholder is appended if k ≥ 3 and none if
    k < 3; the garbage lines themselves are not appended. *)
Theorem numeric_garbage_runs :
  (∀ line,
     len line < 2 ^ 50 →
     Extractor.is_numeric_garbage line = Ret true
     ↔ numeric_garbage_shape (strip line))
  ∧ (∀ seen_lines run st,
       Extractor.numeric_run st = 0 →
       Forall (λ line, skipped seen_lines line = false
                       ∧ Extractor.is_numeric_garbage (strip line) = Ret true)
              run →
       Extractor.foldM (Extractor.filter_step seen_lines) run st
       = Ret (Extractor.Pass
                (Extractor.cleaned_lines st
                 ++ (if 3 <=? llen run
                     then [Extractor.numeric_data_removed] else []))
                (Extractor.prev_empty st) (llen run)))
  ∧ Extractor.clean_extracted_text (lit "1" ++ [nl] ++ lit "2" ++ [nl] ++ lit "3")
    = Ret Extractor.numeric_data_removed
  ∧ Extractor.clean_extracted_text (lit "1" ++ [nl] ++ lit "2" ++ [nl] ++ lit "x")
    = Ret (lit "x").
Proof.
  split; [exact is_numeric_garbage_shape |].
  split; [intros; apply numeric_run_placeholder; assumption |].
  by_evaluation.
Qed.

Lemma numeric_garbage_runs_witness :
  (Extractor.is_numeric_garbage (lit " 42 ") = Ret true
   ↔ numeric_garbage_shape (strip (lit " 42 ")))
  ∧ Extractor.foldM
      (Extractor.filter_step (fold_left Extractor.count_line one_two_three ∅))
      one_two_three (Extractor.Pass [] false 0)
    = Ret (Extractor.Pass
             ([] ++ (if 3 <=? llen one_two_three
                     then [Extractor.numeric_data_removed] else []))
             false (llen one_two_three)).
Proof.
  split.
  - apply (proj1 numeric_garbage_runs). vm_compute. reflexivity.
  - apply (proj1 (proj2 numeric_garbage_runs)
             (fold_left Extractor.count_line one_two_three ∅) one_two_three
             (Extractor.Pass [] false 0)).
    + reflexivity.
    + repeat (apply Forall_cons_2;
              [split; vm_compute; reflexivity |]).
      apply Forall_nil_2.
Defined.

(** * Further properties of the code *)

(** ** The classifier *)

(** X1. [clean_line] never rewrites part of a line: on every line and every
    repeated set it returns the line itself, the empty string, or one of
    the four placeholders "[content removed]", "[data removed]",
    "[pixel data removed]" and "[address data removed]". *)
Theorem clean_line_outputs (line : str) (repeated_lines : gset str) :
  ∃ out,
    TextCleaner.clean_line line repeated_lines = Ret out
    ∧ (out = line ∨ out = []
       ∨ out = TextCleaner.content_removed ∨ out = TextCleaner.data_removed
       ∨ out = TextCleaner.pixel_data_removed
       ∨ out = TextCleaner.address_data_removed).
Proof.
  unfold TextCleaner.clean_line.
  destruct (negb _); [eexists; split; [reflexivity | tauto] |].
  destruct (2000 <? len line); [eexists; split; [reflexivity | tauto] |].
  destruct (TextCleanerTotal.is_dropped_repeat_ret (strip line) repeated_lines)
    as [d ->]. cbn [bind].
  destruct d; [eexists; split; [reflexivity | tauto] |].
  destruct (TextCleaner.is_page_number_line _);
    [eexists; split; [reflexivity | tauto] |].
  destruct (TextCleaner.is_contact_footer _);
    [eexists; split; [reflexivity | tauto] |].
  destruct (TextCleanerTotal.is_data_dump_ret (strip line)) as [d ->]. cbn [bind].
  destruct d; [eexists; split; [reflexivity | tauto] |].
  destruct (TextCleaner.contains_pixel_sequence _) eqn:Hpix;
    [eexists; split; [reflexivity | tauto] |].
  destruct (TextCleaner.contains_hex_sequence _);
    [eexists; split; [reflexivity | tauto] |].
  destruct (TextCleaner.is_calibration_data_line _) eqn:Hcal.
  { apply calibration_needs_pixels in Hcal. congruence. }
  destruct (TextCleanerTotal.is_spaceless_ret line) as [d ->]. cbn [bind].
  destruct d; [eexists; split; [reflexivity | tauto] |].
  destruct (TextCleaner.is_single_long_word _);
    [eexists; split; [reflexivity | tauto] |].
  destruct (TextCleanerTotal.repetitive_ret line) as [b ->]. cbn [bind].
  destruct b; eexists; (split; [reflexivity | tauto]).
Qed.

(** X2. A page-number line and a contact footer disappear whatever the
    repeated set is: for every line of raw length at most 2000 whose
    trimmed content is a page-number line or a contact footer,
    [clean_line] returns the empty string, whether or not the line is
    repeated and whether or not it looks like a heading. *)
Theorem page_and_footer_lines_dropped (line : str) (repeated_lines : gset str) :
  len line ≤ 2000 →
  TextCleaner.is_page_number_line (strip line) = true
  ∨ TextCleaner.is_contact_footer (strip line) = true →
  TextCleaner.clean_line line repeated_lines = Ret [].
Proof.
  intros Hcap Hrule. unfold TextCleaner.clean_line.
  destruct (negb _); [reflexivity |].
  destruct (Z.ltb_spec 2000 (len line)); [lia |].
  destruct (TextCleanerTotal.is_dropped_repeat_ret (strip line) repeated_lines)
    as [d ->]. cbn [bind].
  destruct d; [reflexivity |].
  destruct (TextCleaner.is_page_number_line _); [reflexivity |].
  destruct Hrule as [Hp | Hf]; [discriminate Hp |].
  rewrite Hf. reflexivity.
Qed.

Lemma page_and_footer_lines_dropped_witness :
  TextCleaner.clean_line (lit "  Page 3 of 10 ") {[ lit "Page 3 of 10" ]} = Ret []
  ∧ TextCleaner.clean_line
      (lit "Customer Support: Phone 49 351 888885-0, Fax 49 351 888885-100")
      ∅ = Ret [].
Proof.
  split.
  - apply page_and_footer_lines_dropped.
    + vm_compute. discriminate.
    + left. vm_compute. reflexivity.
  - apply page_and_footer_lines_dropped.
    + vm_compute. discriminate.
    + right. vm_compute. reflexivity.
Defined.

(** X3. The tests that trim their argument give the same verdict on a line
    and on its trimmed content: the heading test, the page-number test, the
    contact-footer test of the main cleaner and the numeric-garbage test of
    the fresh-extraction path.  [clean_line] and [clean_extracted_text] call
    them on the trimmed line. *)
Theorem tests_ignore_surrounding_whitespace (line : str) :
  TextCleaner.is_likely_heading (strip line) = TextCleaner.is_likely_heading line
  ∧ TextCleaner.is_page_number_line (strip line)
    = TextCleaner.is_page_number_line line
  ∧ TextCleaner.is_contact_footer (strip line)
    = TextCleaner.is_contact_footer line
  ∧ Extractor.is_numeric_garbage (strip line) = Extractor.is_numeric_garbage line.
Proof.
  unfold TextCleaner.is_likely_heading, TextCleaner.is_page_number_line,
    TextCleaner.is_contact_footer, Extractor.is_numeric_garbage.
  rewrite !strip_idem. repeat split.
Qed.

(** ** The repeated set *)

Lemma repeated_elem (lines : list str) (t : str) :
  t ∈ TextCleaner.find_repeated_lines lines ↔ 3 ≤ tracked_occurrences t lines.
Proof.
  unfold TextCleaner.find_repeated_lines.
  pose proof (count_lines_lookup lines ∅ t) as Hc.
  rewrite lookup_empty in Hc. simpl in Hc.
  rewrite elem_of_dom. unfold is_Some.
  split.
  - intros [v Hv]. apply map_lookup_filter_Some in Hv as [Hv Hge].
    rewrite Hv in Hc. simpl in *. lia.
  - intros Hge.
    destruct (fold_left TextCleaner.count_line lines ∅ !! t) as [v|] eqn:Hv;
      simpl in Hc; [| lia].
    exists v. apply map_lookup_filter_Some. split; [assumption | simpl; lia].
Qed.

Lemma tracked_occurrences_app (t : str) (l1 l2 : list str) :
  tracked_occurrences t (l1 ++ l2)
  = tracked_occurrences t l1 + tracked_occurrences t l2.
Proof.
  unfold tracked_occurrences, llen. rewrite filter_app, length_app. lia.
Qed.

Lemma tracked_occurrences_nonneg (t : str) (lines : list str) :
  0 ≤ tracked_occurrences t lines.
Proof. unfold tracked_occurrences, llen. lia. Qed.

Lemma tracked_occurrences_le (t : str) (lines : list str) :
  tracked_occurrences t lines ≤ llen (filter (λ line, strip line = t) lines).
Proof.
  unfold tracked_occurrences, llen.
  induction lines as [|line lines IH]; [reflexivity |].
  rewrite !filter_cons.
  destruct (decide (strip line = t ∧ 0 < len (strip line) < 200)) as [[E _]|];
    destruct (decide (strip line = t)); simpl length; try lia. contradiction.
Qed.

Lemma tracked_occurrences_pos (t : str) (lines : list str) :
  0 < tracked_occurrences t lines → strip t = t ∧ 0 < len t < 200.
Proof.
  unfold tracked_occurrences, llen.
  induction lines as [|line lines IH]; [simpl; lia |].
  rewrite filter_cons.
  destruct (decide (strip line = t ∧ 0 < len (strip line) < 200))
    as [[E Hlen]|]; [| exact IH].
  intros _. subst t. split; [apply strip_idem | exact Hlen].
Qed.

(** X4. Every member of the set that [find_repeated_lines] returns is a
    trimmed string, not empty and shorter than 200 characters, and is the
    trimmed content of at least three of the lines; with fewer than three
    lines the set is empty. *)
Theorem repeated_lines_members (lines : list str) :
  (∀ t, t ∈ TextCleaner.find_repeated_lines lines →
        strip t = t ∧ 0 < len t < 200
        ∧ 3 ≤ llen (filter (λ line, strip line = t) lines))
  ∧ (llen lines < 3 → TextCleaner.find_repeated_lines lines = ∅).
Proof.
  split.
  - intros t Ht. apply repeated_elem in Ht.
    destruct (tracked_occurrences_pos t lines) as [Hs Hl]; [lia |].
    pose proof (tracked_occurrences_le t lines). repeat split; tauto || lia.
  - intros Hn. apply set_eq. intros t. rewrite repeated_elem.
    split; [| intros H; exfalso; set_solver].
    intros Ht. exfalso.
    pose proof (tracked_occurrences_le t lines) as Hle.
    pose proof (length_filter (λ line, strip line = t) lines) as Hf.
    unfold llen in *. lia.
Qed.

Lemma repeated_lines_members_witness :
  strip (lit "hdr") = lit "hdr" ∧ 0 < len (lit "hdr") < 200
  ∧ 3 ≤ llen (filter (λ line, strip line = lit "hdr") header_between_numbers).
Proof.
  apply (proj1 (repeated_lines_members header_between_numbers)).
  apply (bool_decide_unpack _). vm_compute. exact I.
Defined.

(** X5. The set that [find_repeated_lines] returns depends on the lines as
    a multiset only: any reordering of the lines gives the same set.  And
    it only grows with the input: every member for some lines is still a
    member when further lines are added. *)
Theorem repeated_lines_order_and_growth (lines lines' : list str) :
  (lines ≡ₚ lines' →
   TextCleaner.find_repeated_lines lines = TextCleaner.find_repeated_lines lines')
  ∧ TextCleaner.find_repeated_lines lines
    ⊆ TextCleaner.find_repeated_lines (lines ++ lines')
  ∧ TextCleaner.find_repeated_lines lines'
    ⊆ TextCleaner.find_repeated_lines (lines ++ lines').
Proof.
  split; [| split].
  - intros Hp. apply set_eq. intros t. rewrite !repeated_elem.
    unfold tracked_occurrences, llen. rewrite Hp. reflexivity.
  - intros t. rewrite !repeated_elem, tracked_occurrences_app.
    pose proof (tracked_occurrences_nonneg t lines'). lia.
  - intros t. rewrite !repeated_elem, tracked_occurrences_app.
    pose proof (tracked_occurrences_nonneg t lines). lia.
Qed.

Lemma repeated_lines_order_and_growth_witness :
  TextCleaner.find_repeated_lines [lit "a"; lit "b"; lit "a"; lit "a"]
  = TextCleaner.find_repeated_lines [lit "a"; lit "a"; lit "a"; lit "b"].
Proof.
  apply (proj1 (repeated_lines_order_and_growth _ _)).
  apply Permutation_skip.
  apply (Permutation_cons_append [lit "a"; lit "a"] (lit "b")).
Defined.

(** ** The output of the fresh-extraction path *)

Lemma no_twice_snoc (x y : str) (ls : list str) :
  no_twice x ls → (last ls = Some x → y ≠ x) → no_twice x (ls ++ [y]).
Proof.
  induction ls as [|a ls IH]; intros Hn Hl; [simpl; auto |].
  destruct ls as [|b ls].
  - simpl. split; [| auto]. intros [-> ->]. apply Hl; reflexivity.
  - destruct Hn as [Hab Hn]. split; [exact Hab |].
    apply IH; [exact Hn |]. intros E. apply Hl.
    rewrite last_cons_cons. exact E.
Qed.

Lemma split_join (ls : list str) :
  ls ≠ [] → Forall nl_free ls → split_on nl (join nl ls) = ls.
Proof.
  induction ls as [|l ls IH]; intros Hne Hfree; [congruence |].
  apply Forall_cons in Hfree as [Hl Hfree].
  destruct ls as [|l' ls].
  - simpl. apply split_on_free_id, Hl.
  - rewrite join_cons, split_on_app_free by exact Hl.
    rewrite IH; [reflexivity | discriminate | exact Hfree].
Qed.

Lemma well_spaced_no_twice (ls : list str) :
  Forall nl_free ls → no_twice [] ls → well_spaced ls.
Proof.
  induction ls as [|l ls IH]; intros Hfree Hn; [constructor |].
  apply Forall_cons in Hfree as [Hl Hfree]. destruct Hn as [Hab Hn].
  destruct ls as [|l' ls]; [constructor; exact Hl |].
  constructor; [exact Hl | | apply IH; assumption].
  intros -> ->. apply Hab. split; reflexivity.
Qed.

Lemma marker_nonempty : Extractor.numeric_data_removed ≠ [].
Proof. discriminate. Qed.

Lemma content_lines_app (l1 l2 : list str) :
  content_lines (l1 ++ l2) = content_lines l1 ++ content_lines l2.
Proof. unfold content_lines. apply filter_app. Qed.

Lemma content_lines_sublist (ls : list str) : content_lines ls `sublist_of` ls.
Proof. unfold content_lines. apply sublist_filter. Qed.

Lemma content_lines_special (l : str) :
  l = [] ∨ l = Extractor.numeric_data_removed → content_lines [l] = [].
Proof.
  intros H. unfold content_lines. rewrite filter_cons, filter_nil.
  rewrite decide_False; [reflexivity |]. intros [? ?]. destruct H; contradiction.
Qed.

(** One step of the second pass. *)
Lemma filter_step_emits seen_lines st (line : str) :
  ∃ st1 add,
    Extractor.filter_step seen_lines st line = Ret st1
    ∧ Extractor.cleaned_lines st1 = Extractor.cleaned_lines st ++ add
    ∧ Forall (emitted seen_lines) add
    ∧ content_lines add `sublist_of` [line]
    ∧ (pass_inv st → pass_inv st1).
Proof.
  unfold pass_inv.
  destruct (skipped seen_lines line) eqn:Hs.
  { exists st, []. rewrite ExtractorRun.filter_step_skipped by exact Hs.
    rewrite app_nil_r.
    split; [reflexivity |]. split; [reflexivity |].
    split; [apply Forall_nil_2 |]. split; [apply sublist_nil_l | auto]. }
  rewrite (ExtractorRun.filter_step_reaching _ _ _ Hs).
  destruct (ExtractorTotal.is_numeric_garbage_ret (strip line)) as [g Hg].
  rewrite Hg. cbn [bind]. destruct g.
  - eexists. exists (if Extractor.numeric_run st + 1 =? 3
                     then [Extractor.numeric_data_removed] else []).
    split; [reflexivity |]. cbn [Extractor.cleaned_lines Extractor.prev_empty].
    split; [reflexivity |].
    destruct (Extractor.numeric_run st + 1 =? 3).
    + split; [| split].
      * apply Forall_cons_2; [right; left; reflexivity | apply Forall_nil_2].
      * rewrite content_lines_special by (right; reflexivity). apply sublist_nil_l.
      * intros [Hn Hl]. split.
        -- apply no_twice_snoc; [exact Hn |]. intros _. apply marker_nonempty.
        -- rewrite last_snoc. discriminate.
    + rewrite app_nil_r. split; [apply Forall_nil_2 |].
      split; [apply sublist_nil_l |]. intros H. exact H.
  - destruct (truthy (strip line)) eqn:Ht; cbn [negb].
    + eexists. exists [line]. split; [reflexivity |].
      cbn [Extractor.cleaned_lines Extractor.prev_empty].
      split; [reflexivity |].
      assert (Hne : line ≠ []).
      { intros ->. discriminate Ht. }
      split; [| split].
      * apply Forall_cons_2; [| apply Forall_nil_2].
        right. right. repeat split; assumption.
      * apply content_lines_sublist.
      * intros [Hn Hl]. split.
        -- apply no_twice_snoc; [exact Hn |]. intros _. exact Hne.
        -- rewrite last_snoc. intros [= E]. contradiction.
    + eexists. exists (if Extractor.prev_empty st then [] else [[]]).
      split; [reflexivity |].
      cbn [Extractor.cleaned_lines Extractor.prev_empty].
      split; [reflexivity |].
      destruct (Extractor.prev_empty st) eqn:Hpe.
      * rewrite app_nil_r. split; [apply Forall_nil_2 |].
        split; [apply sublist_nil_l |].
        intros [Hn Hl]. split; [exact Hn | reflexivity].
      * split; [| split].
        -- apply Forall_cons_2; [left; reflexivity | apply Forall_nil_2].
        -- rewrite content_lines_special by (left; reflexivity).
           apply sublist_nil_l.
        -- intros [Hn Hl]. split; [| reflexivity].
           apply no_twice_snoc; [exact Hn |]. intros E.
           specialize (Hl E). congruence.
Qed.

(** The whole second pass. *)
Lemma second_pass_emits seen_lines (lines : list str) : ∀ st,
  ∃ st' added,
    Extractor.foldM (Extractor.filter_step seen_lines) lines st = Ret st'
    ∧ Extractor.cleaned_lines st' = Extractor.cleaned_lines st ++ added
    ∧ Forall (emitted seen_lines) added
    ∧ content_lines added `sublist_of` lines
    ∧ (pass_inv st → pass_inv st').
Proof.
  induction lines as [|line lines IH]; intros st.
  - exists st, []. rewrite app_nil_r.
    split; [reflexivity |]. split; [reflexivity |].
    split; [apply Forall_nil_2 |]. split; [apply sublist_nil_l | auto].
  - destruct (filter_step_emits seen_lines st line)
      as (st1 & add & Hstep & Hcl & Hem & Hsub & Hinv).
    destruct (IH st1) as (st' & added & Hrun & Hcl' & Hem' & Hsub' & Hinv').
    exists st', (add ++ added). cbn [Extractor.foldM]. rewrite Hstep. cbn [bind].
    split; [exact Hrun |].
    split; [rewrite Hcl', Hcl, app_assoc; reflexivity |].
    split; [apply Forall_app_2; assumption |].
    split; [| auto].
    rewrite content_lines_app.
    change (line :: lines) with ([line] ++ lines).
    apply sublist_app; assumption.
Qed.

Lemma no_twice_snoc_inv (x y : str) (ls : list str) :
  no_twice x (ls ++ [y]) → no_twice x ls ∧ (last ls = Some x → y ≠ x).
Proof.
  induction ls as [|a ls IH]; intros Hn; [split; [exact I | discriminate] |].
  destruct ls as [|b ls].
  - destruct Hn as [Hab _]. split; [split; exact I |].
    intros [= ->] ->. apply Hab. split; reflexivity.
  - destruct Hn as [Hab Hn]. destruct (IH Hn) as [Hn' Hl].
    split; [split; assumption |].
    rewrite last_cons_cons. exact Hl.
Qed.

Lemma marker_step_inv (cl : list str) (st : list str * bool) (l : str) :
  marker_inv cl st → marker_inv (cl ++ [l]) (Extractor.marker_step st l).
Proof.
  destruct st as [result flag]. unfold marker_inv. cbn [fst snd].
  intros (Hlast & Hflag & Hm & Hc & HP & He).
  unfold Extractor.marker_step.
  assert (Hcl : content_lines (cl ++ [l]) = content_lines cl ++ content_lines [l])
    by apply content_lines_app.
  case_bool_decide as Hl.
  - subst l. destruct flag; cbn [negb fst snd].
    + assert (Hcm : last cl = Some Extractor.numeric_data_removed)
        by (apply Hflag; reflexivity).
      rewrite last_snoc.
      split; [congruence |]. split; [tauto |]. split; [exact Hm |].
      split.
      { rewrite Hcl, content_lines_special by (right; reflexivity).
        rewrite app_nil_r. exact Hc. }
      split.
      { intros P HPcl. apply Forall_app in HPcl as [HPcl _]. apply HP, HPcl. }
      intros Hn. apply no_twice_snoc_inv in Hn as [Hn _]. apply He, Hn.
    + assert (Hcm : last cl ≠ Some Extractor.numeric_data_removed).
      { intros E. apply Hflag in E. discriminate E. }
      rewrite !last_snoc.
      split; [reflexivity |]. split; [tauto |].
      split.
      { apply no_twice_snoc; [exact Hm |]. rewrite Hlast. contradiction. }
      split.
      { rewrite content_lines_app, Hcl, Hc. reflexivity. }
      split.
      { intros P HPcl. apply Forall_app in HPcl as [HPcl HPl].
        apply Forall_app_2; [apply HP, HPcl | exact HPl]. }
      intros Hn. apply no_twice_snoc_inv in Hn as [Hn _].
      apply no_twice_snoc; [apply He, Hn |]. intros _. apply marker_nonempty.
  - cbn [fst snd]. rewrite !last_snoc.
    split; [reflexivity |].
    split; [split; [discriminate | intros [= E]; contradiction] |].
    split.
    { apply no_twice_snoc; [exact Hm |]. intros _. exact Hl. }
    split.
    { rewrite content_lines_app, Hcl, Hc. reflexivity. }
    split.
    { intros P HPcl. apply Forall_app in HPcl as [HPcl HPl].
      apply Forall_app_2; [apply HP, HPcl | exact HPl]. }
    intros Hn. apply no_twice_snoc_inv in Hn as [Hn Hy].
    apply no_twice_snoc; [apply He, Hn |]. rewrite Hlast. exact Hy.
Qed.

Lemma third_pass_inv (cl : list str) :
  marker_inv cl (fold_left Extractor.marker_step cl ([], false)).
Proof.
  induction cl as [|l cl IH] using rev_ind.
  - unfold marker_inv. cbn [fold_left fst snd].
    split; [reflexivity |]. split; [split; discriminate |].
    split; [exact I |]. split; [reflexivity |]. split; auto.
  - rewrite fold_left_app. cbn [fold_left]. apply marker_step_inv, IH.
Qed.

Lemma marker_free : nl_free Extractor.numeric_data_removed.
Proof.
  unfold nl_free. apply Forall_forall. intros c Hc.
  apply list_elem_of_In in Hc. vm_compute in Hc.
  intros ->. repeat (destruct Hc as [Hc | Hc]; [discriminate Hc |]). exact Hc.
Qed.

Lemma content_lines_elem (ls : list str) (l : str) :
  l ∈ ls → l = [] ∨ l = Extractor.numeric_data_removed ∨ l ∈ content_lines ls.
Proof.
  intros Hl. destruct (decide (l = [])) as [|Hne]; [tauto |].
  destruct (decide (l = Extractor.numeric_data_removed)) as [|Hnm]; [tauto |].
  right. right. unfold content_lines. apply list_elem_of_filter. tauto.
Qed.

(** The lines of the output of [clean_extracted_text]. *)
Lemma fresh_extraction_lines (text : str) :
  ∃ result,
    Extractor.clean_extracted_text text = Ret (join nl result)
    ∧ Forall (emitted (fold_left Extractor.count_line (split_on nl text) ∅)) result
    ∧ no_twice [] result
    ∧ no_twice Extractor.numeric_data_removed result
    ∧ content_lines result `sublist_of` split_on nl text
    ∧ Forall nl_free result.
Proof.
  unfold Extractor.clean_extracted_text.
  set (lines := split_on nl text).
  set (seen := fold_left Extractor.count_line lines ∅).
  destruct (second_pass_emits seen lines (Extractor.Pass [] false 0))
    as (st' & added & Hrun & Hcl & Hem & Hsub & Hinv).
  rewrite Hrun. cbn [bind]. cbn [Extractor.cleaned_lines app] in Hcl.
  rewrite Hcl.
  destruct Hinv as [Hne _].
  { split; [exact I | discriminate]. }
  rewrite Hcl in Hne.
  pose proof (third_pass_inv added) as Hthird.
  destruct (fold_left Extractor.marker_step added ([], false)) as [result flag].
  destruct Hthird as (_ & _ & Hm & Hc & HP & He). cbn [fst snd] in *.
  exists result. split; [reflexivity |].
  assert (Hsub' : content_lines result `sublist_of` lines).
  { rewrite Hc. exact Hsub. }
  split; [apply HP, Hem |]. split; [apply He, Hne |].
  split; [exact Hm |]. split; [exact Hsub' |].
  apply Forall_forall. intros l Hl.
  destruct (content_lines_elem result l Hl) as [-> | [-> | Hin]].
  - apply Forall_nil_2.
  - apply marker_free.
  - pose proof (split_on_free text) as Hfree.
    rewrite Forall_forall in Hfree. apply Hfree.
    apply (elem_of_sublist _ _ _ Hin Hsub').
Qed.

(** The lines of a joined text. *)
Lemma lines_of_join (ls : list str) :
  Forall nl_free ls →
  split_on nl (join nl ls) = ls ∨ (ls = [] ∧ split_on nl (join nl ls) = [[]]).
Proof.
  intros Hfree. destruct ls as [|l ls]; [right; split; reflexivity |].
  left. apply split_join; [discriminate | exact Hfree].
Qed.

Lemma seen_lines_lookup (lines : list str) (t : str) :
  default 0 (fold_left Extractor.count_line lines ∅ !! t)
  = tracked_occurrences t lines.
Proof.
  change Extractor.count_line with TextCleaner.count_line.
  rewrite count_lines_lookup, lookup_empty. reflexivity.
Qed.

Lemma is_repeated_tracked (lines : list str) (t : str) :
  Extractor.is_repeated (fold_left Extractor.count_line lines ∅) t = true
  ↔ 3 ≤ tracked_occurrences t lines.
Proof.
  unfold Extractor.is_repeated. rewrite seen_lines_lookup, andb_true_iff.
  rewrite Z.leb_le. split; [tauto |].
  intros H. split; [| exact H].
  apply truthy_len. destruct (tracked_occurrences_pos t lines); lia.
Qed.

Lemma is_numeric_garbage_strip (l : str) :
  Extractor.is_numeric_garbage (strip l) = Extractor.is_numeric_garbage l.
Proof. unfold Extractor.is_numeric_garbage. rewrite strip_idem. reflexivity. Qed.

(** X6. The output of [clean_extracted_text] never contains three
    consecutive newline characters, no two adjacent lines of it are both
    empty, and no two adjacent lines are both "[numeric data removed]". *)
Theorem fresh_extraction_spacing (text : str) :
  ∃ out,
    Extractor.clean_extracted_text text = Ret out
    ∧ ¬ has_blank_run out
    ∧ no_twice [] (split_on nl out)
    ∧ no_twice Extractor.numeric_data_removed (split_on nl out).
Proof.
  destruct (fresh_extraction_lines text)
    as (result & Hout & _ & He & Hm & _ & Hfree).
  exists (join nl result). split; [exact Hout |].
  split; [apply nl_ok_sound, nl_ok_join0, well_spaced_no_twice; assumption |].
  destruct (lines_of_join result Hfree) as [-> | [_ ->]].
  - split; assumption.
  - split; split; exact I.
Qed.

(** The lines that [clean_extracted_text] keeps. *)
Lemma fresh_extraction_kept (text : str) :
  ∃ out,
    Extractor.clean_extracted_text text = Ret out
    ∧ Forall (λ l,
        l = [] ∨ l = Extractor.numeric_data_removed
        ∨ (l ∈ split_on nl text
           ∧ truthy (strip l) = true
           ∧ tracked_occurrences (strip l) (split_on nl text) < 3
           ∧ Extractor.is_page_line (strip l) = false
           ∧ Extractor.is_numeric_garbage l = Ret false))
      (split_on nl out)
    ∧ (∀ t, 3 ≤ tracked_occurrences t (split_on nl text) →
            t ≠ Extractor.numeric_data_removed →
            Forall (λ l, strip l ≠ t) (split_on nl out)).
Proof.
  destruct (fresh_extraction_lines text)
    as (result & Hout & Hem & _ & _ & Hsub & Hfree).
  exists (join nl result). split; [exact Hout |].
  assert (Hlines : Forall (λ l,
        l = [] ∨ l = Extractor.numeric_data_removed
        ∨ (l ∈ split_on nl text
           ∧ truthy (strip l) = true
           ∧ tracked_occurrences (strip l) (split_on nl text) < 3
           ∧ Extractor.is_page_line (strip l) = false
           ∧ Extractor.is_numeric_garbage l = Ret false))
      (split_on nl (join nl result))).
  { destruct (lines_of_join result Hfree) as [-> | [_ ->]].
    - apply Forall_forall. intros l Hl.
      rewrite Forall_forall in Hem.
      destruct (content_lines_elem result l Hl) as [-> | [-> | Hin]]; [tauto.. |].
      destruct (Hem l Hl) as [-> | [-> | (Hs & Hg & Ht)]]; [tauto.. |].
      right. right.
      unfold skipped in Hs. apply orb_false_iff in Hs as [Hrep Hpage].
      split; [apply (elem_of_sublist _ _ _ Hin Hsub) |].
      split; [exact Ht |]. split.
      + destruct (Z.lt_ge_cases
                    (tracked_occurrences (strip l) (split_on nl text)) 3)
          as [|Hge]; [assumption |].
        apply is_repeated_tracked in Hge. congruence.
      + split; [exact Hpage |]. rewrite <- is_numeric_garbage_strip. exact Hg.
    - apply Forall_cons_2; [left; reflexivity | apply Forall_nil_2]. }
  split; [exact Hlines |].
  intros t Ht Hnm. eapply Forall_impl; [exact Hlines |].
  intros l [-> | [-> | (_ & _ & Hlt & _)]] E.
  - rewrite strip_nil in E. subst t.
    destruct (tracked_occurrences_pos [] (split_on nl text)) as [_ H]; [lia |].
    unfold len in H. simpl in H. lia.
  - apply Hnm. rewrite <- E. vm_compute. reflexivity.
  - rewrite E in Hlt. lia.
Qed.

(** X7. Every line of the output of [clean_extracted_text] is empty, or
    the placeholder "[numeric data removed]", or a line of the input that
    is not blank, whose trimmed content has fewer than 3 tracked occurrences,
    is not a page-number line and is not numeric garbage.  In particular a
    content with 3 or more tracked occurrences, other than the text of the
    placeholder itself, never appears in the output, headings included:
    this path has no heading exemption.  The placeholder is the exception:
    when "[numeric data removed]" stands on three lines of the input,
    these are skipped, and the placeholder that a run of three numeric
    lines produces is in the output all the same. *)
Theorem fresh_extraction_lines_kept :
  (∀ text,
     ∃ out,
       Extractor.clean_extracted_text text = Ret out
       ∧ Forall (λ l,
           l = [] ∨ l = Extractor.numeric_data_removed
           ∨ (l ∈ split_on nl text
              ∧ truthy (strip l) = true
              ∧ tracked_occurrences (strip l) (split_on nl text) < 3
              ∧ Extractor.is_page_line (strip l) = false
              ∧ Extractor.is_numeric_garbage l = Ret false))
         (split_on nl out)
       ∧ (∀ t, 3 ≤ tracked_occurrences t (split_on nl text) →
               t ≠ Extractor.numeric_data_removed →
               Forall (λ l, strip l ≠ t) (split_on nl out)))
  ∧ tracked_occurrences Extractor.numeric_data_removed
      (split_on nl placeholder_then_numbers) = 3
  ∧ Extractor.clean_extracted_text placeholder_then_numbers
    = Ret Extractor.numeric_data_removed.
Proof.
  split; [exact fresh_extraction_kept |].
  split; vm_compute; reflexivity.
Qed.

Lemma fresh_extraction_lines_kept_witness :
  ∃ out,
    Extractor.clean_extracted_text
      (join nl [lit "# T"; lit "a"; lit "# T"; lit "b"; lit "# T"]) = Ret out
    ∧ Forall (λ l, strip l ≠ lit "# T") (split_on nl out).
Proof.
  destruct (proj1 fresh_extraction_lines_kept
              (join nl [lit "# T"; lit "a"; lit "# T"; lit "b"; lit "# T"]))
    as (out & Hout & _ & Hrep).
  exists out. split; [exact Hout |].
  apply Hrep; [vm_compute; discriminate | discriminate].
Defined.

(** X8. [clean_extracted_text] keeps lines in their order and invents
    none: the lines of its output other than empty lines and placeholders
    form a subsequence of the lines of the input. *)
Theorem fresh_extraction_order (text : str) :
  ∃ out,
    Extractor.clean_extracted_text text = Ret out
    ∧ content_lines (split_on nl out) `sublist_of` split_on nl text.
Proof.
  destruct (fresh_extraction_lines text)
    as (result & Hout & _ & _ & _ & Hsub & Hfree).
  exists (join nl result). split; [exact Hout |].
  destruct (lines_of_join result Hfree) as [-> | [_ ->]]; [exact Hsub |].
  rewrite content_lines_special by (left; reflexivity). apply sublist_nil_l.
Qed.

(** ** The collapse pass *)

Lemma collapse_step_content_lines st (line : str) :
  List.filter is_content (TextCleaner.result (TextCleaner.collapse_step st line))
  = List.filter is_content (TextCleaner.result st)
    ++ List.filter is_content [line].
Proof.
  assert (Hc : is_content line
               = negb (is_removed_marker line) && truthy (strip line))
    by reflexivity.
  assert (Hl : List.filter is_content [line]
               = if is_content line then [line] else []) by reflexivity.
  unfold TextCleaner.collapse_step. fold (is_removed_marker line).
  destruct (is_removed_marker line) eqn:Hm.
  - cbn [negb andb] in Hc. rewrite Hc in Hl. rewrite Hl, app_nil_r.
    destruct (negb (TextCleaner.prev_was_removed st));
      cbn [TextCleaner.result]; [| reflexivity].
    rewrite List.filter_app, Hl, app_nil_r. reflexivity.
  - destruct (truthy (strip line)) eqn:Ht; cbn [negb andb] in Hc |- *.
    + cbn [TextCleaner.result]. apply List.filter_app.
    + rewrite Hc in Hl. rewrite Hl, app_nil_r.
      destruct (_ && _); cbn [TextCleaner.result]; [| reflexivity].
      rewrite List.filter_app. cbn [List.filter].
      change (is_content []) with false. apply app_nil_r.
Qed.

Lemma collapse_fold_content_lines (lines : list str) : ∀ st,
  List.filter is_content
    (TextCleaner.result (fold_left TextCleaner.collapse_step lines st))
  = List.filter is_content (TextCleaner.result st)
    ++ List.filter is_content lines.
Proof.
  induction lines as [|line lines IH]; intros st.
  - rewrite app_nil_r. reflexivity.
  - cbn [fold_left]. rewrite IH, collapse_step_content_lines.
    rewrite <- app_assoc, <- List.filter_app. reflexivity.
Qed.

(** X9. The collapse pass drops blank lines and placeholders only: the
    lines of its output that are neither blank nor placeholders are
    exactly those of its input, unchanged and in the same order. *)
Theorem collapse_keeps_content (text : str) :
  List.filter is_content (split_on nl (TextCleaner.collapse_removed_lines text))
  = List.filter is_content (split_on nl text).
Proof.
  unfold TextCleaner.collapse_removed_lines.
  pose proof (collapse_well_spaced text) as Hws.
  pose proof (collapse_fold_content_lines (split_on nl text)
                (TextCleaner.Collapse [] false false)) as Hc.
  cbn [TextCleaner.result List.filter app] in Hc.
  destruct (lines_of_join _ (well_spaced_free _ Hws)) as [-> | [E ->]].
  - exact Hc.
  - rewrite E in Hc. rewrite <- Hc. reflexivity.
Qed.

(** X10. A blank line between two placeholders is dropped without the
    placeholders being merged, so the collapse pass can leave two
    placeholders on adjacent lines; run again on its own output it merges
    them.  The pass is not idempotent. *)
Theorem collapse_blank_between_markers (r1 r2 : str) :
  nl_free r1 → nl_free r2 →
  is_removed_marker r1 = true → is_removed_marker r2 = true →
  TextCleaner.collapse_removed_lines (r1 ++ [nl; nl] ++ r2) = r1 ++ [nl] ++ r2
  ∧ TextCleaner.collapse_removed_lines (r1 ++ [nl] ++ r2) = r1
  ∧ TextCleaner.collapse_removed_lines
      (TextCleaner.collapse_removed_lines (r1 ++ [nl; nl] ++ r2))
    ≠ TextCleaner.collapse_removed_lines (r1 ++ [nl; nl] ++ r2).
Proof.
  intros H1 H2 Hm1 Hm2.
  assert (E1 : TextCleaner.collapse_removed_lines (r1 ++ [nl; nl] ++ r2)
               = r1 ++ [nl] ++ r2).
  { unfold TextCleaner.collapse_removed_lines.
    assert (Hs : split_on nl (r1 ++ [nl; nl] ++ r2) = [r1; []; r2]).
    { simpl app. rewrite split_on_app_free by exact H1.
      change (nl :: r2) with ([] ++ nl :: r2).
      rewrite split_on_app_free by apply Forall_nil_2.
      rewrite split_on_free_id by exact H2. reflexivity. }
    rewrite Hs. cbn [fold_left].
    rewrite (collapse_step_marker _ r1 Hm1).
    cbn [TextCleaner.prev_was_removed TextCleaner.prev_was_empty
         TextCleaner.result negb andb app].
    rewrite collapse_step_empty.
    cbn [TextCleaner.prev_was_removed TextCleaner.prev_was_empty
         TextCleaner.result negb andb app].
    rewrite (collapse_step_marker _ r2 Hm2).
    cbn [TextCleaner.prev_was_removed TextCleaner.prev_was_empty
         TextCleaner.result negb andb app].
    rewrite join_cons. reflexivity. }
  assert (E2 : TextCleaner.collapse_removed_lines (r1 ++ [nl] ++ r2) = r1).
  { unfold TextCleaner.collapse_removed_lines.
    assert (Hs : split_on nl (r1 ++ [nl] ++ r2) = [r1; r2]).
    { simpl app. rewrite split_on_app_free by exact H1.
      rewrite split_on_free_id by exact H2. reflexivity. }
    rewrite Hs. cbn [fold_left].
    rewrite (collapse_step_marker _ r1 Hm1).
    cbn [TextCleaner.prev_was_removed TextCleaner.prev_was_empty
         TextCleaner.result negb andb app].
    rewrite (collapse_step_marker _ r2 Hm2).
    cbn [TextCleaner.prev_was_removed TextCleaner.prev_was_empty
         TextCleaner.result negb andb app].
    reflexivity. }
  split; [exact E1 |]. split; [exact E2 |].
  rewrite E1, E2. intros E.
  apply (f_equal (@length ascii)) in E. rewrite length_app in E.
  simpl in E. lia.
Qed.

Lemma collapse_blank_between_markers_witness :
  TextCleaner.collapse_removed_lines
    (TextCleaner.pixel_data_removed ++ [nl; nl] ++ TextCleaner.content_removed)
  = TextCleaner.pixel_data_removed ++ [nl] ++ TextCleaner.content_removed.
Proof.
  apply (collapse_blank_between_markers
           TextCleaner.pixel_data_removed TextCleaner.content_removed).
  - unfold nl_free. apply Forall_forall. intros c Hc.
    apply list_elem_of_In in Hc. vm_compute in Hc.
    intros ->. repeat (destruct Hc as [Hc | Hc]; [discriminate Hc |]). exact Hc.
  - apply content_removed_free.
  - vm_compute. reflexivity.
  - vm_compute. reflexivity.
Defined.

(** ** Lengths *)

Lemma rep_consumes {R} (p : ascii → bool) (s : str) :
  ∀ (n : nat) prev (k : option ascii → str → option R) x,
    rep p n prev s k = Some x →
    ∃ prev' a s', s = a ++ s' ∧ k prev' s' = Some x ∧ (n ≤ length a)%nat.
Proof.
  induction s as [|c s IH]; intros n prev k x H.
  - destruct n; [| discriminate H].
    exists prev, [], []. split; [reflexivity |]. split; [exact H | simpl; lia].
  - cbn [rep] in H. destruct (p c).
    + destruct (rep p (Nat.pred n) (Some c) s k) as [y|] eqn:Hr.
      * injection H as ->. apply IH in Hr as (prev' & a & s' & -> & Hk & Hl).
        exists prev', (c :: a), s'. split; [reflexivity |].
        split; [exact Hk | simpl; lia].
      * destruct n; [| discriminate H].
        exists prev, [], (c :: s). split; [reflexivity |].
        split; [exact H | simpl; lia].
    + destruct n; [| discriminate H].
      exists prev, [], (c :: s). split; [reflexivity |].
      split; [exact H | simpl; lia].
Qed.

Lemma exec_consumes {R} fl (r : regex) :
  ∀ prev (s : str) (k : option ascii → str → option R) x,
    exec fl r prev s k = Some x →
    ∃ prev' a s', s = a ++ s' ∧ k prev' s' = Some x ∧ (min_len r ≤ length a)%nat.
Proof.
  induction r as [| c | p | r1 IH1 r2 IH2 | r1 IH1 r2 IH2 | p n | |];
    intros prev s k x H; cbn [exec min_len] in *.
  - exists prev, [], s. split; [reflexivity |]. split; [exact H | simpl; lia].
  - destruct s as [|a s]; [discriminate H |].
    destruct (chr_eq fl c a); [| discriminate H].
    exists (Some a), [a], s. split; [reflexivity |]. split; [exact H | simpl; lia].
  - destruct s as [|a s]; [discriminate H |].
    destruct (p a); [| discriminate H].
    exists (Some a), [a], s. split; [reflexivity |]. split; [exact H | simpl; lia].
  - apply IH1 in H as (p1 & a1 & s1 & -> & H & Hl1).
    apply IH2 in H as (p2 & a2 & s2 & -> & H & Hl2).
    exists p2, (a1 ++ a2), s2. split; [apply app_assoc |].
    split; [exact H | rewrite length_app; lia].
  - destruct (exec fl r1 prev s k) as [y|] eqn:H1.
    + injection H as ->. apply IH1 in H1 as (p1 & a1 & s1 & -> & H & Hl).
      exists p1, a1, s1. split; [reflexivity |]. split; [exact H | lia].
    + apply IH2 in H as (p2 & a2 & s2 & -> & H & Hl).
      exists p2, a2, s2. split; [reflexivity |]. split; [exact H | lia].
  - apply rep_consumes in H. exact H.
  - destruct (at_bol fl prev); [| discriminate H].
    exists prev, [], s. split; [reflexivity |]. split; [exact H | simpl; lia].
  - destruct (at_eol fl s); [| discriminate H].
    exists prev, [], s. split; [reflexivity |]. split; [exact H | simpl; lia].
Qed.

(** A match is a piece of the text, at least [min_len r] long. *)
Lemma match_at_piece fl (r : regex) prev (s rest : str) :
  match_at fl r prev s = Some rest →
  ∃ a, s = a ++ rest ∧ (min_len r ≤ length a)%nat.
Proof.
  unfold match_at. intros H.
  apply exec_consumes in H as (prev' & a & s' & -> & [= ->] & Hl).
  exists a. split; [reflexivity | exact Hl].
Qed.

Lemma match_at_consumes fl (r : regex) prev (s rest : str) :
  match_at fl r prev s = Some rest →
  (length rest + min_len r ≤ length s)%nat.
Proof.
  intros H. apply match_at_piece in H as (a & -> & Hl).
  rewrite length_app. lia.
Qed.

(** A substitution whose replacement is no longer than the shortest match
    does not lengthen the text. *)
Lemma scan_subst_len fl (r : regex) (repl : str) :
  (length repl ≤ min_len r)%nat →
  ∀ (s : str) prev (skip : nat),
    (skip ≤ length s)%nat →
    (length (flat_map (subst_seg repl) (scan fl r prev s skip)) + skip
     ≤ length s)%nat.
Proof.
  intros Hrepl. induction s as [|c s IH]; intros prev skip Hskip.
  - destruct skip; [| simpl in Hskip; lia]. cbn [scan].
    destruct (match_at fl r prev []) as [rest|] eqn:Hm; [| simpl; lia].
    apply match_at_consumes in Hm. simpl in *.
    rewrite app_nil_r. lia.
  - destruct skip as [|n].
    + cbn [scan].
      destruct (match_at fl r prev (c :: s)) as [rest|] eqn:Hm.
      * apply match_at_consumes in Hm.
        pose proof (length_firstn (length (c :: s) - length rest) (c :: s)) as Hf.
        destruct (firstn (length (c :: s) - length rest) (c :: s))
          as [|c' m'] eqn:Em.
        -- cbn [flat_map subst_seg]. rewrite !length_app.
           specialize (IH (Some c) 0%nat ltac:(lia)).
           simpl in *. lia.
        -- cbn [flat_map subst_seg]. rewrite length_app.
           specialize (IH (Some c) (length m') ltac:(simpl in *; lia)).
           simpl in *. lia.
      * cbn [flat_map subst_seg]. rewrite length_app.
        specialize (IH (Some c) 0%nat ltac:(lia)). simpl in *. lia.
    + cbn [scan]. specialize (IH (Some c) n ltac:(simpl in Hskip; lia)).
      simpl. lia.
Qed.

Lemma re_sub_len fl (r : regex) (repl s : str) :
  (length repl ≤ min_len r)%nat → len (re_sub fl r repl s) ≤ len s.
Proof.
  intros Hrepl. unfold re_sub, len.
  pose proof (scan_subst_len fl r repl Hrepl s None 0%nat ltac:(lia)) as H.
  change (λ g : seg, match g with Match _ => repl | Text c => [c] end)
    with (subst_seg repl).
  lia.
Qed.

Lemma matches_subst_len (repl : str) (segs : list seg) :
  (length (List.filter is_match segs) * length repl
   ≤ length (flat_map (subst_seg repl) segs))%nat.
Proof.
  induction segs as [|g segs IH]; [simpl; lia |].
  cbn [List.filter flat_map]. rewrite length_app.
  destruct g as [c | m]; cbn [is_match subst_seg length]; lia.
Qed.

(** The matches that [re.findall] returns do not overlap: [n] matches of a
    pattern take [n] times the length of its shortest match. *)
Lemma findall_count_len fl (r : regex) (s : str) :
  findall_count fl r s * Z.of_nat (min_len r) ≤ len s.
Proof.
  unfold findall_count, len.
  pose proof (scan_subst_len fl r (repeat nl (min_len r))
                ltac:(rewrite repeat_length; lia) s None 0%nat ltac:(lia)) as H.
  pose proof (matches_subst_len (repeat nl (min_len r)) (scan fl r None s 0)) as H'.
  rewrite repeat_length in H'. nia.
Qed.

Lemma rep_zero_some (p : ascii → bool) (s : str) : ∀ prev,
  rep p 0 prev s (λ _ r, Some r) ≠ None.
Proof.
  induction s as [|c s IH]; intros prev; cbn [rep]; [discriminate |].
  destruct (p c); [| discriminate].
  destruct (rep p (Nat.pred 0) (Some c) s (λ _ r, Some r)); discriminate.
Qed.

(** A repetition takes the whole run: what is left after it cannot
    continue it. *)
Lemma rep_greedy (p : ascii → bool) (s : str) : ∀ n prev rest,
  rep p n prev s (λ _ r, Some r) = Some rest → stops p rest.
Proof.
  induction s as [|c s IH]; intros n prev rest H.
  - destruct n; [| discriminate H]. injection H as <-. exact I.
  - cbn [rep] in H. destruct (p c) eqn:Hc.
    + destruct (rep p (Nat.pred n) (Some c) s (λ _ r, Some r)) as [y|] eqn:Hr.
      * injection H as ->. exact (IH _ _ _ Hr).
      * destruct n; [| discriminate H].
        destruct (rep_zero_some p s (Some c) Hr).
    + destruct n; [| discriminate H]. injection H as <-. exact Hc.
Qed.

(** When no match can start where a match has ended, two matches are one
    character apart at least. *)
Lemma scan_gap_count fl (r : regex) :
  (1 ≤ min_len r)%nat →
  (∀ prev s rest, match_at fl r prev s = Some rest →
     rest = [] ∨ ∀ prev', match_at fl r prev' rest = None) →
  ∀ (n : nat) (s : str) prev,
    (length s ≤ n)%nat →
    (S (min_len r) * length (List.filter is_match (scan fl r prev s 0))
     ≤ length s + 1)%nat.
Proof.
  intros Hmin Hsep.
  assert (Hnil : ∀ prev, scan fl r prev [] 0 = []).
  { intros prev. cbn [scan].
    destruct (match_at fl r prev []) as [rest|] eqn:Hm; [| reflexivity].
    apply match_at_consumes in Hm. simpl in Hm. lia. }
  induction n as [|n IH]; intros s prev Hn.
  { destruct s; [| simpl in Hn; lia]. rewrite Hnil. simpl. lia. }
  destruct (match_at fl r prev s) as [rest|] eqn:Hm.
  - destruct (match_at_piece _ _ _ _ _ Hm) as (a & -> & Hl).
    destruct a as [|c a]; [simpl in Hl; lia |].
    rewrite scan_match by exact Hm.
    cbn [List.filter is_match length]. rewrite !length_app. cbn [length] in *.
    rewrite length_app in Hn.
    destruct rest as [|c2 rest2].
    + rewrite Hnil. simpl. lia.
    + destruct (Hsep _ _ _ Hm) as [E | Hno]; [discriminate E |].
      rewrite scan_step by apply Hno.
      cbn [List.filter is_match length] in *.
      specialize (IH rest2 (Some c2) ltac:(lia)). nia.
  - destruct s as [|c s]; [rewrite Hnil; simpl; lia |].
    rewrite scan_step by exact Hm.
    cbn [List.filter is_match length] in *.
    specialize (IH s (Some c) ltac:(lia)). lia.
Qed.

Lemma hex_match_separated prev (s rest : str) :
  match_at no_flags TextCleaner.hex_re prev s = Some rest →
  rest = [] ∨ ∀ prev', match_at no_flags TextCleaner.hex_re prev' rest = None.
Proof.
  unfold match_at.
  change TextCleaner.hex_re
    with (Seq (Seq (Chr "0") (Chr "x")) (Rep TextCleaner.ishex 2)).
  cbn [exec].
  destruct s as [|c0 s]; [discriminate |].
  destruct (chr_eq no_flags "0" c0); [| discriminate].
  destruct s as [|c1 s]; [discriminate |].
  destruct (chr_eq no_flags "x" c1); [| discriminate].
  intros H. apply rep_greedy in H.
  destruct rest as [|c rest]; [left; reflexivity |].
  right. intros prev'. cbn [exec].
  destruct (chr_eq no_flags "0" c) eqn:E; [| reflexivity].
  apply eqc_true in E. subst c. discriminate H.
Qed.

Lemma pixel_sequence_len (t : str) :
  TextCleaner.contains_pixel_sequence t = true → 35 ≤ len t.
Proof.
  unfold TextCleaner.contains_pixel_sequence. intros H. apply Z.leb_le in H.
  pose proof (findall_count_len no_flags TextCleaner.pixel_re t) as Hc.
  change (Z.of_nat (min_len TextCleaner.pixel_re)) with 7 in Hc. lia.
Qed.

Lemma hex_sequence_len (t : str) :
  TextCleaner.contains_hex_sequence t = true → 19 ≤ len t.
Proof.
  unfold TextCleaner.contains_hex_sequence, findall_count, len.
  intros H. apply Z.leb_le in H.
  pose proof (scan_gap_count no_flags TextCleaner.hex_re
                ltac:(simpl; lia) hex_match_separated
                (length t) t None ltac:(lia)) as Hc.
  change (min_len TextCleaner.hex_re) with 4%nat in Hc. lia.
Qed.

Lemma is_data_dump_len (t : str) :
  TextCleaner.is_data_dump t = Ret true → 300 < len t.
Proof.
  unfold TextCleaner.is_data_dump.
  destruct (Z.ltb_spec 300 (len t)); [intros _; assumption | discriminate].
Qed.

Lemma is_spaceless_len (line : str) :
  TextCleaner.is_spaceless line = Ret true → 500 < len line.
Proof.
  unfold TextCleaner.is_spaceless.
  destruct (Z.ltb_spec 500 (len line)); [intros _; assumption | discriminate].
Qed.

Lemma repetitive_len (line : str) :
  TextCleaner.repetitive line = Ret true → 500 < len line.
Proof.
  unfold TextCleaner.repetitive.
  destruct (Z.ltb_spec 500 (len line)); [intros _; assumption | discriminate].
Qed.

Lemma is_single_long_word_len (line : str) :
  TextCleaner.is_single_long_word line = true → 200 < len line.
Proof.
  unfold TextCleaner.is_single_long_word. intros H.
  apply andb_true_iff in H as [H _]. apply Z.ltb_lt in H. exact H.
Qed.

(** The length of the result of [clean_line]. *)
Lemma clean_line_len_cases (line : str) (repeated_lines : gset str) :
  ∃ out,
    TextCleaner.clean_line line repeated_lines = Ret out
    ∧ (len out ≤ len line
       ∨ (out = TextCleaner.address_data_removed ∧ 19 ≤ len line < 22))
    ∧ len out ≤ len line + 3.
Proof.
  assert (Hc : len TextCleaner.content_removed = 17) by reflexivity.
  assert (Hd : len TextCleaner.data_removed = 14) by reflexivity.
  assert (Hp : len TextCleaner.pixel_data_removed = 20) by reflexivity.
  assert (Ha : len TextCleaner.address_data_removed = 22) by reflexivity.
  assert (H0 : 0 ≤ len line) by (unfold len; lia).
  pose proof (strip_len line) as Hs.
  unfold TextCleaner.clean_line.
  destruct (negb _); [exists []; split; [reflexivity | change (len []) with 0; lia] |].
  destruct (Z.ltb_spec 2000 (len line));
    [eexists; split; [reflexivity | lia] |].
  destruct (TextCleanerTotal.is_dropped_repeat_ret (strip line) repeated_lines)
    as [d ->]. cbn [bind].
  destruct d; [exists []; split; [reflexivity | change (len []) with 0; lia] |].
  destruct (TextCleaner.is_page_number_line _);
    [exists []; split; [reflexivity | change (len []) with 0; lia] |].
  destruct (TextCleaner.is_contact_footer _);
    [exists []; split; [reflexivity | change (len []) with 0; lia] |].
  destruct (TextCleanerTotal.is_data_dump_ret (strip line)) as [d Hdump].
  rewrite Hdump. cbn [bind].
  destruct d.
  { apply is_data_dump_len in Hdump. eexists; split; [reflexivity | lia]. }
  destruct (TextCleaner.contains_pixel_sequence _) eqn:Hpix.
  { apply pixel_sequence_len in Hpix. eexists; split; [reflexivity | lia]. }
  destruct (TextCleaner.contains_hex_sequence _) eqn:Hhex.
  { apply hex_sequence_len in Hhex. eexists; split; [reflexivity |].
    destruct (Z.lt_ge_cases (len line) 22); [| lia].
    split; [right; split; [reflexivity | lia] | lia]. }
  destruct (TextCleaner.is_calibration_data_line _) eqn:Hcal.
  { apply calibration_needs_pixels in Hcal. congruence. }
  destruct (TextCleanerTotal.is_spaceless_ret line) as [d Hsp].
  rewrite Hsp. cbn [bind].
  destruct d.
  { apply is_spaceless_len in Hsp. eexists; split; [reflexivity | lia]. }
  destruct (TextCleaner.is_single_long_word _) eqn:Hw.
  { apply is_single_long_word_len in Hw. eexists; split; [reflexivity | lia]. }
  destruct (TextCleanerTotal.repetitive_ret line) as [b Hrep].
  rewrite Hrep. cbn [bind].
  destruct b.
  { apply repetitive_len in Hrep. eexists; split; [reflexivity | lia]. }
  exists line. split; [reflexivity | lia].
Qed.

(** X11. [clean_line] lengthens a line in one case only: a line of 19 to 21
    characters that it replaces by "[address data removed]".  Every other
    result is at most as long as the line, so a result is never more than
    3 characters longer than the line; the line "0x00 0x00 0x00 0x00" of 19
    characters gives these 3. *)
Theorem clean_line_length :
  (∀ (line : str) (repeated_lines : gset str), ∃ out,
     TextCleaner.clean_line line repeated_lines = Ret out
     ∧ (len out ≤ len line
        ∨ (out = TextCleaner.address_data_removed ∧ 19 ≤ len line < 22))
     ∧ len out ≤ len line + 3)
  ∧ TextCleaner.clean_line (lit "0x00 0x00 0x00 0x00") ∅
    = Ret TextCleaner.address_data_removed
  ∧ len TextCleaner.address_data_removed = len (lit "0x00 0x00 0x00 0x00") + 3.
Proof.
  split; [exact clean_line_len_cases |]. split; vm_compute; reflexivity.
Qed.

Lemma join_length (c : ascii) (ls : list str) :
  length (join c ls) = (total_len ls - 1)%nat.
Proof.
  induction ls as [|l ls IH]; [reflexivity |].
  destruct ls as [|l' ls]; [simpl; lia |].
  rewrite join_cons, length_app. cbn [length]. rewrite IH.
  cbn [total_len]. lia.
Qed.

Lemma total_len_app (l1 l2 : list str) :
  total_len (l1 ++ l2) = (total_len l1 + total_len l2)%nat.
Proof. induction l1 as [|l l1 IH]; simpl; lia. Qed.

Lemma collapse_step_len st (line : str) :
  (total_len (TextCleaner.result (TextCleaner.collapse_step st line))
   ≤ total_len (TextCleaner.result st) + S (length line))%nat.
Proof.
  unfold TextCleaner.collapse_step.
  repeat match goal with
         | |- context [if ?b then _ else _] => destruct b
         end;
    cbn [TextCleaner.result]; rewrite ?total_len_app; simpl; lia.
Qed.

Lemma collapse_fold_len (lines : list str) : ∀ st,
  (total_len (TextCleaner.result (fold_left TextCleaner.collapse_step lines st))
   ≤ total_len (TextCleaner.result st) + total_len lines)%nat.
Proof.
  induction lines as [|line lines IH]; intros st; [simpl; lia |].
  cbn [fold_left total_len].
  pose proof (IH (TextCleaner.collapse_step st line)).
  pose proof (collapse_step_len st line). lia.
Qed.

(** The collapse pass does not lengthen a text. *)
Lemma collapse_len (text : str) :
  len (TextCleaner.collapse_removed_lines text) ≤ len text.
Proof.
  unfold TextCleaner.collapse_removed_lines, len.
  rewrite join_length.
  pose proof (collapse_fold_len (split_on nl text)
                (TextCleaner.Collapse [] false false)) as H.
  cbn [TextCleaner.result total_len] in H.
  rewrite <- (join_split nl text) at 2. rewrite join_length. lia.
Qed.

Lemma slice_len (i j : Z) (s : str) : len (slice i j s) ≤ len s.
Proof.
  unfold slice, len. rewrite length_firstn, length_skipn. lia.
Qed.

Lemma unwrap_fence_len (cleaned : str) :
  len (TextCleaner.unwrap_fence cleaned) ≤ len cleaned.
Proof.
  unfold TextCleaner.unwrap_fence.
  repeat match goal with
         | |- context [if ?b then _ else _] => destruct b
         end;
    try lia;
    (etransitivity; [apply strip_len | apply slice_len]).
Qed.

Lemma remove_page_breaks_len (text : str) :
  len (TextCleaner.remove_page_breaks text) ≤ len text.
Proof.
  unfold TextCleaner.remove_page_breaks.
  etransitivity; [apply re_sub_len | apply re_sub_len]; simpl; lia.
Qed.

Lemma mapM_Forall2 {A B} (f : A → py B) (l : list A) : ∀ bs,
  mapM f l = Ret bs → Forall2 (λ a b, f a = Ret b) l bs.
Proof.
  induction l as [|a l IH]; intros bs H.
  - injection H as <-. constructor.
  - cbn [mapM] in H. destruct (f a) as [b|] eqn:Ha; [| discriminate H].
    cbn [bind] in H. destruct (mapM f l) as [bs'|]; [| discriminate H].
    injection H as <-. constructor; [exact Ha | apply IH; reflexivity].
Qed.

Lemma join_len_ratio (lines outs : list str) :
  Forall2 (λ a b : str, 19 * len b ≤ 22 * len a) lines outs →
  19 * len (join nl outs) ≤ 22 * len (join nl lines).
Proof.
  induction 1 as [| a b lines outs Hab Hrest IH]; [reflexivity |].
  destruct Hrest as [| a' b' lines outs Hab' Hrest]; [exact Hab |].
  rewrite !join_cons. unfold len in *.
  rewrite !length_app. cbn [length]. lia.
Qed.

(** The output of [clean_text] is at most 22/19 times as long as its
    input. *)
Lemma clean_text_len (text : str) :
  ∃ out, TextCleaner.clean_text text = Ret out ∧ 19 * len out ≤ 22 * len text.
Proof.
  unfold TextCleaner.clean_text.
  set (cleaned := TextCleaner.unwrap_fence (strip text)).
  set (repeated_lines := TextCleaner.find_repeated_lines (split_on nl cleaned)).
  destruct (TextCleanerTotal.mapM_ret
              (λ line, TextCleaner.clean_line line repeated_lines)
              (split_on nl cleaned)) as [outs Houts].
  { intros a. apply TextCleanerTotal.clean_line_ret. }
  rewrite Houts. cbn [bind]. eexists. split; [reflexivity |].
  apply mapM_Forall2 in Houts.
  assert (Hratio : 19 * len (join nl outs) ≤ 22 * len cleaned).
  { replace (len cleaned) with (len (join nl (split_on nl cleaned)))
      by (rewrite join_split; reflexivity).
    apply join_len_ratio.
    eapply Forall2_impl; [exact Houts |].
    intros a b Hab. cbn beta in Hab.
    destruct (clean_line_len_cases a repeated_lines) as (out & Hout & Hcase & _).
    rewrite Hab in Hout. injection Hout as <-.
    assert (0 ≤ len b) by (unfold len; lia).
    destruct Hcase as [Hle | [-> Hlen]]; [lia |].
    change (len TextCleaner.address_data_removed) with 22. lia. }
  pose proof (strip_len text).
  pose proof (unwrap_fence_len (strip text)). fold cleaned in H0.
  pose proof (remove_page_breaks_len (join nl outs)).
  pose proof (collapse_len (TextCleaner.remove_page_breaks (join nl outs))).
  pose proof (re_sub_len no_flags TextCleaner.newlines_re [nl; nl; nl]
                (TextCleaner.collapse_removed_lines
                   (TextCleaner.remove_page_breaks (join nl outs)))
                ltac:(simpl; lia)).
  pose proof (strip_len
                (re_sub no_flags TextCleaner.newlines_re [nl; nl; nl]
                   (TextCleaner.collapse_removed_lines
                      (TextCleaner.remove_page_breaks (join nl outs))))).
  lia.
Qed.

(** X12. The handler of [POST /clean] answers every text.  The two lengths
    it reports are those of the text and of the cleaned text; the cleaned
    length is at most 22/19 of the original length, and it can exceed the
    original length: the text "0x00 0x00 0x00 0x00" of 19 characters is
    answered with 22. *)
Theorem clean_endpoint_lengths :
  (∀ text : str, ∃ resp,
     Main.clean_existing_text text = Ret resp
     ∧ TextCleaner.clean_text text = Ret (Main.cleaned_text resp)
     ∧ Main.original_length resp = len text
     ∧ Main.cleaned_length resp = len (Main.cleaned_text resp)
     ∧ 19 * Main.cleaned_length resp ≤ 22 * Main.original_length resp)
  ∧ Main.clean_existing_text (lit "0x00 0x00 0x00 0x00")
    = Ret {| Main.cleaned_text := TextCleaner.address_data_removed;
             Main.original_length := 19;
             Main.cleaned_length := 22 |}.
Proof.
  split; [| vm_compute; reflexivity].
  intros text. unfold Main.clean_existing_text.
  destruct (clean_text_len text) as (out & -> & Hlen). cbn [bind].
  eexists. split; [reflexivity |]. cbn [Main.cleaned_text
    Main.original_length Main.cleaned_length].
  repeat split. exact Hlen.
Qed.

(** ** The text of a document *)

Lemma split_on_app (a b : str) :
  split_on nl (a ++ nl :: b) = split_on nl a ++ split_on nl b.
Proof.
  induction a as [|c a IH]; [reflexivity |].
  cbn [app split_on]. rewrite IH.
  destruct (eqc c nl); [reflexivity |].
  pose proof (split_on_nonempty nl a) as Hne.
  destruct (split_on nl a) as [|l ls]; [congruence | reflexivity].
Qed.

Lemma split_on_separator (a b : str) :
  split_on nl (a ++ PdfExtraction.page_separator ++ b)
  = split_on nl a ++ [[]; lit "---"; []] ++ split_on nl b.
Proof.
  change (a ++ PdfExtraction.page_separator ++ b)
    with (a ++ nl :: ([] ++ nl :: (lit "---" ++ nl :: ([] ++ nl :: b)))).
  rewrite !split_on_app. reflexivity.
Qed.

(** A document of [n] pages has [n - 1] separator lines at least. *)
Lemma separator_occurrences (pages : list str) :
  llen pages - 1
  ≤ tracked_occurrences (lit "---")
      (split_on nl (PdfExtraction.join_str PdfExtraction.page_separator pages)).
Proof.
  induction pages as [|p pages IH].
  - unfold llen. simpl length. pose proof (tracked_occurrences_nonneg (lit "---")
      (split_on nl (PdfExtraction.join_str PdfExtraction.page_separator []))). lia.
  - destruct pages as [|p' pages].
    + unfold llen. simpl length.
      pose proof (tracked_occurrences_nonneg (lit "---")
        (split_on nl (PdfExtraction.join_str PdfExtraction.page_separator [p]))).
      lia.
    + change (PdfExtraction.join_str PdfExtraction.page_separator (p :: p' :: pages))
        with (p ++ PdfExtraction.page_separator
                ++ PdfExtraction.join_str PdfExtraction.page_separator (p' :: pages)).
      rewrite split_on_separator, !tracked_occurrences_app.
      pose proof (tracked_occurrences_nonneg (lit "---") (split_on nl p)).
      assert (E : tracked_occurrences (lit "---") [[]; lit "---"; []] = 1)
        by (vm_compute; reflexivity).
      rewrite E. unfold llen in *. cbn [length] in *. lia.
Qed.

(** X13. Once the document is open, [extract_pdf_to_markdown] reports no
    error whatever the pages hold, counts every page, blank ones included,
    and builds the markdown from the pages that are not blank only.  With
    four such pages or more, the "---" lines that it puts between the pages
    are themselves dropped as repeated lines: no line of the markdown is
    "---". *)
Theorem page_separators_dropped (doc : list str) :
  PdfExtraction.error (PdfExtraction.extract_pdf_to_markdown doc) = None
  ∧ PdfExtraction.page_count (PdfExtraction.extract_pdf_to_markdown doc)
    = llen doc
  ∧ PdfExtraction.markdown (PdfExtraction.extract_pdf_to_markdown doc)
    = PdfExtraction.markdown
        (PdfExtraction.extract_pdf_to_markdown
           (List.filter (λ text, truthy (strip text)) doc))
  ∧ (4 ≤ llen (List.filter (λ text, truthy (strip text)) doc) →
     Forall (λ l, strip l ≠ lit "---")
       (split_on nl
          (PdfExtraction.markdown (PdfExtraction.extract_pdf_to_markdown doc)))).
Proof.
  unfold PdfExtraction.extract_pdf_to_markdown.
  assert (Hidem : List.filter (λ text : str, truthy (strip text))
                    (List.filter (λ text : str, truthy (strip text)) doc)
                  = List.filter (λ text : str, truthy (strip text)) doc).
  { induction doc as [|p doc IH]; [reflexivity |].
    cbn [List.filter]. destruct (truthy (strip p)) eqn:Hp; [| exact IH].
    cbn [List.filter]. rewrite Hp, IH. reflexivity. }
  rewrite Hidem.
  set (pages := List.filter (λ text : str, truthy (strip text)) doc).
  destruct (fresh_extraction_kept
              (PdfExtraction.join_str PdfExtraction.page_separator pages))
    as (out & Hout & _ & Hrep).
  rewrite Hout. cbn [PdfExtraction.error PdfExtraction.page_count
                     PdfExtraction.markdown].
  split; [reflexivity |]. split; [reflexivity |]. split; [reflexivity |].
  intros Hn. apply Hrep; [| discriminate].
  pose proof (separator_occurrences pages). lia.
Qed.

Lemma page_separators_dropped_witness :
  Forall (λ l, strip l ≠ lit "---")
    (split_on nl
       (PdfExtraction.markdown
          (PdfExtraction.extract_pdf_to_markdown
             [lit "one"; lit "two"; lit "  "; lit "three"; lit "four"]))).
Proof.
  apply (page_separators_dropped
           [lit "one"; lit "two"; lit "  "; lit "three"; lit "four"]).
  vm_compute. discriminate.
Defined.

(** ** Bare numbers *)

Lemma decimal_forall (P : ascii → bool) :
  forallb P (lit "0123456789") = true → ∀ c, isdecimal c = true → P c = true.
Proof.
  intros HP c Hc.
  assert (Hin : In c (lit "0123456789")).
  { destruct c as [[] [] [] [] [] [] [] []]; try discriminate Hc;
      vm_compute; tauto. }
  apply (proj1 (forallb_forall P _) HP c Hin).
Qed.

Lemma decimal_not_space (c : ascii) : isdecimal c = true → isspace c = false.
Proof.
  intros Hc. apply negb_true_iff.
  apply (decimal_forall (λ c, negb (isspace c))); [reflexivity | exact Hc].
Qed.

Lemma decimal_not_chr (a c : ascii) :
  isdecimal a = false → isdecimal c = true → eqc a c = false.
Proof.
  intros Ha Hc. apply eqc_false. intros ->. congruence.
Qed.

Lemma decimal_lower (c : ascii) : isdecimal c = true → lower_chr c = c.
Proof.
  intros Hc.
  apply eqc_true.
  apply (decimal_forall (λ c, eqc (lower_chr c) c)); [reflexivity | exact Hc].
Qed.

Lemma purely_numeric_digits (d : str) :
  purely_numeric d = true → d ≠ [] ∧ Forall (λ c, isdecimal c = true) d.
Proof.
  unfold purely_numeric. intros H. apply andb_true_iff in H as [Ht Hd].
  split; [intros ->; discriminate Ht |].
  apply Forall_forall. intros c Hc. apply list_elem_of_In in Hc.
  apply (proj1 (forallb_forall _ _) Hd c Hc).
Qed.

Lemma digits_strip (d : str) : purely_numeric d = true → strip d = d.
Proof.
  intros H. apply purely_numeric_digits in H as [Hne Hd].
  destruct d as [|c d]; [congruence |].
  unfold strip. rewrite lstrip_fixed
    by (apply decimal_not_space; apply (Forall_inv Hd)).
  destruct (last (c :: d)) as [z|] eqn:Hl.
  - apply (rstrip_fixed _ z Hl). apply decimal_not_space.
    rewrite Forall_forall in Hd. apply Hd.
    apply last_Some in Hl as [s' ->]. set_solver.
  - apply last_None in Hl. discriminate Hl.
Qed.

Lemma digits_lower (d : str) :
  Forall (λ c, isdecimal c = true) d → lower d = d.
Proof.
  unfold lower. induction 1 as [|c d Hc _ IH]; [reflexivity |].
  cbn [map]. rewrite IH, decimal_lower by exact Hc. reflexivity.
Qed.

(** A repetition fails when what follows it fails wherever the repetition
    may stop. *)
Lemma rep_none {R} (p : ascii → bool) (s : str) :
  ∀ (n : nat) prev (k : option ascii → str → option R),
    (∀ prev' a t, s = a ++ t → k prev' t = None) →
    rep p n prev s k = None.
Proof.
  induction s as [|c s IH]; intros n prev k Hk.
  - destruct n; [apply (Hk prev [] []); reflexivity | reflexivity].
  - cbn [rep].
    assert (Hstop : match n with O => k prev (c :: s) | S _ => None end = None).
    { destruct n; [apply (Hk prev [] (c :: s)); reflexivity | reflexivity]. }
    destruct (p c); [| exact Hstop].
    rewrite IH; [exact Hstop |].
    intros prev' a t ->. apply (Hk prev' (c :: a) t). reflexivity.
Qed.

Lemma digits_no_page_word {R} (d : str) prev
    (k : option ascii → str → option R) :
  Forall (λ c, isdecimal c = true) d →
  exec no_flags (Seq (Str "page") (Rep isspace 1)) prev d k = None.
Proof.
  intros Hd. destruct Hd as [|c d Hc _]; [reflexivity |].
  change (Str "page") with (Seq (Chr "p") (Seq (Chr "a") (Seq (Chr "g") (Chr "e")))).
  cbn [exec]. change (chr_eq no_flags "p" c) with (eqc "p" c).
  rewrite decimal_not_chr by (reflexivity || exact Hc). reflexivity.
Qed.

Lemma digits_no_separator {R} (r : regex) (t : str) prev
    (k : option ascii → str → option R) :
  Forall (λ c, isdecimal c = true) t →
  exec no_flags (Seq (Rep isspace 0) (Seq (Alt (Str "of") (Chr "/")) r))
    prev t k = None.
Proof.
  intros Ht. destruct Ht as [|c t Hc _]; [reflexivity |].
  change (Str "of") with (Seq (Chr "o") (Chr "f")).
  cbn [exec rep]. rewrite decimal_not_space by exact Hc.
  change (chr_eq no_flags "o" c) with (eqc "o" c).
  change (chr_eq no_flags "/" c) with (eqc "/" c).
  rewrite !decimal_not_chr by (reflexivity || exact Hc). reflexivity.
Qed.

Lemma digits_not_page_number (d : str) :
  Forall (λ c, isdecimal c = true) d →
  re_match no_flags TextCleaner.page_number_re d = false.
Proof.
  intros Hd. unfold re_match, match_at.
  change (exec no_flags TextCleaner.page_number_re None d (λ _ rest, Some rest))
    with (match exec no_flags (Seq (Str "page") (Rep isspace 1)) None d
                  (λ prev s, rep isdecimal 1 prev s
                     (λ prev' s', exec no_flags
                        (Seq (Rep isspace 0)
                           (Seq (Alt (Str "of") (Chr "/"))
                              (cat [Rep isspace 0; Rep isdecimal 1;
                                    Rep isspace 0; Eol])))
                        prev' s' (λ _ rest, Some rest)))
          with
          | Some x => Some x
          | None =>
              rep isdecimal 1 None d
                (λ prev' s', exec no_flags
                   (Seq (Rep isspace 0)
                      (Seq (Alt (Str "of") (Chr "/"))
                         (cat [Rep isspace 0; Rep isdecimal 1;
                               Rep isspace 0; Eol])))
                   prev' s' (λ _ rest, Some rest))
          end).
  rewrite digits_no_page_word by exact Hd.
  rewrite rep_none; [reflexivity |].
  intros prev' a t ->. apply Forall_app in Hd as [_ Ht].
  apply digits_no_separator, Ht.
Qed.

Lemma contains_head (c : ascii) (p s : str) :
  contains (c :: p) s = true → In c s.
Proof.
  induction s as [|a s IH]; cbn [contains startswith]; [discriminate |].
  intros H. apply orb_true_iff in H as [H | H].
  - apply andb_true_iff in H as [H _]. apply eqc_true in H. left. congruence.
  - right. apply IH, H.
Qed.

Lemma digits_contain_no_word (ind d : str) :
  match ind with [] => False | c :: _ => isdecimal c = false end →
  Forall (λ c, isdecimal c = true) d →
  contains ind d = false.
Proof.
  intros Hind Hd. destruct ind as [|c p]; [contradiction |].
  destruct (contains (c :: p) d) eqn:E; [| reflexivity].
  apply contains_head in E. rewrite Forall_forall in Hd.
  apply list_elem_of_In in E. apply Hd in E. congruence.
Qed.

Lemma digits_not_footer (d : str) :
  purely_numeric d = true → TextCleaner.is_contact_footer d = false.
Proof.
  intros H. unfold TextCleaner.is_contact_footer.
  rewrite (digits_strip d H).
  apply purely_numeric_digits in H as [_ Hd].
  rewrite (digits_lower d Hd).
  destruct (200 <? len d); [reflexivity |].
  unfold TextCleaner.footer_indicators. cbn [List.filter].
  rewrite !digits_contain_no_word by (reflexivity || exact Hd).
  reflexivity.
Qed.

Lemma findall_count_none (fl : flags) (r : regex) (s : str) :
  (∀ p a t, s = a ++ t → match_at fl r p t = None) →
  findall_count fl r s = 0.
Proof.
  intros Hno. unfold findall_count. rewrite scan_no_match by exact Hno.
  induction s as [|c s IH]; [reflexivity |].
  cbn [map List.filter is_match]. apply IH.
  intros p a t ->. apply (Hno p (c :: a) t). reflexivity.
Qed.

Lemma digits_no_pixels (d : str) :
  Forall (λ c, isdecimal c = true) d →
  TextCleaner.contains_pixel_sequence d = false.
Proof.
  intros Hd. unfold TextCleaner.contains_pixel_sequence.
  rewrite findall_count_none; [reflexivity |].
  intros p a t ->. apply Forall_app in Hd as [_ Ht].
  unfold match_at.
  change TextCleaner.pixel_re
    with (Seq (Seq (Chr "P") (Seq (Chr "i") (Seq (Chr "x") (Seq (Chr "e") (Chr "l")))))
              (Seq (Rep isspace 1) (Rep isdecimal 1))).
  destruct Ht as [|c t Hc _]; [reflexivity |].
  cbn [exec]. change (chr_eq no_flags "P" c) with (eqc "P" c).
  rewrite decimal_not_chr by (reflexivity || exact Hc). reflexivity.
Qed.

Lemma digits_no_addresses (d : str) :
  Forall (λ c, isdecimal c = true) d →
  TextCleaner.contains_hex_sequence d = false.
Proof.
  intros Hd. unfold TextCleaner.contains_hex_sequence.
  rewrite findall_count_none; [reflexivity |].
  intros p a t ->. apply Forall_app in Hd as [_ Ht].
  unfold match_at.
  change TextCleaner.hex_re
    with (Seq (Seq (Chr "0") (Chr "x")) (Rep TextCleaner.ishex 2)).
  destruct Ht as [|c0 t Hc0 Ht]; [reflexivity |].
  cbn [exec]. destruct (chr_eq no_flags "0" c0); [| reflexivity].
  destruct Ht as [|c1 t Hc1 _]; [reflexivity |].
  change (chr_eq no_flags "x" c1) with (eqc "x" c1).
  rewrite decimal_not_chr by (reflexivity || exact Hc1). reflexivity.
Qed.

Lemma digits_numeric_garbage (l : str) :
  purely_numeric (strip l) = true → Extractor.is_numeric_garbage l = Ret true.
Proof.
  intros H. unfold Extractor.is_numeric_garbage.
  rewrite (digits_match (strip l) (strip_last_not_nl l)), H.
  destruct (strip l); [discriminate H | reflexivity].
Qed.

(** X14. A line made of decimal digits only, such as a bare page number, is
    no page-number line for the main cleaner: [clean_line] returns it
    unchanged when it has at most 200 characters and is not in the repeated
    set, and drops it when it is in the repeated set.  For the cleaner of
    freshly extracted text the same line is numeric garbage. *)
Theorem bare_number_lines (d : str) (repeated_lines : gset str) :
  purely_numeric d = true →
  len d ≤ 200 →
  TextCleaner.is_page_number_line d = false
  ∧ (d ∉ repeated_lines → TextCleaner.clean_line d repeated_lines = Ret d)
  ∧ (d ∈ repeated_lines → TextCleaner.clean_line d repeated_lines = Ret [])
  ∧ Extractor.is_numeric_garbage d = Ret true.
Proof.
  intros Hnum Hlen.
  pose proof (digits_strip d Hnum) as Hs.
  destruct (purely_numeric_digits d Hnum) as [Hne Hd].
  assert (Hpage : TextCleaner.is_page_number_line d = false).
  { unfold TextCleaner.is_page_number_line. rewrite Hs, (digits_lower d Hd).
    destruct (50 <? len d); [reflexivity |].
    rewrite digits_not_page_number by exact Hd. reflexivity. }
  assert (Ht : truthy d = true) by (destruct d; [congruence | reflexivity]).
  assert (Hhead : TextCleaner.is_likely_heading d = Ret false).
  { unfold TextCleaner.is_likely_heading. rewrite Hs.
    destruct ((80 <? len d) || (len d <? 3)); [reflexivity |].
    assert (Hsharp : startswith (lit "#") d = false).
    { destruct Hd as [|c d Hc _]; [reflexivity |].
      cbn [startswith lit]. change (startswith (lit "#") (c :: d))
        with (eqc "#" c && true).
      rewrite decimal_not_chr by (reflexivity || exact Hc). reflexivity. }
    rewrite Hsharp.
    assert (Hletters : List.filter isalpha d = []).
    { clear -Hd. induction Hd as [|c d Hc _ IH]; [reflexivity |].
      cbn [List.filter].
      assert (isalpha c = false) as ->; [| exact IH].
      apply negb_true_iff.
      apply (decimal_forall (λ c, negb (isalpha c))); [reflexivity | exact Hc]. }
    rewrite Hletters. reflexivity. }
  split; [exact Hpage |].
  split; [| split].
  - intros Hnot. unfold TextCleaner.clean_line. rewrite Hs, Ht. cbn [negb].
    destruct (Z.ltb_spec 2000 (len d)); [lia |].
    unfold TextCleaner.is_dropped_repeat.
    rewrite bool_decide_eq_false_2 by exact Hnot. cbn [bind].
    rewrite Hpage, (digits_not_footer d Hnum).
    unfold TextCleaner.is_data_dump.
    destruct (Z.ltb_spec 300 (len d)); [lia |]. cbn [bind].
    rewrite (digits_no_pixels d Hd), (digits_no_addresses d Hd).
    destruct (TextCleaner.is_calibration_data_line d) eqn:Hcal.
    { apply calibration_needs_pixels in Hcal.
      rewrite (digits_no_pixels d Hd) in Hcal. discriminate Hcal. }
    unfold TextCleaner.is_spaceless.
    destruct (Z.ltb_spec 500 (len d)); [lia |]. cbn [bind].
    unfold TextCleaner.is_single_long_word.
    destruct (Z.ltb_spec 200 (len d)); [lia |]. cbn [andb].
    unfold TextCleaner.repetitive.
    destruct (Z.ltb_spec 500 (len d)); [lia |]. reflexivity.
  - intros Hin. unfold TextCleaner.clean_line. rewrite Hs, Ht. cbn [negb].
    destruct (Z.ltb_spec 2000 (len d)); [lia |].
    unfold TextCleaner.is_dropped_repeat.
    rewrite bool_decide_eq_true_2 by exact Hin.
    rewrite Hhead. reflexivity.
  - apply digits_numeric_garbage. rewrite Hs. exact Hnum.
Qed.

Lemma bare_number_lines_witness :
  TextCleaner.is_page_number_line (lit "12") = false
  ∧ TextCleaner.clean_line (lit "12") ∅ = Ret (lit "12")
  ∧ Extractor.is_numeric_garbage (lit "12") = Ret true.
Proof.
  destruct (bare_number_lines (lit "12") ∅) as (Hp & Hk & _ & Hg);
    [reflexivity | vm_compute; discriminate |].
  split; [exact Hp |]. split; [apply Hk; set_solver | exact Hg].
Defined.

(** X15. No line of the output of [clean_extracted_text] is made of decimal
    digits only, surrounding whitespace apart: such lines are always
    dropped, alone or in a run. *)
Theorem fresh_extraction_no_bare_numbers (text : str) :
  ∃ out,
    Extractor.clean_extracted_text text = Ret out
    ∧ Forall (λ l, purely_numeric (strip l) = false) (split_on nl out).
Proof.
  destruct (fresh_extraction_kept text) as (out & Hout & Hlines & _).
  exists out. split; [exact Hout |].
  eapply Forall_impl; [exact Hlines |].
  intros l [-> | [-> | (_ & _ & _ & _ & Hg)]]; [reflexivity.. |].
  destruct (purely_numeric (strip l)) eqn:E; [| reflexivity].
  rewrite (digits_numeric_garbage l E) in Hg. discriminate Hg.
Qed.

(** * Markers, headings and blank lines in any text *)

(** ** The passes after the classifier *)



(** ** Texts without two dashes in a row *)

Lemma contains_here (p s : str) : startswith p s = true → contains p s = true.
Proof. intros H. destruct s; cbn [contains]; rewrite H; reflexivity. Qed.

Lemma contains_app_r (p a t : str) :
  contains p t = true → contains p (a ++ t) = true.
Proof.
  intros H. induction a as [|c a IH]; [exact H |].
  simpl app. cbn [contains]. rewrite IH. apply orb_true_r.
Qed.

Lemma rep_two_dashes {R} (n : nat) prev (s : str)
    (k : option ascii → str → option R) (x : R) :
  (2 ≤ n)%nat → rep (eqc "-") n prev s k = Some x →
  startswith (lit "--") s = true.
Proof.
  intros Hn H. destruct n as [|[|n]]; [lia | lia |].
  apply rep_succ in H as (c1 & s1 & -> & Hc1 & H).
  apply rep_succ in H as (c2 & s2 & -> & Hc2 & _).
  change (startswith (lit "--") (c1 :: c2 :: s2))
    with (eqc "-" c1 && (eqc "-" c2 && true)).
  rewrite Hc1, Hc2. reflexivity.
Qed.

Lemma heading_match_dashes prev (t rest : str) :
  match_at MULTILINE TextCleaner.page_break_heading_re prev t = Some rest →
  contains (lit "--") t = true.
Proof.
  unfold match_at. intros H.
  change (exec MULTILINE TextCleaner.page_break_heading_re prev t
            (λ _ rest, Some rest))
    with (exec MULTILINE
            (Seq Bol (Seq (Chr "#") (Seq (Opt (Chr "#")) (Rep isspace 0))))
            prev t
            (λ p s, rep (eqc "-") 2 p s
               (λ p' s', exec MULTILINE (marker_tail 2) p' s'
                           (λ _ rest, Some rest)))) in H.
  apply exec_consumes in H as (p & a & s & -> & H & _).
  apply contains_app_r, contains_here.
  apply (rep_two_dashes 2 _ _ _ _ (le_n 2) H).
Qed.

Lemma simple_match_dashes prev (t rest : str) :
  match_at MULTILINE TextCleaner.page_break_simple_re prev t = Some rest →
  contains (lit "--") t = true.
Proof.
  unfold match_at. intros H.
  change (exec MULTILINE TextCleaner.page_break_simple_re prev t
            (λ _ rest, Some rest))
    with (if at_bol MULTILINE prev
          then rep (eqc "-") 3 prev t
                 (λ p' s', exec MULTILINE (marker_tail 3) p' s'
                             (λ _ rest, Some rest))
          else None) in H.
  destruct (at_bol MULTILINE prev); [| discriminate H].
  apply contains_here.
  apply (rep_two_dashes 3 _ _ _ _ ltac:(lia) H).
Qed.



(** ** The classifier over the lines of a text *)

Lemma clean_line_cases (line : str) (repeated_lines : gset str) :
  ∃ out,
    TextCleaner.clean_line line repeated_lines = Ret out
    ∧ (out = line ∨ out = [] ∨ out ∈ tags).
Proof.
  assert (Hc : TextCleaner.content_removed ∈ tags)
    by (apply list_elem_of_In; simpl; tauto).
  assert (Hd : TextCleaner.data_removed ∈ tags)
    by (apply list_elem_of_In; simpl; tauto).
  assert (Hp : TextCleaner.pixel_data_removed ∈ tags)
    by (apply list_elem_of_In; simpl; tauto).
  assert (Ha : TextCleaner.address_data_removed ∈ tags)
    by (apply list_elem_of_In; simpl; tauto).
  unfold TextCleaner.clean_line.
  destruct (negb _); [eexists; split; [reflexivity | tauto] |].
  destruct (2000 <? len line); [eexists; split; [reflexivity | tauto] |].
  destruct (TextCleanerTotal.is_dropped_repeat_ret (strip line) repeated_lines)
    as [d ->]. cbn [bind].
  destruct d; [eexists; split; [reflexivity | tauto] |].
  destruct (TextCleaner.is_page_number_line _);
    [eexists; split; [reflexivity | tauto] |].
  destruct (TextCleaner.is_contact_footer _);
    [eexists; split; [reflexivity | tauto] |].
  destruct (TextCleanerTotal.is_data_dump_ret (strip line)) as [d ->]. cbn [bind].
  destruct d; [eexists; split; [reflexivity | tauto] |].
  destruct (TextCleaner.contains_pixel_sequence _) eqn:Hpix;
    [eexists; split; [reflexivity | tauto] |].
  destruct (TextCleaner.contains_hex_sequence _);
    [eexists; split; [reflexivity | tauto] |].
  destruct (TextCleaner.is_calibration_data_line _) eqn:Hcal.
  { apply calibration_needs_pixels in Hcal. congruence. }
  destruct (TextCleanerTotal.is_spaceless_ret line) as [d ->]. cbn [bind].
  destruct d; [eexists; split; [reflexivity | tauto] |].
  destruct (TextCleaner.is_single_long_word _);
    [eexists; split; [reflexivity | tauto] |].
  destruct (TextCleanerTotal.repetitive_ret line) as [b ->]. cbn [bind].
  destruct b; eexists; (split; [reflexivity | tauto]).
Qed.


Lemma word_nl_free (w : str) : forallb (λ c, negb (eqc c nl)) w = true → nl_free w.
Proof.
  intros H. apply Forall_forall. intros c Hc. apply list_elem_of_In in Hc.
  rewrite forallb_forall in H. specialize (H c Hc).
  apply negb_true_iff, eqc_false in H. exact H.
Qed.


Lemma tags_markers : Forall (λ t, is_removed_marker t = true) tags.
Proof. repeat (apply Forall_cons_2; [reflexivity |]). apply Forall_nil_2. Qed.

(** The classifier returns on every line of a text, each result being the
    line, the empty string or a tag. *)
Lemma processed_lines (lines : list str) (repeated_lines : gset str) :
  ∃ processed,
    mapM (λ line, TextCleaner.clean_line line repeated_lines) lines
    = Ret processed
    ∧ Forall2 (λ line out,
                 TextCleaner.clean_line line repeated_lines = Ret out
                 ∧ (out = line ∨ out = [] ∨ out ∈ tags))
              lines processed.
Proof.
  induction lines as [|line lines (processed & Hm & Hf)].
  - exists []. split; [reflexivity | constructor].
  - destruct (clean_line_cases line repeated_lines) as (out & Hout & Hcase).
    exists (out :: processed). cbn [mapM]. rewrite Hout. cbn [bind].
    rewrite Hm. cbn [bind]. split; [reflexivity |].
    constructor; [split; assumption | exact Hf].
Qed.





(** ** The collapse pass, line by line *)




(** What the pass has kept so far only grows. *)
Lemma collapse_step_result (R : list str) (r e : bool) (l : str) :
  TextCleaner.collapse_step (TextCleaner.Collapse R r e) l
  = TextCleaner.Collapse
      (R ++ TextCleaner.result
              (TextCleaner.collapse_step (TextCleaner.Collapse [] r e) l))
      (TextCleaner.prev_was_removed
         (TextCleaner.collapse_step (TextCleaner.Collapse [] r e) l))
      (TextCleaner.prev_was_empty
         (TextCleaner.collapse_step (TextCleaner.Collapse [] r e) l)).
Proof.
  unfold TextCleaner.collapse_step.
  cbn [TextCleaner.result TextCleaner.prev_was_removed
       TextCleaner.prev_was_empty].
  repeat match goal with
         | |- context [if ?b then _ else _] => destruct b
         end;
    cbn [TextCleaner.result TextCleaner.prev_was_removed
         TextCleaner.prev_was_empty app];
    rewrite ?app_nil_r; reflexivity.
Qed.

Lemma collapse_fold_result (ls : list str) : ∀ (R : list str) (r e : bool),
  fold_left TextCleaner.collapse_step ls (TextCleaner.Collapse R r e)
  = TextCleaner.Collapse
      (R ++ TextCleaner.result
              (fold_left TextCleaner.collapse_step ls
                 (TextCleaner.Collapse [] r e)))
      (TextCleaner.prev_was_removed
         (fold_left TextCleaner.collapse_step ls (TextCleaner.Collapse [] r e)))
      (TextCleaner.prev_was_empty
         (fold_left TextCleaner.collapse_step ls (TextCleaner.Collapse [] r e))).
Proof.
  induction ls as [|l ls IH]; intros R r e.
  - cbn [fold_left TextCleaner.result TextCleaner.prev_was_removed
         TextCleaner.prev_was_empty]. rewrite app_nil_r. reflexivity.
  - cbn [fold_left]. rewrite (collapse_step_result R r e l).
    destruct (TextCleaner.collapse_step (TextCleaner.Collapse [] r e) l)
      as [X r' e'].
    cbn [TextCleaner.result TextCleaner.prev_was_removed
         TextCleaner.prev_was_empty].
    rewrite (IH (R ++ X) r' e'), (IH X r' e').
    cbn [TextCleaner.result TextCleaner.prev_was_removed
         TextCleaner.prev_was_empty].
    rewrite app_assoc. reflexivity.
Qed.



Lemma collapse_lines_app_state (ls1 ls2 : list str) :
  collapse_lines (ls1 ++ ls2)
  = collapse_lines ls1
    ++ TextCleaner.result
         (fold_left TextCleaner.collapse_step ls2
            (TextCleaner.Collapse []
               (TextCleaner.prev_was_removed
                  (fold_left TextCleaner.collapse_step ls1
                     (TextCleaner.Collapse [] false false)))
               (TextCleaner.prev_was_empty
                  (fold_left TextCleaner.collapse_step ls1
                     (TextCleaner.Collapse [] false false))))).
Proof.
  unfold collapse_lines. rewrite fold_left_app.
  destruct (fold_left TextCleaner.collapse_step ls1
              (TextCleaner.Collapse [] false false)) as [R r e].
  rewrite (collapse_fold_result ls2 R r e). reflexivity.
Qed.


(** ** Trimming a text around lines that are trimmed *)

Lemma lstrip_app (p x : str) (c : ascii) (r : str) :
  x = c :: r → isspace c = false → lstrip (p ++ x) = lstrip p ++ x.
Proof.
  intros -> Hc. induction p as [|d p IH].
  - cbn [app lstrip]. rewrite Hc. reflexivity.
  - cbn [app lstrip]. destruct (isspace d); [exact IH | reflexivity].
Qed.

Lemma rstrip_app (y s : str) (z : ascii) :
  last y = Some z → isspace z = false → rstrip (y ++ s) = y ++ rstrip s.
Proof.
  intros Hl Hz. apply last_Some in Hl as [y' ->].
  unfold rstrip.
  assert (E : rev ((y' ++ [z]) ++ s) = rev s ++ z :: rev y')
    by (rewrite !rev_app_distr; reflexivity).
  rewrite E, (lstrip_app (rev s) (z :: rev y') z (rev y') eq_refl Hz).
  rewrite rev_app_distr. cbn [rev]. rewrite rev_involutive. reflexivity.
Qed.

Lemma strip_around (p m s : str) :
  strip m = m → m ≠ [] → strip (p ++ m ++ s) = lstrip p ++ m ++ rstrip s.
Proof.
  intros Hm Hne.
  destruct (stripped_head m Hm Hne) as (c & r & E & Hc).
  destruct (stripped_last m Hm Hne) as (z & Hl & Hz).
  unfold strip.
  assert (E' : m ++ s = c :: (r ++ s)) by (rewrite E; reflexivity).
  rewrite (lstrip_app p (m ++ s) c (r ++ s) E' Hc).
  rewrite !app_assoc.
  rewrite (rstrip_app (lstrip p ++ m) s z); [reflexivity | | exact Hz].
  rewrite last_app, Hl. reflexivity.
Qed.





(** A line that stands between a line start and a line end is a line of
    the text. *)
Lemma line_between (p h s : str) :
  line_start p → line_stop s → nl_free h → h ∈ split_on nl (p ++ h ++ s).
Proof.
  intros Hp Hs Hh.
  assert (Hin : h ∈ split_on nl (h ++ s)).
  { destruct Hs as [-> | [rest ->]].
    - rewrite app_nil_r, split_on_free_id by exact Hh. apply list_elem_of_here.
    - rewrite split_on_app_free by exact Hh. apply list_elem_of_here. }
  destruct Hp as [-> | Hl]; [exact Hin |].
  apply last_Some in Hl as [p' ->]. rewrite <- app_assoc. cbn [app].
  rewrite split_on_app. apply elem_of_app. right. exact Hin.
Qed.







(** ** Blank lines between content lines *)

Lemma clean_line_blank (e : str) (repeated_lines : gset str) :
  is_blank e = true → TextCleaner.clean_line e repeated_lines = Ret [].
Proof.
  unfold is_blank. intros He. unfold TextCleaner.clean_line.
  rewrite He. reflexivity.
Qed.

Lemma is_content_nonempty (l : str) : is_content l = true → l ≠ [].
Proof. intros H ->. discriminate H. Qed.


(** The flags of the pass after some lines record the kind of the last
    line. *)
Lemma collapse_flags_step st (l : str) :
  TextCleaner.prev_was_removed (TextCleaner.collapse_step st l)
  = is_removed_marker l
  ∧ TextCleaner.prev_was_empty (TextCleaner.collapse_step st l)
    = negb (is_removed_marker l) && is_blank l.
Proof.
  unfold TextCleaner.collapse_step. fold (is_removed_marker l).
  unfold is_blank.
  destruct (is_removed_marker l); cbn [negb andb].
  - destruct (TextCleaner.prev_was_removed st) eqn:E; cbn [negb];
      cbn [TextCleaner.prev_was_removed TextCleaner.prev_was_empty];
      auto.
  - destruct (negb (truthy (strip l)));
      [destruct (_ && _) |];
      cbn [TextCleaner.prev_was_removed TextCleaner.prev_was_empty]; auto.
Qed.









(** ** A second pass over an output of [clean_text] *)

Lemma startswith_app (p q s : str) :
  startswith (p ++ q) s = true → startswith p s = true.
Proof.
  revert s. induction p as [|a p IH]; intros s H; [reflexivity |].
  destruct s as [|b s]; [discriminate H |].
  cbn [app startswith] in *. apply andb_true_iff in H as [H1 H2].
  rewrite H1. apply (IH s H2).
Qed.

Lemma unfenced_unwrap (y : str) : unfenced y → TextCleaner.unwrap_fence y = y.
Proof.
  unfold unfenced. intros H. unfold TextCleaner.unwrap_fence.
  assert (Hno : ∀ q, startswith (lit "```" ++ q) y = false).
  { intros q. destruct (startswith (lit "```" ++ q) y) eqn:E; [| reflexivity].
    apply startswith_app in E. congruence. }
  change (lit "```markdown" ++ [nl]) with (lit "```" ++ (lit "markdown" ++ [nl])).
  change (lit "```markdown" ++ [cr; nl])
    with (lit "```" ++ (lit "markdown" ++ [cr; nl])).
  rewrite !Hno. reflexivity.
Qed.

(** Outside the repeated set the repetition rule plays no part. *)
Lemma clean_line_not_repeated (line : str) (repeated_lines : gset str) :
  strip line ∉ repeated_lines →
  TextCleaner.clean_line line repeated_lines = TextCleaner.clean_line line ∅.
Proof.
  intros Hnot. unfold TextCleaner.clean_line, TextCleaner.is_dropped_repeat.
  rewrite (bool_decide_eq_false_2 _ Hnot).
  rewrite bool_decide_eq_false_2 by set_solver.
  reflexivity.
Qed.

Lemma tags_cases (P : str → Prop) :
  P TextCleaner.content_removed → P TextCleaner.data_removed →
  P TextCleaner.pixel_data_removed → P TextCleaner.address_data_removed →
  ∀ t, t ∈ tags → P t.
Proof.
  intros H1 H2 H3 H4 t Ht. apply list_elem_of_In in Ht. simpl in Ht.
  destruct Ht as [<- | [<- | [<- | [<- | []]]]]; assumption.
Qed.

(** The classifier returns a placeholder as it is, unless it is in the
    repeated set: then it drops it. *)
Lemma tag_kept (t : str) (repeated_lines : gset str) :
  t ∈ tags → t ∉ repeated_lines →
  TextCleaner.clean_line t repeated_lines = Ret t.
Proof.
  intros Ht. revert t Ht.
  apply (tags_cases (λ t, t ∉ repeated_lines →
                          TextCleaner.clean_line t repeated_lines = Ret t));
    intros Hnot; (rewrite clean_line_not_repeated; [vm_compute; reflexivity |]);
    exact Hnot.
Qed.

Lemma tag_dropped (t : str) (repeated_lines : gset str) :
  t ∈ tags → t ∈ repeated_lines →
  TextCleaner.clean_line t repeated_lines = Ret [].
Proof.
  intros Ht. revert t Ht.
  apply (tags_cases (λ t, t ∈ repeated_lines →
                          TextCleaner.clean_line t repeated_lines = Ret []));
    intros Hin; unfold TextCleaner.clean_line, TextCleaner.is_dropped_repeat;
    rewrite (bool_decide_eq_true_2 _ Hin); reflexivity.
Qed.

(** From a state that records the kind of the previous line, the collapse
    pass emits every line again when there is nothing to collapse. *)
Lemma collapse_stable_from (ls : list str) : ∀ st prev,
  TextCleaner.prev_was_removed st = is_removed_marker prev →
  TextCleaner.prev_was_empty st = negb (is_removed_marker prev) && is_blank prev →
  Forall (λ l, is_blank l = true → l = []) ls →
  nothing_to_collapse (prev :: ls) = true →
  TextCleaner.result (fold_left TextCleaner.collapse_step ls st)
  = TextCleaner.result st ++ ls.
Proof.
  induction ls as [|l ls IH]; intros st prev Hr He Hblank Hok.
  - rewrite app_nil_r. reflexivity.
  - apply Forall_cons in Hblank as [Hl Hblank].
    change (nothing_to_collapse (prev :: l :: ls))
      with (follows_ok prev l && nothing_to_collapse (l :: ls)) in Hok.
    apply andb_true_iff in Hok as [Hf Hok].
    cbn [fold_left].
    destruct (collapse_flags_step st l) as [Hr' He'].
    rewrite (IH (TextCleaner.collapse_step st l) l Hr' He' Hblank Hok).
    assert (Estep : TextCleaner.result (TextCleaner.collapse_step st l)
                    = TextCleaner.result st ++ [l]).
    { unfold follows_ok in Hf. unfold TextCleaner.collapse_step.
      fold (is_removed_marker l). fold (is_blank l).
      rewrite Hr, He.
      destruct (is_removed_marker l).
      - rewrite Hf. reflexivity.
      - destruct (is_blank l) eqn:Eb; [| reflexivity].
        unfold is_content in Hf. apply andb_true_iff in Hf as [Hm Ht].
        apply negb_true_iff in Hm. rewrite Hm.
        unfold is_blank. rewrite Ht. cbn [negb andb TextCleaner.result].
        rewrite (Hl eq_refl). reflexivity. }
    rewrite Estep, <- app_assoc. reflexivity.
Qed.

Lemma collapse_stable (ls : list str) :
  Forall (λ l, is_blank l = true → l = []) ls →
  nothing_to_collapse ls = true →
  collapse_lines ls = ls.
Proof.
  intros Hblank Hok. unfold collapse_lines.
  rewrite (collapse_stable_from ls _ (lit "x")); try reflexivity; [exact Hblank |].
  change (nothing_to_collapse (lit "x" :: ls))
    with (match ls with l' :: _ => follows_ok (lit "x") l' | [] => true end
          && nothing_to_collapse ls).
  rewrite Hok, andb_true_r.
  destruct ls as [|l ls]; [reflexivity |].
  unfold follows_ok. destruct (is_removed_marker l); [reflexivity |].
  destruct (is_blank l); reflexivity.
Qed.

Lemma no_match_scan (r : regex) (s : str) : ∀ prev,
  no_match_from r prev s = true → scan MULTILINE r prev s 0 = map Text s.
Proof.
  induction s as [|c s IH]; intros prev H; cbn [no_match_from] in H;
    destruct (match_at MULTILINE r prev _) eqn:Hm; try discriminate H.
  - cbn [scan]. rewrite Hm. reflexivity.
  - rewrite scan_step by exact Hm. cbn [map]. f_equal. apply IH, H.
Qed.

Lemma no_match_sub (r : regex) (repl s : str) :
  no_match_from r None s = true → re_sub MULTILINE r repl s = s.
Proof.
  intros H. unfold re_sub. rewrite (no_match_scan r s None H).
  apply flat_text.
Qed.

(** Where neither pattern matches the page-break stripper changes
    nothing. *)
Lemma no_page_break_id (y : str) :
  no_page_break y = true → TextCleaner.remove_page_breaks y = y.
Proof.
  unfold no_page_break. intros H. apply andb_true_iff in H as [H1 H2].
  unfold TextCleaner.remove_page_breaks.
  rewrite (no_match_sub _ _ y H1). apply no_match_sub, H2.
Qed.

Lemma no_match_anywhere (r : regex) (s : str) :
  (∀ p a t, s = a ++ t → match_at MULTILINE r p t = None) →
  ∀ prev, no_match_from r prev s = true.
Proof.
  induction s as [|c s IH]; intros Hno prev; cbn [no_match_from];
    rewrite (Hno prev [] _ eq_refl); [reflexivity |].
  apply IH. intros p a t ->. apply (Hno p (c :: a) t). reflexivity.
Qed.

Lemma dash_free_no_page_break (y : str) :
  dash_free y → no_page_break y = true.
Proof.
  unfold dash_free, no_page_break. intros Hy. apply andb_true_iff. split.
  - apply no_match_anywhere. intros p a t ->.
    destruct (match_at _ _ p t) as [rest|] eqn:E; [| reflexivity].
    apply heading_match_dashes, (contains_app_r _ a) in E. congruence.
  - apply no_match_anywhere. intros p a t ->.
    destruct (match_at _ _ p t) as [rest|] eqn:E; [| reflexivity].
    apply simple_match_dashes, (contains_app_r _ a) in E. congruence.
Qed.

(** A second pass over a text with nothing more to remove. *)
Lemma clean_text_second_pass (x y : str) :
  TextCleaner.clean_text x = Ret y →
  unfenced y →
  no_page_break y = true →
  Forall (λ l, l ∉ tags →
               TextCleaner.clean_line l
                 (TextCleaner.find_repeated_lines (split_on nl y)) = Ret l)
         (split_on nl y) →
  Forall (λ t, tracked_occurrences t (split_on nl y) < 3) tags →
  nothing_to_collapse (split_on nl y) = true →
  TextCleaner.clean_text y = Ret y
  ∧ Forall (λ l, TextCleaner.clean_line l
                   (TextCleaner.find_repeated_lines (split_on nl y)) = Ret l)
           (split_on nl y)
  ∧ TextCleaner.collapse_removed_lines y = y.
Proof.
  intros Hx Hfence Hpage Hlines Htags Hok.
  pose proof (clean_text_stripped x y Hx) as Hstrip.
  assert (Hkept : Forall (λ l, TextCleaner.clean_line l
                     (TextCleaner.find_repeated_lines (split_on nl y)) = Ret l)
                    (split_on nl y)).
  { eapply Forall_impl; [exact Hlines |]. intros l Hl.
    destruct (decide (l ∈ tags)) as [Hin | Hnot]; [| exact (Hl Hnot)].
    apply tag_kept; [exact Hin |].
    rewrite repeated_elem. rewrite Forall_forall in Htags.
    specialize (Htags l Hin). lia. }
  assert (Hblank : Forall (λ l, is_blank l = true → l = []) (split_on nl y)).
  { eapply Forall_impl; [exact Hkept |]. intros l Hl Hb. cbv beta in Hl.
    rewrite (clean_line_blank l _ Hb) in Hl. congruence. }
  assert (Hcollapse : TextCleaner.collapse_removed_lines y = y).
  { unfold TextCleaner.collapse_removed_lines.
    change (join nl (collapse_lines (split_on nl y)) = y).
    rewrite (collapse_stable _ Hblank Hok). apply join_split. }
  split; [| split; [exact Hkept | exact Hcollapse]].
  unfold TextCleaner.clean_text.
  rewrite Hstrip, (unfenced_unwrap y Hfence).
  rewrite (mapM_id _ _ Hkept). cbn [bind].
  rewrite join_split, (no_page_break_id y Hpage), Hcollapse.
  rewrite newlines_sub_id; [rewrite Hstrip; reflexivity |].
  rewrite <- Hcollapse. apply nl_ok_sound, collapse_nl_ok.
Qed.

(** C8, as the specification states it, fails on outputs of [clean_text].
    A second pass unwraps a code fence that the first pass left, although
    the classifier returns every line of that output and the collapse pass
    leaves it as it is.  It drops the placeholders of an output in which
    "[content removed]" stands three times between content lines, the
    placeholder being then a repeated line.  And it merges two
    placeholders that the first pass left next to each other after
    dropping the blank line between them, although the classifier returns
    both. *)
Lemma second_pass_counterexample :
  (TextCleaner.clean_text fenced_twice = Ret fenced_once
   ∧ Forall (λ l, TextCleaner.clean_line l
                    (TextCleaner.find_repeated_lines (split_on nl fenced_once))
                  = Ret l)
            (split_on nl fenced_once)
   ∧ TextCleaner.remove_page_breaks fenced_once = fenced_once
   ∧ TextCleaner.collapse_removed_lines fenced_once = fenced_once
   ∧ TextCleaner.clean_text fenced_once = Ret (lit "hello"))
  ∧ (let y := join nl [lit "a"; TextCleaner.content_removed; lit "b";
                       TextCleaner.content_removed; lit "c";
                       TextCleaner.content_removed; lit "d"] in
     TextCleaner.clean_text long_words_between = Ret y
     ∧ TextCleaner.clean_line TextCleaner.content_removed
         (TextCleaner.find_repeated_lines (split_on nl y)) = Ret []
     ∧ TextCleaner.clean_text y
       = Ret (join nl [lit "a"; []; lit "b"; []; lit "c"; []; lit "d"]))
  ∧ (let y := join nl [TextCleaner.content_removed;
                       TextCleaner.content_removed] in
     TextCleaner.clean_text long_words_apart = Ret y
     ∧ Forall (λ l, TextCleaner.clean_line l
                      (TextCleaner.find_repeated_lines (split_on nl y))
                    = Ret l)
              (split_on nl y)
     ∧ TextCleaner.collapse_removed_lines y = TextCleaner.content_removed
     ∧ TextCleaner.clean_text y = Ret TextCleaner.content_removed).
Proof.
  split; [| split; intros y].
  - split; [vm_compute; reflexivity |].
    split; [repeat (apply Forall_cons_2; [vm_compute; reflexivity |]);
            apply Forall_nil_2 |].
    by_evaluation.
  - by_evaluation.
  - split; [vm_compute; reflexivity |].
    split; [repeat (apply Forall_cons_2; [vm_compute; reflexivity |]);
            apply Forall_nil_2 |].
    by_evaluation.
Qed.

(** C8, amended.  Let [y] be the output of [clean_text] on some text, and
    suppose that [y] does not begin with a code fence, that neither
    page-break pattern matches anywhere in it, that the classifier returns
    every line of [y] other than the four placeholders unchanged, that
    each of the four placeholders stands on fewer than 3 lines of [y], and
    that there is nothing to collapse: no placeholder line directly
    follows a placeholder line and no blank line directly follows a
    placeholder line or a blank line.  Then [clean_text] returns [y] on
    [y]; the classifier returns every line of [y], placeholders included,
    as it is, and the collapse pass leaves [y] as it is.  The classifier
    returns a placeholder unchanged exactly when it is not in the repeated
    set, and drops it when it is.  Where neither page-break pattern
    matches the page-break stripper changes nothing, and neither matches
    in a text without two dashes in a row. *)
Theorem clean_text_idempotent :
  (∀ x y,
     TextCleaner.clean_text x = Ret y →
     unfenced y →
     no_page_break y = true →
     Forall (λ l, l ∉ tags →
                  TextCleaner.clean_line l
                    (TextCleaner.find_repeated_lines (split_on nl y)) = Ret l)
            (split_on nl y) →
     Forall (λ t, tracked_occurrences t (split_on nl y) < 3) tags →
     nothing_to_collapse (split_on nl y) = true →
     TextCleaner.clean_text y = Ret y
     ∧ Forall (λ l, TextCleaner.clean_line l
                      (TextCleaner.find_repeated_lines (split_on nl y)) = Ret l)
              (split_on nl y)
     ∧ TextCleaner.collapse_removed_lines y = y)
  ∧ (∀ t repeated_lines,
       t ∈ tags →
       (t ∉ repeated_lines → TextCleaner.clean_line t repeated_lines = Ret t)
       ∧ (t ∈ repeated_lines → TextCleaner.clean_line t repeated_lines = Ret []))
  ∧ (∀ y, no_page_break y = true → TextCleaner.remove_page_breaks y = y)
  ∧ (∀ y, dash_free y → no_page_break y = true).
Proof.
  split; [exact clean_text_second_pass |].
  split; [| split; [exact no_page_break_id | exact dash_free_no_page_break]].
  intros t repeated_lines Ht.
  split; [apply tag_kept, Ht | apply tag_dropped, Ht].
Qed.

Lemma clean_text_idempotent_witness :
  TextCleaner.clean_text long_word_cleaned = Ret long_word_cleaned.
Proof.
  apply (proj1 clean_text_idempotent long_word_text long_word_cleaned).
  - vm_compute. reflexivity.
  - vm_compute. reflexivity.
  - vm_compute. reflexivity.
  - repeat (apply Forall_cons_2; [intros _; vm_compute; reflexivity |]).
    apply Forall_nil_2.
  - repeat (apply Forall_cons_2; [vm_compute; reflexivity |]).
    apply Forall_nil_2.
  - vm_compute. reflexivity.
Defined.

(** ** Repeated headings in the output of [clean_text] *)




(** *** Lines of a trimmed text *)












(** *** Lines through the classifier and the collapse pass *)









(** *** A repeated line that is no heading *)














(** ** Page-break markers on a line of their own *)

(** *** Where a match ends *)

Lemma exec_ends_eol {R} fl (r : regex) :
  ends_eol r = true →
  ∀ prev (s : str) (k : option ascii → str → option R) x,
    exec fl r prev s k = Some x →
    ∃ prev' s', at_eol fl s' = true ∧ k prev' s' = Some x.
Proof.
  induction r as [| c | p | r1 IH1 r2 IH2 | r1 IH1 r2 IH2 | p n | |];
    intros He; try discriminate He; intros prev s k x H; cbn [exec] in H.
  - cbn [ends_eol] in He.
    apply exec_consumes in H as (prev' & a & s' & _ & H & _).
    apply (IH2 He) in H. exact H.
  - destruct (at_eol fl s) eqn:E; [| discriminate H]. eauto.
Qed.

Lemma match_ends_eol fl (r : regex) prev (s rest : str) :
  ends_eol r = true → match_at fl r prev s = Some rest → at_eol fl rest = true.
Proof.
  intros He H. unfold match_at in H.
  apply (exec_ends_eol fl r He) in H as (prev' & s' & Heol & [= ->]).
  exact Heol.
Qed.

Lemma at_eol_head (c : ascii) (s : str) :
  at_eol MULTILINE (c :: s) = true → c = nl.
Proof.
  cbn [at_eol]. intros H. apply andb_true_iff in H as [H _].
  apply eqc_true in H. exact H.
Qed.

Lemma nl_free_head (c : ascii) (s : str) : nl_free (c :: s) → c ≠ nl.
Proof. intros H. apply Forall_cons in H as [H _]. exact H. Qed.

Lemma block_not_eol (M post : str) :
  nl_free M → M ≠ [] → at_eol MULTILINE (M ++ post) = false.
Proof.
  intros Hfree Hne. destruct M as [|c M]; [congruence |].
  destruct (at_eol MULTILINE ((c :: M) ++ post)) eqn:E; [| reflexivity].
  apply at_eol_head in E. exfalso. exact (nl_free_head c M Hfree E).
Qed.

(** A line end at or after the start of a line is at or after its end. *)
Lemma eol_after_block (M : str) : ∀ (post a rest : str),
  M ++ post = a ++ rest → at_eol MULTILINE rest = true → nl_free M →
  a = [] ∨ (length M ≤ length a)%nat.
Proof.
  induction M as [|c M IH]; intros post a rest E Heol Hfree.
  - right. simpl. lia.
  - destruct a as [|c' a]; [left; reflexivity |]. right.
    injection E as <- E.
    apply Forall_cons in Hfree as [_ Hfree].
    destruct (IH post a rest E Heol Hfree) as [-> | Hle]; [| simpl; lia].
    simpl in E. subst rest.
    destruct M as [|c2 M]; [simpl; lia |].
    rewrite block_not_eol in Heol;
      [discriminate Heol | exact Hfree | discriminate].
Qed.

Lemma eol_position (pre : str) : ∀ (M post a rest : str),
  pre ++ M ++ post = a ++ rest → at_eol MULTILINE rest = true →
  nl_free M → M ≠ [] →
  (length a < length pre)%nat ∨ (length pre + length M ≤ length a)%nat.
Proof.
  induction pre as [|c pre IH]; intros M post a rest E Heol Hfree Hne.
  - right. simpl in *.
    destruct (eol_after_block M post a rest E Heol Hfree) as [-> | Hle];
      [| exact Hle].
    simpl in E. subst rest.
    rewrite block_not_eol in Heol; [discriminate Heol | assumption..].
  - destruct a as [|c' a]; [left; simpl; lia |].
    injection E as <- E.
    destruct (IH M post a rest E Heol Hfree Hne); [left | right]; simpl; lia.
Qed.

(** *** The scan before a line *)

Lemma scan_skip_more (fl : flags) (r : regex) (s rest : str) (j : nat) :
  ∀ prev,
    scan fl r prev (s ++ rest) (length s + j)
    = scan fl r (last_of prev s) rest j.
Proof.
  induction s as [|c s IH]; intros prev.
  - reflexivity.
  - rewrite last_of_cons. simpl. apply IH.
Qed.

Lemma scan_match_skip (fl : flags) (r : regex) prev (c : ascii)
    (a s rest : str) :
  s = a ++ rest →
  match_at fl r prev (c :: s) = Some rest →
  scan fl r prev (c :: s) 0
  = Match (c :: a) :: scan fl r (Some c) s (length a).
Proof.
  intros -> Hm. cbn [scan]. rewrite Hm.
  assert (E : firstn (length (c :: a ++ rest) - length rest) (c :: a ++ rest)
              = c :: a).
  { replace (length (c :: a ++ rest) - length rest)%nat with (length (c :: a)).
    - apply (take_app_length (c :: a) rest).
    - simpl. rewrite length_app. lia. }
  rewrite E. reflexivity.
Qed.

(** What a substitution by nothing leaves is made of characters of the
    text, in their order. *)
Lemma flat_scan_sublist (fl : flags) (r : regex) (s : str) : ∀ prev skip,
  flat_map (subst_seg []) (scan fl r prev s skip) `sublist_of` s.
Proof.
  induction s as [|c s IH]; intros prev skip.
  - destruct skip; cbn [scan]; [| apply sublist_nil].
    destruct (match_at fl r prev []); apply sublist_nil.
  - destruct skip as [|n]; cbn [scan].
    + destruct (match_at fl r prev (c :: s)) as [rest|].
      * cbn zeta. destruct (firstn _ _) as [|c' m'];
          cbn [flat_map subst_seg app].
        -- apply sublist_skip, IH.
        -- apply sublist_cons, IH.
      * cbn [flat_map subst_seg app]. apply sublist_skip, IH.
    + apply sublist_cons, IH.
Qed.

Lemma re_sub_sublist (fl : flags) (r : regex) (s : str) :
  re_sub fl r [] s `sublist_of` s.
Proof. apply flat_scan_sublist. Qed.

Lemma last_cons_eq (c : ascii) (A pre : str) :
  last A = last pre → last (c :: A) = last (c :: pre).
Proof.
  intros E. destruct A as [|a A], pre as [|b pre]; [reflexivity | | |].
  - symmetry in E. apply last_None in E. discriminate E.
  - apply last_None in E. discriminate E.
  - rewrite !last_cons_cons. exact E.
Qed.

Lemma last_cons_nonempty (c : ascii) (pre : str) :
  pre ≠ [] → last (c :: pre) = last pre.
Proof. destruct pre; [congruence | intros _; apply last_cons_cons]. Qed.

(** The scan of the text before a line [M]: characters of that text are
    left, and the scan arrives at [M] with nothing to step over, the last
    character before [M] being left in place, or within a match that goes
    on to the end of [M] at least. *)
Lemma scan_context (r : regex) (M post : str) :
  ends_eol r = true → (1 ≤ min_len r)%nat → nl_free M → M ≠ [] →
  ∀ pre prev skip,
    (skip = 0 ∨ skip < length pre)%nat →
    ∃ A k,
      A `sublist_of` pre
      ∧ flat_map (subst_seg []) (scan MULTILINE r prev (pre ++ M ++ post) skip)
        = A ++ flat_map (subst_seg [])
                 (scan MULTILINE r (last_of prev pre) (M ++ post) k)
      ∧ ((k = 0%nat ∧ last A = last pre) ∨ (length M ≤ k)%nat).
Proof.
  intros He Hmin Hfree Hne.
  induction pre as [|c pre IH]; intros prev skip Hskip.
  - assert (skip = 0%nat) as -> by (simpl in Hskip; lia).
    exists [], 0%nat. split; [apply sublist_nil |].
    split; [reflexivity | left; split; reflexivity].
  - rewrite last_of_cons. destruct skip as [|n].
    + cbn [app].
      destruct (match_at MULTILINE r prev (c :: pre ++ M ++ post))
        as [rest|] eqn:Hm.
      * pose proof (match_ends_eol _ _ _ _ _ He Hm) as Heol.
        destruct (match_at_piece _ _ _ _ _ Hm) as (a & Ea & Hlen).
        destruct a as [|c' a]; [simpl in Hlen; lia |].
        injection Ea as <- Ea.
        rewrite (scan_match_skip _ _ _ _ a _ rest Ea Hm).
        cbn [flat_map subst_seg app].
        destruct (eol_position (c :: pre) M post (c :: a) rest) as [Hlt | Hge];
          [simpl; f_equal; exact Ea | exact Heol | exact Hfree | exact Hne | |].
        -- simpl in Hlt.
           destruct (IH (Some c) (length a)) as (A & k & HA & E & Hk); [lia |].
           exists A, k. split; [apply sublist_cons, HA |].
           split; [exact E |].
           destruct Hk as [[-> Hl] | Hk]; [left | right; exact Hk].
           split; [reflexivity |]. rewrite Hl. symmetry.
           apply last_cons_nonempty. intros ->. simpl in Hlt. lia.
        -- simpl in Hge.
           exists [], (length a - length pre)%nat.
           split; [apply sublist_nil_l |].
           split; [| right; lia].
           replace (length a) with (length pre + (length a - length pre))%nat
             at 1 by lia.
           rewrite scan_skip_more. reflexivity.
      * rewrite scan_step by exact Hm. cbn [flat_map subst_seg app].
        destruct (IH (Some c) 0%nat) as (A & k & HA & E & Hk); [left; reflexivity |].
        exists (c :: A), k. split; [apply sublist_skip, HA |].
        split; [rewrite E; reflexivity |].
        destruct Hk as [[-> Hl] | Hk]; [left | right; exact Hk].
        split; [reflexivity | apply last_cons_eq, Hl].
    + assert (Hn : (n < length pre)%nat) by (simpl in Hskip; lia).
      cbn [app scan].
      destruct (IH (Some c) n) as (A & k & HA & E & Hk); [right; exact Hn |].
      exists A, k. split; [apply sublist_cons, HA |].
      split; [exact E |].
      destruct Hk as [[-> Hl] | Hk]; [left | right; exact Hk].
      split; [reflexivity |]. rewrite Hl. symmetry.
      apply last_cons_nonempty. intros ->. simpl in Hn. lia.
Qed.

Lemma line_start_bol (pre : str) :
  line_start pre → at_bol MULTILINE (last_of None pre) = true.
Proof.
  unfold last_of. intros [-> | ->]; reflexivity.
Qed.

Lemma line_stop_eol (post : str) : line_stop post → at_eol MULTILINE post = true.
Proof. intros [-> | [rest ->]]; reflexivity. Qed.

(** From a position within a match that goes on to the end of [M], only
    characters of the text after [M] are left. *)
Lemma scan_over_block (r : regex) prev (M post : str) (k : nat) :
  (length M ≤ k)%nat →
  flat_map (subst_seg []) (scan MULTILINE r prev (M ++ post) k)
  `sublist_of` post.
Proof.
  intros Hk.
  replace k with (length M + (k - length M))%nat by lia.
  rewrite scan_skip_more. apply flat_scan_sublist.
Qed.

(** A match that starts at a line [M] takes the whole line. *)
Lemma scan_at_block (r : regex) prev (M post rest : str) :
  ends_eol r = true → (1 ≤ min_len r)%nat → nl_free M → M ≠ [] →
  match_at MULTILINE r prev (M ++ post) = Some rest →
  flat_map (subst_seg []) (scan MULTILINE r prev (M ++ post) 0)
  `sublist_of` post.
Proof.
  intros He Hmin Hfree Hne Hm.
  pose proof (match_ends_eol _ _ _ _ _ He Hm) as Heol.
  destruct (match_at_piece _ _ _ _ _ Hm) as (a & Ea & Hlen).
  destruct (eol_after_block M post a rest Ea Heol Hfree) as [-> | Hle];
    [simpl in Hlen; lia |].
  destruct M as [|c M]; [congruence |].
  destruct a as [|c' a]; [simpl in Hlen; lia |].
  cbn [app] in *. injection Ea as <- Ea.
  rewrite (scan_match_skip _ _ _ _ a _ rest Ea Hm).
  cbn [flat_map subst_seg app].
  apply scan_over_block. simpl in Hle. lia.
Qed.

(** A line that the pattern matches, on a line of its own: what is left
    is made of characters of the text before it and of the text after
    it. *)
Lemma line_removed_by (r : regex) (pre M post : str) :
  ends_eol r = true → (1 ≤ min_len r)%nat → nl_free M → M ≠ [] →
  (∀ prev, at_bol MULTILINE prev = true →
           is_Some (match_at MULTILINE r prev (M ++ post))) →
  line_start pre →
  ∃ A B,
    re_sub MULTILINE r [] (pre ++ M ++ post) = A ++ B
    ∧ A `sublist_of` pre ∧ B `sublist_of` post.
Proof.
  intros He Hmin Hfree Hne Hmatch Hpre.
  destruct (scan_context r M post He Hmin Hfree Hne pre None 0%nat)
    as (A & k & HA & E & Hk); [left; reflexivity |].
  exists A, (flat_map (subst_seg [])
               (scan MULTILINE r (last_of None pre) (M ++ post) k)).
  split; [exact E |]. split; [exact HA |].
  destruct Hk as [[-> _] | Hk]; [| apply scan_over_block, Hk].
  destruct (Hmatch _ (line_start_bol pre Hpre)) as [rest Hm].
  apply (scan_at_block r _ M post rest He Hmin Hfree Hne Hm).
Qed.

(** A line in which no match starts, on a line of its own: it is taken
    along by a match that started before it, or left in place, on a line
    of its own again. *)
Lemma line_passed_by (r : regex) (pre M post : str) :
  ends_eol r = true → (1 ≤ min_len r)%nat → nl_free M → M ≠ [] →
  (∀ prev, inert MULTILINE r prev M) →
  (∀ p, match_at MULTILINE r p post = None) →
  line_start pre → line_stop post →
  ∃ A B,
    A `sublist_of` pre ∧ B `sublist_of` post
    ∧ (re_sub MULTILINE r [] (pre ++ M ++ post) = A ++ B
       ∨ (re_sub MULTILINE r [] (pre ++ M ++ post) = A ++ M ++ B
          ∧ line_start A ∧ line_stop B)).
Proof.
  intros He Hmin Hfree Hne Hin Hpost Hpre Hstop.
  destruct (scan_context r M post He Hmin Hfree Hne pre None 0%nat)
    as (A & k & HA & E & Hk); [left; reflexivity |].
  destruct Hk as [[-> Hl] | Hk].
  - exists A, (flat_map (subst_seg [])
                 (scan MULTILINE r (last_of (last_of None pre) M) post 0)).
    split; [exact HA |]. split; [apply flat_scan_sublist |]. right.
    split.
    { unfold re_sub. change (fun g => match g with Match _ => [] | Text c => [c] end)
        with (subst_seg []). rewrite E.
      rewrite scan_inert by apply Hin.
      rewrite flat_map_app. f_equal. f_equal.
      apply (flat_text [] M). }
    split.
    + destruct Hpre as [-> | Hp].
      * left. apply sublist_nil_r in HA. exact HA.
      * right. rewrite Hl. exact Hp.
    + destruct Hstop as [-> | [rest ->]].
      * left. cbn [scan]. rewrite Hpost. reflexivity.
      * right. rewrite scan_step by apply Hpost.
        cbn [flat_map subst_seg app]. eauto.
  - exists A, (flat_map (subst_seg [])
                 (scan MULTILINE r (last_of None pre) (M ++ post) k)).
    split; [exact HA |]. split; [apply scan_over_block, Hk |].
    left. exact E.
Qed.

(** *** Matches at a marker, whatever follows its line *)

Lemma rep_reaches {R} (p : ascii → bool) (run rest : str)
    (k : option ascii → str → option R) : ∀ n prev,
  Forall (λ c, p c = true) run → (n ≤ length run)%nat →
  (∀ prev', is_Some (k prev' rest)) →
  is_Some (rep p n prev (run ++ rest) k).
Proof.
  induction run as [|c run IH]; intros n prev Hrun Hn Hk.
  - simpl in Hn. assert (n = 0%nat) as -> by lia.
    cbn [app]. destruct rest as [|c rest]; cbn [rep]; [apply Hk |].
    destruct (p c); [| apply Hk].
    destruct (rep p _ _ _ _); [eauto | apply Hk].
  - apply Forall_cons in Hrun as [Hc Hrun]. cbn [app rep]. rewrite Hc.
    destruct (IH (Nat.pred n) (Some c) Hrun) as [x Hx];
      [simpl in Hn; lia | exact Hk |].
    rewrite Hx. eauto.
Qed.

Lemma exec_seq_rep_reaches {R} (fl : flags) (p : ascii → bool) (n : nat)
    (r : regex) prev (run rest : str) (k : option ascii → str → option R) :
  Forall (λ c, p c = true) run → (n ≤ length run)%nat →
  (∀ prev', is_Some (exec fl r prev' rest k)) →
  is_Some (exec fl (Seq (Rep p n) r) prev (run ++ rest) k).
Proof. intros Hrun Hn Hk. cbn [exec]. apply rep_reaches; assumption. Qed.

Lemma marker_tail_reaches (d m : nat) (w2 w3 w4 w5 post : str) prev :
  (d ≤ m)%nat →
  spaces_only w2 → spaces_only w3 → spaces_only w4 → spaces_only w5 →
  line_stop post →
  is_Some (exec MULTILINE (marker_tail d) prev
             (marker_body w2 w3 w4 m w5 ++ post) rest_of).
Proof.
  intros Hd H2 H3 H4 H5 Hpost.
  unfold marker_tail, marker_body. cbn [cat]. rewrite <- !app_assoc.
  apply exec_seq_rep_reaches; [exact H2 | lia |]. intros p2.
  rewrite exec_word_page.
  apply exec_seq_rep_reaches; [exact H3 | lia |]. intros p3.
  rewrite exec_word_break.
  apply exec_seq_rep_reaches; [exact H4 | lia |]. intros p4.
  apply exec_seq_rep_reaches;
    [apply dashes_all | rewrite dashes_length; exact Hd |]. intros p5.
  apply exec_seq_rep_reaches; [exact H5 | lia |]. intros p6.
  cbn [exec]. rewrite (line_stop_eol post Hpost). unfold rest_of. eauto.
Qed.

Lemma dashed_reaches (d n m : nat) (w2 w3 w4 w5 post : str) prev :
  (d ≤ n)%nat → (d ≤ m)%nat →
  spaces_only w2 → spaces_only w3 → spaces_only w4 → spaces_only w5 →
  line_stop post →
  is_Some (exec MULTILINE (Seq (Rep (eqc "-") d) (marker_tail d)) prev
             (dashes n ++ marker_body w2 w3 w4 m w5 ++ post) rest_of).
Proof.
  intros Hn Hd H2 H3 H4 H5 Hpost.
  apply exec_seq_rep_reaches;
    [apply dashes_all | rewrite dashes_length; exact Hn |].
  intros p. apply marker_tail_reaches; assumption.
Qed.

Lemma heading_marker_reaches (hashes w1 : str) (n m : nat)
    (w2 w3 w4 w5 post : str) prev :
  at_bol MULTILINE prev = true →
  hashes = lit "#" ∨ hashes = lit "##" →
  (2 ≤ n)%nat → (2 ≤ m)%nat →
  spaces_only w1 → spaces_only w2 → spaces_only w3 → spaces_only w4 →
  spaces_only w5 → line_stop post →
  is_Some (match_at MULTILINE TextCleaner.page_break_heading_re prev
             (heading_marker hashes w1 n (marker_body w2 w3 w4 m w5) ++ post)).
Proof.
  intros Hbol Hhash Hn Hm H1 H2 H3 H4 H5 Hpost.
  unfold match_at. fold rest_of.
  change TextCleaner.page_break_heading_re
    with (Seq Bol (Seq (Chr "#") (Seq (Opt (Chr "#"))
            (Seq (Rep isspace 0) (Seq (Rep (eqc "-") 2) (marker_tail 2)))))).
  assert (Hrest : ∀ p,
    is_Some
      (exec MULTILINE (Seq (Rep isspace 0) (Seq (Rep (eqc "-") 2) (marker_tail 2)))
         p (w1 ++ dashes n ++ marker_body w2 w3 w4 m w5 ++ post) rest_of)).
  { intros p. apply exec_seq_rep_reaches; [exact H1 | lia |].
    intros p'. apply dashed_reaches; (assumption || lia). }
  unfold heading_marker. rewrite <- !app_assoc. unfold Opt.
  destruct Hhash as [-> | ->].
  - change (lit "#" ++ w1 ++ dashes n ++ marker_body w2 w3 w4 m w5 ++ post)
      with ("#"%char :: w1 ++ dashes n ++ marker_body w2 w3 w4 m w5 ++ post).
    specialize (Hrest (Some "#"%char)).
    cbn [exec]. rewrite Hbol.
    change (chr_eq MULTILINE "#" "#") with true. cbv iota.
    match goal with
    | |- is_Some (match ?e with Some x => Some x | None => _ end) =>
        destruct e; [eauto | exact Hrest]
    end.
  - change (lit "##" ++ w1 ++ dashes n ++ marker_body w2 w3 w4 m w5 ++ post)
      with ("#"%char :: "#"%char
            :: w1 ++ dashes n ++ marker_body w2 w3 w4 m w5 ++ post).
    specialize (Hrest (Some "#"%char)). destruct Hrest as [x Hx].
    cbn [exec] in Hx. cbn [exec]. rewrite Hbol.
    change (chr_eq MULTILINE "#" "#") with true. cbv iota.
    rewrite Hx. eauto.
Qed.

Lemma simple_marker_reaches (n m : nat) (w2 w3 w4 w5 post : str) prev :
  at_bol MULTILINE prev = true →
  (3 ≤ n)%nat → (3 ≤ m)%nat →
  spaces_only w2 → spaces_only w3 → spaces_only w4 → spaces_only w5 →
  line_stop post →
  is_Some (match_at MULTILINE TextCleaner.page_break_simple_re prev
             (simple_marker n (marker_body w2 w3 w4 m w5) ++ post)).
Proof.
  intros Hbol Hn Hm H2 H3 H4 H5 Hpost.
  unfold match_at. fold rest_of.
  change TextCleaner.page_break_simple_re
    with (Seq Bol (Seq (Rep (eqc "-") 3) (marker_tail 3))).
  unfold simple_marker. rewrite <- !app_assoc.
  change (exec MULTILINE (Seq Bol (Seq (Rep (eqc "-") 3) (marker_tail 3))) prev
            (dashes n ++ marker_body w2 w3 w4 m w5 ++ post) rest_of)
    with (if at_bol MULTILINE prev
          then exec MULTILINE (Seq (Rep (eqc "-") 3) (marker_tail 3)) prev
                 (dashes n ++ marker_body w2 w3 w4 m w5 ++ post) rest_of
          else None).
  rewrite Hbol. apply dashed_reaches; (assumption || lia).
Qed.

(** *** Markers in any text *)

Lemma heading_re_ends : ends_eol TextCleaner.page_break_heading_re = true.
Proof. reflexivity. Qed.

Lemma simple_re_ends : ends_eol TextCleaner.page_break_simple_re = true.
Proof. reflexivity. Qed.

Lemma heading_re_min : (1 ≤ min_len TextCleaner.page_break_heading_re)%nat.
Proof. vm_compute. lia. Qed.

Lemma simple_re_min : (1 ≤ min_len TextCleaner.page_break_simple_re)%nat.
Proof. vm_compute. lia. Qed.

Lemma sublist_of_parts (X A B pre post : str) :
  X `sublist_of` A ++ B → A `sublist_of` pre → B `sublist_of` post →
  ∃ A' B', X = A' ++ B' ∧ A' `sublist_of` pre ∧ B' `sublist_of` post.
Proof.
  intros HX HA HB. apply sublist_app_r in HX as (A' & B' & -> & HA' & HB').
  exists A', B'. split; [reflexivity |].
  split; etrans; eassumption.
Qed.

(** A marker with "#" on a line of its own, in any text. *)
Lemma heading_marker_gone (pre post hashes w1 : str) (n m : nat)
    (w2 w3 w4 w5 : str) :
  line_start pre → line_stop post →
  hashes = lit "#" ∨ hashes = lit "##" →
  (2 ≤ n)%nat → (2 ≤ m)%nat →
  spaces_only w1 → spaces_only w2 → spaces_only w3 → spaces_only w4 →
  spaces_only w5 →
  nl_free (heading_marker hashes w1 n (marker_body w2 w3 w4 m w5)) →
  ∃ A B,
    TextCleaner.remove_page_breaks
      (pre ++ heading_marker hashes w1 n (marker_body w2 w3 w4 m w5) ++ post)
    = A ++ B
    ∧ A `sublist_of` pre ∧ B `sublist_of` post.
Proof.
  intros Hpre Hpost Hhash Hn Hm H1 H2 H3 H4 H5 Hfree.
  unfold TextCleaner.remove_page_breaks.
  destruct (line_removed_by TextCleaner.page_break_heading_re pre
              (heading_marker hashes w1 n (marker_body w2 w3 w4 m w5)) post
              heading_re_ends heading_re_min Hfree)
    as (A & B & E & HA & HB).
  - destruct (heading_marker_head hashes w1 n (marker_body w2 w3 w4 m w5) Hhash)
      as [mk ->]. discriminate.
  - intros prev Hbol. apply heading_marker_reaches; assumption.
  - exact Hpre.
  - rewrite E.
    apply (sublist_of_parts _ A B pre post); [apply re_sub_sublist | assumption..].
Qed.

(** A marker without "#" on a line of its own, in any text. *)
Lemma simple_marker_gone (pre post : str) (n m : nat) (w2 w3 w4 w5 : str) :
  line_start pre → line_stop post →
  (3 ≤ n)%nat → (3 ≤ m)%nat →
  spaces_only w2 → spaces_only w3 → spaces_only w4 → spaces_only w5 →
  nl_free (simple_marker n (marker_body w2 w3 w4 m w5)) →
  ∃ A B,
    TextCleaner.remove_page_breaks
      (pre ++ simple_marker n (marker_body w2 w3 w4 m w5) ++ post)
    = A ++ B
    ∧ A `sublist_of` pre ∧ B `sublist_of` post.
Proof.
  intros Hpre Hpost Hn Hm H2 H3 H4 H5 Hfree.
  unfold TextCleaner.remove_page_breaks.
  assert (Hne : simple_marker n (marker_body w2 w3 w4 m w5) ≠ []).
  { destruct (simple_marker_head n (marker_body w2 w3 w4 m w5)) as [mk ->];
      [lia | discriminate]. }
  destruct (line_passed_by TextCleaner.page_break_heading_re pre
              (simple_marker n (marker_body w2 w3 w4 m w5)) post
              heading_re_ends heading_re_min Hfree Hne)
    as (A1 & B1 & HA1 & HB1 & [E | (E & Hs1 & Hs2)]).
  - intros prev. apply no_hash_inert, simple_marker_no_hash; assumption.
  - intros p. apply line_end_no_heading. exact Hpost.
  - exact Hpre.
  - exact Hpost.
  - rewrite E.
    apply (sublist_of_parts _ A1 B1 pre post);
      [apply re_sub_sublist | assumption..].
  - rewrite E.
    destruct (line_removed_by TextCleaner.page_break_simple_re A1
                (simple_marker n (marker_body w2 w3 w4 m w5)) B1
                simple_re_ends simple_re_min Hfree Hne)
      as (A & B & E' & HA & HB).
    + intros prev Hbol. apply simple_marker_reaches; assumption.
    + exact Hs1.
    + exists A, B. split; [exact E' |]. split; etrans; eassumption.
Qed.

(** *** The marker with two dashes and no "#" *)

Lemma two_dash_no_match prev (post : str) :
  match_at MULTILINE TextCleaner.page_break_heading_re prev
    (two_dash_marker ++ post) = None
  ∧ match_at MULTILINE TextCleaner.page_break_simple_re prev
      (two_dash_marker ++ post) = None.
Proof.
  split; [apply heading_re_needs_hash; reflexivity |].
  unfold match_at.
  change TextCleaner.page_break_simple_re
    with (Seq Bol (Seq (Rep (eqc "-") 3) (marker_tail 3))).
  cbn [exec]. destruct (at_bol MULTILINE prev); reflexivity.
Qed.

(** No match starts inside a line in which the pattern, which needs a
    line start, does not match. *)
Lemma inert_inside (r : regex) (M : str) :
  nl_free M →
  (∀ prev s, match_at MULTILINE r prev (M ++ s) = None) →
  (∀ prev t, at_bol MULTILINE prev = false → match_at MULTILINE r prev t = None) →
  ∀ prev, inert MULTILINE r prev M.
Proof.
  intros Hfree Hstart Hbol prev a c t s E.
  destruct a as [|c0 a] using rev_ind.
  - cbn [app] in E. subst M. apply Hstart.
  - clear IHa. apply Hbol. unfold last_of. rewrite last_snoc.
    assert (Hc0 : c0 ≠ nl).
    { unfold nl_free in Hfree. rewrite Forall_forall in Hfree. apply Hfree.
      rewrite E. apply elem_of_app. left. apply elem_of_app. right.
      apply list_elem_of_here. }
    cbn [at_bol]. destruct (eqc c0 nl) eqn:Ec; [| reflexivity].
    apply eqc_true in Ec. contradiction.
Qed.

Lemma re_sub_two_inert (r : regex) (x y s : str) :
  inert MULTILINE r None x → (∀ prev, inert MULTILINE r prev y) →
  ∃ B, re_sub MULTILINE r [] (x ++ y ++ s) = x ++ y ++ B ∧ B `sublist_of` s.
Proof.
  intros Hx Hy.
  exists (flat_map (subst_seg [])
            (scan MULTILINE r (last_of (last_of None x) y) s 0)).
  split; [| apply flat_scan_sublist].
  unfold re_sub. change (fun g => match g with Match _ => [] | Text c => [c] end)
    with (subst_seg []).
  rewrite scan_inert by exact Hx. rewrite scan_inert by apply Hy.
  rewrite !flat_map_app. f_equal; [apply (flat_text [] x) |].
  f_equal. apply (flat_text [] y).
Qed.

Lemma two_dash_free : nl_free two_dash_marker.
Proof. apply word_nl_free. vm_compute. reflexivity. Qed.

(** After lines that begin with neither "#" nor "-" the marker with two
    dashes stays. *)
Lemma two_dash_marker_kept (pre post : str) :
  quiet None pre = true →
  ∃ B,
    TextCleaner.remove_page_breaks (pre ++ two_dash_marker ++ post)
    = pre ++ two_dash_marker ++ B
    ∧ B `sublist_of` post.
Proof.
  intros Hq. unfold TextCleaner.remove_page_breaks.
  destruct (re_sub_two_inert TextCleaner.page_break_heading_re pre
              two_dash_marker post) as (B1 & E1 & HB1).
  { apply quiet_inert_heading, Hq. }
  { apply inert_inside; [apply two_dash_free | |].
    - intros prev s. apply two_dash_no_match.
    - intros prev t. apply heading_re_needs_bol. }
  rewrite E1.
  destruct (re_sub_two_inert TextCleaner.page_break_simple_re pre
              two_dash_marker B1) as (B2 & E2 & HB2).
  { apply quiet_inert_simple, Hq. }
  { apply inert_inside; [apply two_dash_free | |].
    - intros prev s. apply two_dash_no_match.
    - intros prev t. apply simple_re_needs_bol. }
  exists B2. split; [exact E2 | etrans; eassumption].
Qed.

(** C6, amended.  The page-break stripper removes every marker made of
    one or two "#", optional whitespace, 2 or more dashes, "Page Break"
    and 2 or more dashes, and every marker without "#" with 3 or more
    dashes on each side (whitespace being allowed around each word and at
    the end), that stands on a line of its own, in any text: what is left
    is made of characters of the text before the marker followed by
    characters of the text after it, in their order.  A text that
    consists of such a marker becomes empty.  When the marker is followed
    by the end of the text or by a line that does not begin with
    whitespace, the pattern matches at a line start the marker and nothing
    else; and when moreover no line before the marker begins with "#" or
    "-" (and the line after a marker without "#" does not begin with
    "#"), the text before the marker is left as it is.  A marker with 2
    dashes on each side and no "#" is matched by neither pattern, whatever
    comes before and after it: alone it is left in place, and so it is
    after lines that begin with neither "#" nor "-"; but it is removed as
    the tail of a match that starts on an earlier line, as after a line
    that is a lone "#". *)
Theorem page_break_markers_removed :
  (∀ pre post hashes w1 n m w2 w3 w4 w5,
     line_start pre → line_stop post →
     hashes = lit "#" ∨ hashes = lit "##" →
     (2 ≤ n)%nat → (2 ≤ m)%nat →
     spaces_only w1 → spaces_only w2 → spaces_only w3 → spaces_only w4 →
     spaces_only w5 →
     nl_free (heading_marker hashes w1 n (marker_body w2 w3 w4 m w5)) →
     ∃ A B,
       TextCleaner.remove_page_breaks
         (pre ++ heading_marker hashes w1 n (marker_body w2 w3 w4 m w5) ++ post)
       = A ++ B
       ∧ A `sublist_of` pre ∧ B `sublist_of` post)
  ∧ (∀ pre post n m w2 w3 w4 w5,
       line_start pre → line_stop post →
       (3 ≤ n)%nat → (3 ≤ m)%nat →
       spaces_only w2 → spaces_only w3 → spaces_only w4 → spaces_only w5 →
       nl_free (simple_marker n (marker_body w2 w3 w4 m w5)) →
       ∃ A B,
         TextCleaner.remove_page_breaks
           (pre ++ simple_marker n (marker_body w2 w3 w4 m w5) ++ post)
         = A ++ B
         ∧ A `sublist_of` pre ∧ B `sublist_of` post)
  ∧ (∀ hashes w1 n m w2 w3 w4 w5,
       hashes = lit "#" ∨ hashes = lit "##" →
       (2 ≤ n)%nat → (2 ≤ m)%nat →
       spaces_only w1 → spaces_only w2 → spaces_only w3 → spaces_only w4 →
       spaces_only w5 →
       TextCleaner.remove_page_breaks
         (heading_marker hashes w1 n (marker_body w2 w3 w4 m w5)) = [])
  ∧ (∀ n m w2 w3 w4 w5,
       (3 ≤ n)%nat → (3 ≤ m)%nat →
       spaces_only w2 → spaces_only w3 → spaces_only w4 → spaces_only w5 →
       TextCleaner.remove_page_breaks
         (simple_marker n (marker_body w2 w3 w4 m w5)) = [])
  ∧ (∀ hashes w1 n m w2 w3 w4 w5 post prev,
       at_bol MULTILINE prev = true →
       hashes = lit "#" ∨ hashes = lit "##" →
       (2 ≤ n)%nat → (2 ≤ m)%nat →
       spaces_only w1 → spaces_only w2 → spaces_only w3 → spaces_only w4 →
       spaces_only w5 → line_end post →
       match_at MULTILINE TextCleaner.page_break_heading_re prev
         (heading_marker hashes w1 n (marker_body w2 w3 w4 m w5) ++ post)
       = Some post)
  ∧ (∀ n m w2 w3 w4 w5 post prev,
       at_bol MULTILINE prev = true →
       (3 ≤ n)%nat → (3 ≤ m)%nat →
       spaces_only w2 → spaces_only w3 → spaces_only w4 → spaces_only w5 →
       line_end post →
       match_at MULTILINE TextCleaner.page_break_simple_re prev
         (simple_marker n (marker_body w2 w3 w4 m w5) ++ post)
       = Some post)
  ∧ (∀ pre post hashes w1 n m w2 w3 w4 w5,
       quiet None pre = true → at_bol MULTILINE (last_of None pre) = true →
       hashes = lit "#" ∨ hashes = lit "##" →
       (2 ≤ n)%nat → (2 ≤ m)%nat →
       spaces_only w1 → spaces_only w2 → spaces_only w3 → spaces_only w4 →
       spaces_only w5 → line_end post →
       TextCleaner.remove_page_breaks
         (pre ++ heading_marker hashes w1 n (marker_body w2 w3 w4 m w5) ++ post)
       = pre ++ TextCleaner.remove_page_breaks post)
  ∧ (∀ pre post n m w2 w3 w4 w5,
       quiet None pre = true → at_bol MULTILINE (last_of None pre) = true →
       (3 ≤ n)%nat → (3 ≤ m)%nat →
       spaces_only w2 → spaces_only w3 → spaces_only w4 → spaces_only w5 →
       plain_line_end post →
       TextCleaner.remove_page_breaks
         (pre ++ simple_marker n (marker_body w2 w3 w4 m w5) ++ post)
       = pre ++ TextCleaner.remove_page_breaks post)
  ∧ (∀ prev post,
       match_at MULTILINE TextCleaner.page_break_heading_re prev
         (two_dash_marker ++ post) = None
       ∧ match_at MULTILINE TextCleaner.page_break_simple_re prev
           (two_dash_marker ++ post) = None)
  ∧ (∀ pre post,
       quiet None pre = true →
       ∃ B,
         TextCleaner.remove_page_breaks (pre ++ two_dash_marker ++ post)
         = pre ++ two_dash_marker ++ B
         ∧ B `sublist_of` post)
  ∧ TextCleaner.remove_page_breaks two_dash_marker = two_dash_marker
  ∧ TextCleaner.remove_page_breaks hash_then_two_dash = nl :: lit "x"
  ∧ TextCleaner.remove_page_breaks usual_layout = usual_layout_stripped
  ∧ TextCleaner.remove_page_breaks text_with_markers = text_without_markers.
Proof.
  split; [intros; apply heading_marker_gone; assumption |].
  split; [intros; apply simple_marker_gone; assumption |].
  split; [intros; apply heading_marker_removed; assumption |].
  split; [intros; apply simple_marker_removed; assumption |].
  split; [intros; apply heading_marker_match; assumption |].
  split; [intros; apply simple_marker_match; assumption |].
  split; [intros; apply heading_marker_removed_in_context; assumption |].
  split; [intros; apply simple_marker_removed_in_context; assumption |].
  split; [exact two_dash_no_match |].
  split; [exact two_dash_marker_kept |].
  repeat split; vm_compute; reflexivity.
Qed.

Lemma page_break_markers_removed_witness :
  (∃ A B,
     TextCleaner.remove_page_breaks
       ((lit "# Title" ++ [nl] ++ lit "- item" ++ [nl; nl])
        ++ heading_marker (lit "##") [sp] 3 (marker_body [sp] [sp] [sp] 3 [])
        ++ [nl; nl] ++ lit "body")
     = A ++ B
     ∧ A `sublist_of` lit "# Title" ++ [nl] ++ lit "- item" ++ [nl; nl]
     ∧ B `sublist_of` [nl; nl] ++ lit "body")
  ∧ (∃ A B,
       TextCleaner.remove_page_breaks
         ((lit "# Title" ++ [nl] ++ lit "- item" ++ [nl; nl])
          ++ simple_marker 3 (marker_body [sp] [sp] [sp] 3 [])
          ++ [nl; nl] ++ lit "## next")
       = A ++ B
       ∧ A `sublist_of` lit "# Title" ++ [nl] ++ lit "- item" ++ [nl; nl]
       ∧ B `sublist_of` [nl; nl] ++ lit "## next").
Proof.
  split.
  - apply (proj1 page_break_markers_removed).
    + right. reflexivity.
    + right. eexists. reflexivity.
    + right. reflexivity.
    + lia.
    + lia.
    + repeat constructor.
    + repeat constructor.
    + repeat constructor.
    + repeat constructor.
    + repeat constructor.
    + vm_compute. repeat (constructor; [discriminate |]). constructor.
  - apply (proj1 (proj2 page_break_markers_removed)).
    + right. reflexivity.
    + right. eexists. reflexivity.
    + lia.
    + lia.
    + repeat constructor.
    + repeat constructor.
    + repeat constructor.
    + repeat constructor.
    + vm_compute. repeat (constructor; [discriminate |]). constructor.
Defined.
